(** * Verification of the recipe-corpus collector (lab1/parse.py)

    A shallow embedding of the acquisition engine of [lab1/parse.py]:
    [fetch_url], [is_likely_recipe], [extract_text_from_html], the ledger
    handling and the walk loop of [collect_for_site], and of the figures of
    [compute_stats].  Python [str] values are sequences of Unicode code
    points, the file system is a finite map from paths to contents, and every
    observable effect (HTTP requests, sleeps, progress lines) is recorded in
    an event trace carried by the [world].

    Left out: the [tqdm] progress bar (display only), the request headers
    and timeout (a timeout is one of the ways [session.get] raises),
    failures of the file system itself, and [ensure_dirs], [save_summary]
    and [main], which only create directories and write the report; the
    [while] loop takes fuel, one unit for each turn.  A float is held as
    the rational that it is: a true division rounds to the nearest float. *)

From Stdlib Require Import ZArith NArith QArith Qabs Qround Qpower Lqa.
From Stdlib Require Import List Bool Lia.
From Stdlib Require Import Ascii String DecimalString.
From stdpp Require Import base gmap sets list sorting.

Local Open Scope nat_scope.
#[local] Set Warnings "-clear-no-such-hyp".

(** ** Python strings *)

(** A Python [str] is a sequence of code points; [len] is [length]. *)
Abbreviation str := (list N).

(** An ASCII literal of the source, as a [str]. *)
Definition lit (s : string) : str :=
  map N_of_ascii (list_ascii_of_string s).

(** [str(n)] for an integer. *)
Definition str_of_Z (z : Z) : str :=
  lit (NilZero.string_of_int (Z.to_int z)).

(** [p] is a prefix of [s]. *)
Fixpoint startswith (p s : str) : bool :=
  match p, s with
  | [], _ => true
  | _ :: _, [] => false
  | a :: p', b :: s' => N.eqb a b && startswith p' s'
  end.

(** [sub in s] on strings. *)
Fixpoint contains (sub s : str) : bool :=
  startswith sub s ||
  match s with
  | [] => false
  | _ :: s' => contains sub s'
  end.

(** ** UTF-8, as used by [body.encode("utf-8")] and by the text files *)

Inductive exn : Set :=
  | JSONDecodeError
  | KeyError
  | TypeError
  | ValueError
  | IndexError
  | UnicodeEncodeError
  | UnicodeDecodeError
  | FileNotFoundError.

(** The bytes of one code point; surrogates and values past U+10FFFF have no
    encoding. *)
Definition utf8_char (c : N) : option (list N) :=
  if (c <? 0x80)%N then Some [c]
  else if (c <? 0x800)%N then
    Some [N.lor 0xC0 (N.shiftr c 6); N.lor 0x80 (N.land c 0x3F)]
  else if ((0xD800 <=? c) && (c <=? 0xDFFF))%N then None
  else if (c <? 0x10000)%N then
    Some [N.lor 0xE0 (N.shiftr c 12);
          N.lor 0x80 (N.land (N.shiftr c 6) 0x3F);
          N.lor 0x80 (N.land c 0x3F)]
  else if (c <? 0x110000)%N then
    Some [N.lor 0xF0 (N.shiftr c 18);
          N.lor 0x80 (N.land (N.shiftr c 12) 0x3F);
          N.lor 0x80 (N.land (N.shiftr c 6) 0x3F);
          N.lor 0x80 (N.land c 0x3F)]
  else None.

Fixpoint encode_utf8 (s : str) : option (list N) :=
  match s with
  | [] => Some []
  | c :: s' =>
      match utf8_char c, encode_utf8 s' with
      | Some bs, Some rest => Some (bs ++ rest)
      | _, _ => None
      end
  end.

(** ** Library functions the module calls

    [str.lower], [str.format], the [json] codec and BeautifulSoup's text
    extraction are not part of the repository: they are parameters of the
    development. *)

(** The values [json.loads] builds.  Numbers are integers: the walker writes
    no float, and a ledger line that holds one is outside the model.  A dict
    is the list of its items, in insertion order. *)
#[local] Set Warnings "-register-all".
Inductive json : Type :=
  | JNull
  | JBool (b : bool)
  | JInt (z : Z)
  | JStr (s : str)
  | JList (l : list json)
  | JDict (items : list (str * json)).

Class PyLib : Type := {
  (** [s.lower()] *)
  str_lower : str -> str;
  (** [pattern.format(n)]; a bad template raises *)
  str_format : str -> Z -> exn + str;
  (** [json.loads(line)]; [None] stands for [JSONDecodeError] *)
  json_loads : str -> option json;
  (** [json.dumps(obj, ensure_ascii=False)] *)
  json_dumps : json -> str;
  (** [BeautifulSoup(html, "html.parser")] with script, style, noscript and
      comments removed, then [get_text(separator=" ", strip=True)]: the text
      the parser returns for a page.  On markup that makes the parser raise
      the code stops with that exception, which is not modelled: nothing
      below is stated of such a page as if the parser had returned. *)
  soup_get_text : str -> str
}.

(** ** Module constants *)

Record settings : Type := {
  TARGET_PER_SITE : Z;
  MAX_RETRIES : nat;
  BACKOFF_FACTOR : Q;
  DELAY_BETWEEN_REQUESTS : Q * Q
}.

Definition source_settings : settings := {|
  TARGET_PER_SITE := 150;
  MAX_RETRIES := 3;
  BACKOFF_FACTOR := 3 # 2;
  DELAY_BETWEEN_REQUESTS := (4 # 5, 9 # 5)
|}.

Definition OUTPUT_DIR : str := lit "recipes_corpus".

(** ** The classifier *)

(* "ингредиент" *)
Definition kw_ingredient : str :=
  [1080; 1085; 1075; 1088; 1077; 1076; 1080; 1077; 1085; 1090]%N.
(* "рецепт" *)
Definition kw_recipe : str := [1088; 1077; 1094; 1077; 1087; 1090]%N.
(* "приготовление" *)
Definition kw_preparation : str :=
  [1087; 1088; 1080; 1075; 1086; 1090; 1086; 1074; 1083; 1077; 1085; 1080;
   1077]%N.

Definition str_eqb (a b : str) : bool := bool_decide (a = b).

Section Classifier.
Context {lib : PyLib}.

Definition is_likely_recipe (html site_key : str) : bool :=
  match html with
  | [] => false
  | _ :: _ =>
      if length html <? 800 then false
      else
        let lower := str_lower html in
        let fallback := 2000 <? length lower in
        if str_eqb site_key (lit "povarenok") then
          if contains kw_ingredient lower || contains kw_recipe lower
             || contains kw_preparation lower
          then true else fallback
        else if str_eqb site_key (lit "koolinar") then
          if contains kw_ingredient lower || contains kw_recipe lower
             || contains kw_preparation lower
          then true else fallback
        else fallback
  end.
End Classifier.

(** The test both site branches make on the lower-cased page. *)
Definition has_keyword (lower : str) : bool :=
  contains kw_ingredient lower || contains kw_recipe lower
  || contains kw_preparation lower.

(** The length of [s.encode("utf-8")], when [s] can be encoded. *)
Definition utf8_length (s : str) : option nat := length <$> encode_utf8 s.

(** ** The outside world *)

(** What [session.get] does: it raises [requests.RequestException] or hands
    back a response, whatever its status. *)
Inductive response : Type :=
  | RequestException
  | Response (status_code : Z) (text : str).

(** A scripted network: the answer to the request number [n] (counted from 0
    over the whole run) for [url]. *)
Record Session : Type := { session_get : nat -> str -> response }.

Inductive event : Type :=
  | EGet (url : str)
  | ESleep (seconds : Q)
  | ESleepUniform (lo hi : Q)
  | EProgress (attempts : Z) (found : nat).

(** A file written in binary mode holds bytes; a file written in text mode is
    kept as its decoded text. *)
Inductive content : Type :=
  | Bytes (data : list N)
  | Text (s : str).

Record world : Type := {
  files : gmap str content;
  trace : list event
}.

Definition is_get (e : event) : bool :=
  match e with EGet _ => true | _ => false end.

(** Number of requests sent so far. *)
Definition requests (w : world) : nat :=
  length (List.filter is_get (trace w)).

Definition emit (e : event) (w : world) : world :=
  {| files := files w; trace := trace w ++ [e] |}.

Definition write_file (path : str) (c : content) (w : world) : world :=
  {| files := <[path := c]> (files w); trace := trace w |}.

(** ** Computations that may raise *)

Inductive result (A : Type) : Type :=
  | Ok (a : A)
  | Raise (e : exn).
Arguments Ok {A} a.
Arguments Raise {A} e.

Definition io (A : Type) : Type := world -> result A * world.

Definition io_ret {A} (a : A) : io A := fun w => (Ok a, w).
Definition io_raise {A} (e : exn) : io A := fun w => (Raise e, w).
Definition io_bind {A B} (m : io A) (k : A -> io B) : io B :=
  fun w =>
    match m w with
    | (Ok a, w') => k a w'
    | (Raise e, w') => (Raise e, w')
    end.
Definition io_do (f : world -> world) : io unit := fun w => (Ok tt, f w).

Declare Scope io_scope.
Delimit Scope io_scope with io.
Notation "x <- m ;; k" := (io_bind m (fun x => k))
  (at level 100, m at next level, right associativity) : io_scope.
Notation "m ;;; k" := (io_bind m (fun _ => k))
  (at level 100, right associativity) : io_scope.

(** ** fetch_url *)

Section Fetcher.
Variable cfg : settings.
Variable session : Session.

(** The body of [for attempt in range(1, MAX_RETRIES + 1)], over the attempt
    numbers still to come; the final clause is the [return None, None] after
    the loop.  The waits are kept as exact rationals and a sleep does not
    fail: this is the code as long as every wait slept is a float that
    [time.sleep] takes ([exact_backoff] below), as the waits 1 and 1.5 of
    the source constants are. *)
Fixpoint fetch_attempts (url : str) (todo : list nat) (wait : Q) (w : world)
  : (option Z * option str) * world :=
  match todo with
  | [] => ((None, None), w)
  | attempt :: rest =>
      let r := session_get session (requests w) url in
      let w1 := emit (EGet url) w in
      match r with
      | Response status text => ((Some status, Some text), w1)
      | RequestException =>
          if attempt =? MAX_RETRIES cfg then ((None, None), w1)
          else
            fetch_attempts url rest (wait * BACKOFF_FACTOR cfg)%Q
              (emit (ESleep wait) w1)
      end
  end.

Definition fetch_url (url : str) (w : world)
  : (option Z * option str) * world :=
  fetch_attempts url (seq 1 (MAX_RETRIES cfg)) 1%Q w.

End Fetcher.

(** The events of [n] failed attempts in a row, the last of which gives up:
    a request, then a sleep before each further request. *)
Fixpoint backoff_events (url : str) (n : nat) (wait factor : Q) : list event :=
  match n with
  | 0 => []
  | S n' =>
      EGet url ::
      match n' with
      | 0 => []
      | S _ => ESleep wait :: backoff_events url n' (wait * factor)%Q factor
      end
  end.

(** The waits of the sleeps of a trace, in order. *)
Definition sleeps (t : list event) : list Q :=
  flat_map (fun e => match e with ESleep q => [q] | _ => [] end) t.

(** Each element is less than the next. *)
Fixpoint increasing (l : list Q) : Prop :=
  match l with
  | a :: (b :: _) as rest => (a < b)%Q /\ increasing rest
  | _ => True
  end.

(** A rational that is a [float]: [m * 2 ^ e] with [m] below 2^53 in size
    and [e] from -1074 to 971. *)
Definition is_double (q : Q) : Prop :=
  exists m e : Z,
    (Z.abs m < 2 ^ 53)%Z /\ (-1074 <= e <= 971)%Z
    /\ (q == inject_Z m * 2 ^ e)%Q.

(** A wait that [time.sleep] takes: a float from 0 to 10^9 seconds.  Below 0
    it raises ValueError, and from 2^63 nanoseconds on OverflowError. *)
Definition SLEEP_LIMIT : Q := inject_Z (10 ^ 9).

Definition sleepable (wait : Q) : Prop :=
  is_double wait /\ (0 <= wait <= SLEEP_LIMIT)%Q.

(** The waits of [n] sleeps in a row: [wait], then [wait *= BACKOFF_FACTOR]
    after each. *)
Fixpoint backoff_waits (n : nat) (wait factor : Q) : list Q :=
  match n with
  | 0 => []
  | S n' => wait :: backoff_waits n' (wait * factor)%Q factor
  end.

(** The factor is a float, and the first [n] waits are floats that
    [time.sleep] takes.  The product of two floats that is a float is
    computed exactly, so these exact waits are the waits of the code. *)
Definition exact_backoff (factor : Q) (n : nat) : Prop :=
  is_double factor /\ Forall sleepable (backoff_waits n 1 factor).

(** ** extract_text_from_html *)

(** The characters matched by [\s] in a [str] pattern. *)
Definition is_space (c : N) : bool :=
  ((9 <=? c) && (c <=? 13) || (28 <=? c) && (c <=? 32) || (c =? 133)
   || (c =? 160) || (c =? 5760) || (8192 <=? c) && (c <=? 8202)
   || (c =? 8232) || (c =? 8233) || (c =? 8239) || (c =? 8287)
   || (c =? 12288))%N.

(** [re.sub(r'\s+', ' ', text)]; [in_run] tells that the previous character
    was white space. *)
Fixpoint collapse_spaces (in_run : bool) (text : str) : str :=
  match text with
  | [] => []
  | c :: rest =>
      if is_space c then
        if in_run then collapse_spaces true rest
        else 32%N :: collapse_spaces true rest
      else c :: collapse_spaces false rest
  end.

(** [len(text.split())] *)
Fixpoint count_words (in_word : bool) (text : str) : nat :=
  match text with
  | [] => 0
  | c :: rest =>
      if is_space c then count_words false rest
      else if in_word then count_words true rest
      else S (count_words true rest)
  end.

Definition extract_text_from_html {lib : PyLib} (html : str) : str :=
  collapse_spaces false (soup_get_text html).

(** ** JSON objects as Python values *)

(** What can be put in a [set]: [None], integers ([True] and [False] are the
    integers 1 and 0 there) and strings. *)
Inductive key : Type :=
  | KNone
  | KInt (z : Z)
  | KStr (s : str).

#[global] Instance key_eq_dec : EqDecision key.
Proof. solve_decision. Defined.

#[global] Program Instance key_countable : Countable key :=
  inj_countable'
    (fun k => match k with
              | KNone => inl ()
              | KInt z => inr (inl z)
              | KStr s => inr (inr s)
              end)
    (fun x => match x with
              | inl _ => KNone
              | inr (inl z) => KInt z
              | inr (inr s) => KStr s
              end) _.
Next Obligation. by intros []. Qed.

Fixpoint assoc (k : str) (items : list (str * json)) : option json :=
  match items with
  | [] => None
  | (k', v) :: rest => if str_eqb k k' then Some v else assoc k rest
  end.

(** [obj[k]] *)
Definition getitem (obj : json) (k : str) : result json :=
  match obj with
  | JDict items =>
      match assoc k items with
      | Some v => Ok v
      | None => Raise KeyError
      end
  | _ => Raise TypeError
  end.

(** Hashing a value, as [set.add] does; lists and dicts are unhashable. *)
Definition hash_key (v : json) : result key :=
  match v with
  | JNull => Ok KNone
  | JBool b => Ok (KInt (if b then 1 else 0))
  | JInt z => Ok (KInt z)
  | JStr s => Ok (KStr s)
  | JList _ | JDict _ => Raise TypeError
  end.

(** [obj["id"]] as a set member. *)
Definition record_key (obj : json) : result key :=
  match getitem obj (lit "id") with
  | Ok v => hash_key v
  | Raise e => Raise e
  end.

(** The dict built at lines 136-145. *)
Definition mk_meta (id : Z) (url raw_path text_path : str)
    (raw_size text_size words : nat) (status : Z) : json :=
  JDict [ (lit "id", JInt id);
          (lit "url", JStr url);
          (lit "raw_path", JStr raw_path);
          (lit "text_path", JStr text_path);
          (lit "raw_size_bytes", JInt (Z.of_nat raw_size));
          (lit "text_size_bytes", JInt (Z.of_nat text_size));
          (lit "word_count", JInt (Z.of_nat words));
          (lit "status_code", JInt status) ].

(** ** Files *)

Definition LF : N := 10%N.
Definition CR : N := 13%N.

(** Reading in text mode turns "\r\n" and "\r" into "\n"; [after_cr] tells
    that the previous character was a "\r". *)
Fixpoint universal_newlines (after_cr : bool) (s : str) : str :=
  match s with
  | [] => []
  | c :: rest =>
      if (c =? CR)%N then LF :: universal_newlines true rest
      else if (c =? LF)%N && after_cr then universal_newlines false rest
      else c :: universal_newlines false rest
  end.

(** [for line in f]: the lines with their terminators; the last one may
    lack it. *)
Fixpoint lines (s : str) : list str :=
  match s with
  | [] => []
  | c :: rest =>
      if (c =? LF)%N then [c] :: lines rest
      else
        match lines rest with
        | [] => [[c]]
        | l :: ls => (c :: l) :: ls
        end
  end.

(** The lines a text-mode reader hands out. *)
Definition read_lines (s : str) : list str :=
  lines (universal_newlines false s).

(** The text of a file ends with a complete line. *)
Definition terminated (s : str) : Prop := s = [] \/ last s = Some LF.

(** [dir / name] on a POSIX path, for a [name] that is one plain component,
    or several of them joined by "/": [pathlib] then joins with one "/".  It
    drops an empty or "." component and starts again at an absolute [name];
    for such names this is not the path of the code. *)
Definition path_join (dir name : str) : str := dir ++ lit "/" ++ name.

(** A path component that [pathlib] keeps as it is: not empty, not ".", and
    without "/".  The keys of [SITES] are such names. *)
Definition plain_name (s : str) : Prop := s ≠ [] /\ s ≠ lit "." /\ 47%N ∉ s.

(** [open(path, "wb")] then [write(data)] *)
Definition save_file (path : str) (data : list N) : io unit :=
  io_do (write_file path (Bytes data)).

(** [open(path, "w", encoding="utf-8")] truncates, then [write(text)] encodes *)
Definition save_text_file (path text : str) : io unit :=
  fun w =>
    match encode_utf8 text with
    | Some _ => (Ok tt, write_file path (Text text) w)
    | None => (Raise UnicodeEncodeError, write_file path (Text []) w)
    end.

(** [open(path, "a", encoding="utf-8")] creates a missing file, then
    [write(text)] *)
Definition append_text_file (path text : str) : io unit :=
  fun w =>
    let old := default (Text []) (files w !! path) in
    match encode_utf8 text with
    | None => (Raise UnicodeEncodeError, write_file path old w)
    | Some bs =>
        match old with
        | Text s => (Ok tt, write_file path (Text (s ++ text)) w)
        | Bytes d => (Ok tt, write_file path (Bytes (d ++ bs)) w)
        end
    end.

(** [path.stat().st_size] *)
Definition st_size (path : str) : io nat :=
  fun w =>
    match files w !! path with
    | None => (Raise FileNotFoundError, w)
    | Some (Bytes d) => (Ok (length d), w)
    | Some (Text s) => (Ok (length (default [] (encode_utf8 s))), w)
    end.

(** ** collect_for_site *)

Record site_cfg : Type := { pattern : str; start_id : Z; step : Z }.

(** The local variables of the walk. *)
Record walk : Type := {
  seen_ids : gset key;
  metadata : list json;
  current_id : Z;
  attempts : Z
}.

Definition SITES : list (str * site_cfg) :=
  [ (lit "povarenok",
     {| pattern := lit "https://www.povarenok.ru/recipes/show/{}/";
        start_id := 20000; step := -1 |});
    (lit "koolinar",
     {| pattern := lit "https://www.koolinar.ru/recipe/view/{}";
        start_id := 150000; step := -1 |}) ].

Inductive outcome : Type :=
  | Returned (metadata : list json)
  | Raised (e : exn)
  | Running (st : walk).

Section Walker.
Context {lib : PyLib}.
Variable cfg : settings.
Variable session : Session.
Variable site_key : str.
Variable site : site_cfg.

Definition site_dir : str := path_join OUTPUT_DIR site_key.
Definition raw_dir : str := path_join site_dir (lit "raw").
Definition text_dir : str := path_join site_dir (lit "text").
Definition meta_file : str :=
  path_join (path_join site_dir (lit "meta")) (lit "meta.jsonl").

(** Lines 107-110, over the lines still to read. *)
Fixpoint load_lines (ls : list str) (seen : gset key) (md : list json)
  : result (gset key * list json) :=
  match ls with
  | [] => Ok (seen, md)
  | line :: rest =>
      match json_loads line with
      | None => Raise JSONDecodeError
      | Some obj =>
          match record_key obj with
          | Raise e => Raise e
          | Ok k => load_lines rest ({[k]} ∪ seen) (md ++ [obj])
          end
      end
  end.

(** Lines 103-110.  A file left by a binary write is not text to read
    back. *)
Definition load_ledger : io (gset key * list json) :=
  fun w =>
    match files w !! meta_file with
    | None => (Ok (∅, []), w)
    | Some (Text s) => (load_lines (read_lines s) ∅ [], w)
    | Some (Bytes _) => (Raise UnicodeDecodeError, w)
    end.

(** Lines 148-149. *)
Definition append_ledger (meta : json) : io unit :=
  append_text_file meta_file (json_dumps meta ++ [LF]).

(** Lines 127-150: the candidate was classified as a document. *)
Definition persist (st : walk) (url body : str) (status : Z) : io walk :=
  (let id := current_id st in
   let raw_path := path_join raw_dir (str_of_Z id ++ lit ".html") in
   match encode_utf8 body with
   | None => io_raise UnicodeEncodeError
   | Some data =>
       save_file raw_path data;;;
       let text := extract_text_from_html body in
       let text_path := path_join text_dir (str_of_Z id ++ lit ".txt") in
       save_text_file text_path text;;;
       raw_size <- st_size raw_path;;
       text_size <- st_size text_path;;
       let words := count_words false text in
       let meta :=
         mk_meta id url raw_path text_path raw_size text_size words status in
       append_ledger meta;;;
       io_ret {| seen_ids := {[KInt id]} ∪ seen_ids st;
                 metadata := metadata st ++ [meta];
                 current_id := id;
                 attempts := attempts st |}
   end)%io.

(** [status == 200 and body and is_likely_recipe(body, site_key)] *)
Definition accepted (status : option Z) (body : option str) : option (Z * str) :=
  match status, body with
  | Some s, Some (c :: b) =>
      if (s =? 200)%Z && is_likely_recipe (c :: b) site_key
      then Some (s, c :: b) else None
  | _, _ => None
  end.

(** One turn of the [while] loop, lines 117-155. *)
Definition loop_body (st : walk) : io walk :=
  (match str_format (pattern site) (current_id st) with
   | inl e => io_raise e
   | inr url =>
       if decide (KInt (current_id st) ∈ seen_ids st) then
         io_ret {| seen_ids := seen_ids st;
                   metadata := metadata st;
                   current_id := current_id st + step site;
                   attempts := attempts st |}
       else
         r <- (fun w => let (r, w') := fetch_url cfg session url w in (Ok r, w'));;
         let n := (attempts st + 1)%Z in
         st1 <- match accepted (fst r) (snd r) with
                | Some (status, body) => persist st url body status
                | None => io_ret st
                end;;
         io_do (emit (ESleepUniform (fst (DELAY_BETWEEN_REQUESTS cfg))
                                    (snd (DELAY_BETWEEN_REQUESTS cfg))));;;
         (if ((n mod 1000 =? 0) && (0 <? n))%Z
          then io_do (emit (EProgress n (size (seen_ids st1))))
          else io_ret tt);;;
         io_ret {| seen_ids := seen_ids st1;
                   metadata := metadata st1;
                   current_id := (current_id st + step site)%Z;
                   attempts := n |}
   end)%io.

(** [while len(seen_ids) < TARGET_PER_SITE]; [fuel] bounds the number of
    turns, and [Running] is a walk stopped short of its end. *)
Fixpoint while_loop (fuel : nat) (st : walk) (w : world) : outcome * world :=
  if (Z.of_nat (size (seen_ids st)) <? TARGET_PER_SITE cfg)%Z then
    match fuel with
    | 0 => (Running st, w)
    | S fuel' =>
        match loop_body st w with
        | (Ok st', w') => while_loop fuel' st' w'
        | (Raise e, w') => (Raised e, w')
        end
    end
  else (Returned (metadata st), w).

Definition collect_for_site (fuel : nat) (w : world) : outcome * world :=
  match load_ledger w with
  | (Raise e, w') => (Raised e, w')
  | (Ok (seen, md), w') =>
      while_loop fuel
        {| seen_ids := seen; metadata := md;
           current_id := start_id site; attempts := 0 |} w'
  end.

(** The ledger of [w] is absent, or it is whole lines that load as [seen]
    and [md]. *)
Definition ledger_holds (w : world) (seen : gset key) (md : list json) : Prop :=
  (files w !! meta_file = None /\ seen = ∅ /\ md = [])
  \/ exists s, files w !! meta_file = Some (Text s) /\ terminated s
             /\ load_lines (read_lines s) ∅ [] = Ok (seen, md).

(** Appending records one after the other, as successive accepted candidates
    do. *)
Fixpoint append_all (records : list json) : io unit :=
  match records with
  | [] => io_ret tt
  | meta :: rest => (append_ledger meta;;; append_all rest)%io
  end.

End Walker.

(** The fields of a record of the walker. *)
Record document : Type := {
  doc_id : Z;
  doc_url : str;
  doc_raw_path : str;
  doc_text_path : str;
  doc_raw_size : nat;
  doc_text_size : nat;
  doc_words : nat;
  doc_status : Z
}.

Definition to_meta (d : document) : json :=
  mk_meta (doc_id d) (doc_url d) (doc_raw_path d) (doc_text_path d)
    (doc_raw_size d) (doc_text_size d) (doc_words d) (doc_status d).

(** The identifiers of a sequence of records, those that have one. *)
Definition record_keys (md : list json) : list key :=
  omap (fun obj => match record_key obj with
                   | Ok k => Some k
                   | Raise _ => None
                   end) md.

Definition encodable (s : str) : bool :=
  match encode_utf8 s with Some _ => true | None => false end.

Section WalkerNotions.
Context {lib : PyLib}.
Variable cfg : settings.
Variable site_key : str.
Variable site : site_cfg.

(** The identifier the walk looks at in its turn number [k], when no
    identifier is skipped. *)
Definition candidate (k : nat) : Z := (start_id site + Z.of_nat k * step site)%Z.

(** The world once an attempt is closed by its sleep and, every 1000
    attempts, by a progress line (lines 152-155). *)
Definition throttled (n : Z) (found : nat) (w : world) : world :=
  let w' := emit (ESleepUniform (fst (DELAY_BETWEEN_REQUESTS cfg))
                                (snd (DELAY_BETWEEN_REQUESTS cfg))) w in
  if ((n mod 1000 =? 0) && (0 <? n))%Z then emit (EProgress n found) w' else w'.

(** The record [persist] writes for a page. *)
Definition page_document (id : Z) (url body : str) (status : Z) : document :=
  let text := extract_text_from_html body in
  {| doc_id := id;
     doc_url := url;
     doc_raw_path := path_join (raw_dir site_key) (str_of_Z id ++ lit ".html");
     doc_text_path := path_join (text_dir site_key) (str_of_Z id ++ lit ".txt");
     doc_raw_size := length (default [] (encode_utf8 body));
     doc_text_size := length (default [] (encode_utf8 text));
     doc_words := count_words false text;
     doc_status := status |}.

(** The page, its text and its ledger line can be written as UTF-8. *)
Definition writable (id : Z) (url body : str) (status : Z) : bool :=
  encodable body && encodable (extract_text_from_html body)
  && encodable (json_dumps (to_meta (page_document id url body status)) ++ [LF]).

(** The verdict of lines 125-126 on a response. *)
Definition is_document (page : Z * str) : bool :=
  match accepted site_key (Some (fst page)) (Some (snd page)) with
  | Some _ => true
  | None => false
  end.

(** The identifiers of the documents among [pages], the responses to the
    candidates number [k], [k + 1], ... *)
Fixpoint accepted_ids (k : nat) (pages : list (Z * str)) : list Z :=
  match pages with
  | [] => []
  | page :: rest =>
      if is_document page then candidate k :: accepted_ids (S k) rest
      else accepted_ids (S k) rest
  end.

(** What a walk from the state [st] has added to the ledger when it stops in
    the world [w'] with the outcome [o]: the records of [docs]. *)
Definition walk_added (st : walk) (w' : world) (o : outcome)
    (docs : list document) : Prop :=
  let seen' := list_to_set ((fun d => KInt (doc_id d)) <$> docs) ∪ seen_ids st in
  let md' := metadata st ++ (to_meta <$> docs) in
  ledger_holds site_key w' seen' md'
  /\ NoDup (doc_id <$> docs)
  /\ (forall d, d ∈ docs -> KInt (doc_id d) ∉ seen_ids st)
  /\ (Z.of_nat (size (seen_ids st) + length docs)
      <= Z.max (Z.of_nat (size (seen_ids st))) (TARGET_PER_SITE cfg))%Z
  /\ match o with
     | Returned md => md = md'
     | Running st' => metadata st' = md' /\ seen_ids st' = seen'
     | Raised _ => True
     end.

End WalkerNotions.

(** ** What the development assumes of the library functions *)

Class PyLibLaws (lib : PyLib) : Prop := {
  (** lower-casing never shortens a string: every code point has at least
      one code point as its lower-case form *)
  lower_length : forall s : str, length s <= length (str_lower s);
  (** [json.dumps] writes control characters escaped *)
  dumps_no_LF : forall v : json, LF ∉ json_dumps v;
  dumps_no_CR : forall v : json, CR ∉ json_dumps v;
  (** a record of the walker, written as a line, is read back as written *)
  loads_dumps : forall id url raw_path text_path raw_size text_size words status,
    let meta :=
      mk_meta id url raw_path text_path raw_size text_size words status in
    json_loads (json_dumps meta ++ [LF]) = Some meta
}.

(** ** A small instance of the library functions

    Enough of [str.lower] for Latin and Cyrillic text, [str.format] for a
    template with one "{}" field, and a line codec for the walker's records.
    It gives the theorems below concrete inputs to run on. *)

Module Demo.

Definition lower_char (c : N) : str :=
  (if (65 <=? c) && (c <=? 90) then [c + 32]
   else if (192 <=? c) && (c <=? 222) && negb (c =? 215) then [c + 32]
   else if c =? 304 then [105; 775]
   else if (1024 <=? c) && (c <=? 1039) then [c + 80]
   else if (1040 <=? c) && (c <=? 1071) then [c + 32]
   else [c])%N.

Definition lower (s : str) : str := flat_map lower_char s.

(** Puts [str(n)] in the place of the first "{}". *)
Fixpoint format (template : str) (n : Z) : str :=
  match template with
  | [] => []
  | c :: rest =>
      if startswith (lit "{}") template then str_of_Z n ++ List.tl rest
      else c :: format rest n
  end.

(** Drops what stands between "<" and ">". *)
Fixpoint get_text (in_tag : bool) (html : str) : str :=
  match html with
  | [] => []
  | c :: rest =>
      if (c =? 60)%N then get_text true rest
      else if (c =? 62)%N then get_text false rest
      else if in_tag then get_text true rest
      else c :: get_text false rest
  end.

(** The line codec.  An integer is a sign and a magnitude, a string is its
    length followed by its characters; the codes are then moved up by 14, out
    of the way of the line terminators. *)
Definition enc_Z (z : Z) : str :=
  [if (z <? 0)%Z then 1%N else 0%N; Z.to_N (Z.abs z)].

Definition dec_Z (sign magnitude : N) : Z :=
  if (sign =? 1)%N then (- Z.of_N magnitude)%Z else Z.of_N magnitude.

Definition enc_str (s : str) : str := N.of_nat (length s) :: s.

Definition dec_str (s : str) : option (str * str) :=
  match s with
  | [] => None
  | n :: rest =>
      let k := N.to_nat n in
      if k <=? length rest then Some (take k rest, drop k rest) else None
  end.

Definition record_dict (id : Z) (url raw_path text_path : str)
    (raw_size text_size words status : Z) : json :=
  JDict [ (lit "id", JInt id);
          (lit "url", JStr url);
          (lit "raw_path", JStr raw_path);
          (lit "text_path", JStr text_path);
          (lit "raw_size_bytes", JInt raw_size);
          (lit "text_size_bytes", JInt text_size);
          (lit "word_count", JInt words);
          (lit "status_code", JInt status) ].

Definition pack (v : json) : str :=
  match v with
  | JDict [ (_, JInt id); (_, JStr url); (_, JStr raw_path);
            (_, JStr text_path); (_, JInt raw_size); (_, JInt text_size);
            (_, JInt words); (_, JInt status) ] =>
      enc_Z id ++ enc_str url ++ enc_str raw_path ++ enc_str text_path
      ++ enc_Z raw_size ++ enc_Z text_size ++ enc_Z words ++ enc_Z status
  | _ => []
  end.

Definition unpack (codes : str) : option json :=
  match codes with
  | s0 :: m0 :: s1 =>
      '(url, s2) ← dec_str s1;
      '(raw_path, s3) ← dec_str s2;
      '(text_path, s4) ← dec_str s3;
      match s4 with
      | [sa; ma; sb; mb; sc; mc; sd; md] =>
          Some (record_dict (dec_Z s0 m0) url raw_path text_path
                  (dec_Z sa ma) (dec_Z sb mb) (dec_Z sc mc) (dec_Z sd md))
      | _ => None
      end
  | _ => None
  end.

(** Drops the line terminator, if there is one. *)
Definition chomp (line : str) : str :=
  if decide (last line = Some LF) then take (length line - 1) line else line.

Definition dumps (v : json) : str := map (N.add 14) (pack v).

Definition loads (line : str) : option json :=
  unpack (map (fun c => (c - 14)%N) (chomp line)).

#[local] Instance lib : PyLib := {|
  str_lower := lower;
  str_format := fun template n => inr (format template n);
  json_loads := loads;
  json_dumps := dumps;
  soup_get_text := get_text false
|}.

(** Pages to try the classifier on: "рецепт" and 88 spaces (94 characters,
    100 bytes), "рецепт" and 94 spaces (100 characters), "рецепт" and 794
    spaces (800 characters), 1000 times "я" then "a" (1001 characters, 2001
    bytes), and [n] times "a". *)
Definition short_keyword_page : str := kw_recipe ++ repeat 32%N 88.
Definition hundred_keyword_page : str := kw_recipe ++ repeat 32%N 94.
Definition keyword_page : str := kw_recipe ++ repeat 32%N 794.
Definition cyrillic_page : str := repeat 1103%N 1000 ++ [97%N].
Definition plain_page (n : nat) : str := repeat 97%N n.

(** Worlds and networks to run the walk in. *)
Definition fresh_world : world := {| files := ∅; trace := [] |}.

Definition always_failing : Session :=
  {| session_get := fun _ _ => RequestException |}.

Definition always_404 : Session :=
  {| session_get := fun _ _ => Response 404 (lit "not found") |}.

(** The network that answers the request number [n] with the [n]-th of
    [pages], and fails after the last. *)
Definition scripted (pages : list (Z * str)) : Session :=
  {| session_get := fun n _ =>
       match pages !! n with
       | Some (status, text) => Response status text
       | None => RequestException
       end |}.

Definition povarenok : site_cfg :=
  {| pattern := lit "https://www.povarenok.ru/recipes/show/{}/";
     start_id := 20000; step := -1 |}.

Definition target_3 : settings :=
  {| TARGET_PER_SITE := 3;
     MAX_RETRIES := 3;
     BACKOFF_FACTOR := 3 # 2;
     DELAY_BETWEEN_REQUESTS := (4 # 5, 9 # 5) |}.

(** Ten responses, three of which hold a document (the second, the fifth
    and the seventh). *)
Definition ten_pages : list (Z * str) :=
  [ (404%Z, lit "not found");
    (200%Z, keyword_page);
    (200%Z, short_keyword_page);
    (500%Z, keyword_page);
    (200%Z, plain_page 2001);
    (200%Z, []);
    (200%Z, keyword_page);
    (200%Z, short_keyword_page);
    (404%Z, lit "not found");
    (301%Z, keyword_page) ].

(** A ledger whose only line is not a record. *)
Definition corrupt_world : world :=
  {| files := {[ meta_file (lit "povarenok") := Text (lit "garbage" ++ [LF]) ]};
     trace := [] |}.

(** A walk stopped after three turns, and the walk run again on the files
    it left. *)
Definition first_run : outcome * world :=
  collect_for_site target_3 (scripted ten_pages) (lit "povarenok") povarenok
    3 fresh_world.

Definition second_run : outcome * world :=
  collect_for_site target_3 (scripted ten_pages) (lit "povarenok") povarenok
    20 (snd first_run).

Definition two_documents : list document :=
  [ {| doc_id := 20000; doc_url := lit "u1"; doc_raw_path := lit "r1";
       doc_text_path := lit "t1"; doc_raw_size := 900; doc_text_size := 40;
       doc_words := 7; doc_status := 200 |};
    {| doc_id := 19997; doc_url := lit "u2"; doc_raw_path := lit "r2";
       doc_text_path := lit "t2"; doc_raw_size := 1200; doc_text_size := 55;
       doc_words := 9; doc_status := 200 |} ].

End Demo.

(** The sleeps of the rate limiter in a trace. *)
Definition is_throttle (e : event) : bool :=
  match e with ESleepUniform _ _ => true | _ => false end.

Definition throttles (w : world) : nat :=
  length (List.filter is_throttle (trace w)).

(** ** compute_stats *)

(** A number of Python: an [int], or the [float] that a true division gives,
    held as the rational that it is. *)
Inductive number : Type :=
  | NInt (z : Z)
  | NFloat (q : Q).

(** What [compute_stats] can raise: the exceptions of the dict and list
    operations, and the overflow of a true division. *)
Inductive stats_exn : Type :=
  | Inner (e : exn)
  | OverflowError.

Inductive attempt (A : Type) : Type :=
  | Done (a : A)
  | Failed (e : stats_exn).
Arguments Done {A} a.
Arguments Failed {A} e.

Definition attempt_bind {A B} (m : attempt A) (k : A -> attempt B) : attempt B :=
  match m with
  | Done a => k a
  | Failed e => Failed e
  end.

Definition of_result {A} (r : result A) : attempt A :=
  match r with
  | Ok a => Done a
  | Raise e => Failed (Inner e)
  end.

(** The quotients from this size on are rounded to an infinite double. *)
Definition FLOAT_OVERFLOW : Z := 2 ^ 1024 - 2 ^ 970.

(** The integer nearest to [x], the even one of the two when [x] is half way
    between them. *)
Definition round_half_even (x : Q) : Z :=
  let n := Qfloor x in
  match (x - inject_Z n ?= 1 # 2)%Q with
  | Lt => n
  | Gt => (n + 1)%Z
  | Eq => if Z.even n then n else (n + 1)%Z
  end.

(** The exponent [e] with [2 ^ e <= q < 2 ^ (e + 1)], for [q] above 0. *)
Definition binade (q : Q) : Z :=
  let la := Z.log2 (Qnum q) in
  let lb := Z.log2 (Z.pos (Qden q)) in
  if (Qnum q * 2 ^ lb <? Z.pos (Qden q) * 2 ^ la)%Z then (la - lb - 1)%Z
  else (la - lb)%Z.

(** The exponent of the last bit of the floats around [q]: 52 below the
    binade of [q], and -1074 for the subnormal ones. *)
Definition ulp_exponent (q : Q) : Z := Z.max (binade (Qabs q) - 52) (-1074).

(** The float nearest to [q], ties to the even mantissa, for [q] below the
    overflow; as a fraction in lowest terms. *)
Definition round_double (q : Q) : Q :=
  if Qeq_bool q 0 then 0%Q
  else
    let u := ulp_exponent q in
    Qred (inject_Z (round_half_even (q / 2 ^ u)) * 2 ^ u).

(** [a / b] on integers, for [b] above zero: the float nearest to the
    quotient, and OverflowError when that is beyond the largest float. *)
Definition true_div (a b : Z) : attempt number :=
  if (Z.abs a <? FLOAT_OVERFLOW * b)%Z
  then Done (NFloat (round_double (a # Z.to_pos b)))
  else Failed OverflowError.

(** [[m[k] for m in all_meta]] *)
Fixpoint column (k : str) (all_meta : list json) : result (list json) :=
  match all_meta with
  | [] => Ok []
  | m :: rest =>
      match getitem m k with
      | Raise e => Raise e
      | Ok v =>
          match column k rest with
          | Raise e => Raise e
          | Ok vs => Ok (v :: vs)
          end
      end
  end.

(** The integer a value adds to a sum; [True] and [False] add 1 and 0. *)
Definition as_number (v : json) : option Z :=
  match v with
  | JInt z => Some z
  | JBool b => Some (if b then 1 else 0)%Z
  | _ => None
  end.

(** The values of a column as integers, or the [TypeError] of [sum]. *)
Fixpoint numbers (vs : list json) : result (list Z) :=
  match vs with
  | [] => Ok []
  | v :: rest =>
      match as_number v with
      | None => Raise TypeError
      | Some z =>
          match numbers rest with
          | Raise e => Raise e
          | Ok zs => Ok (z :: zs)
          end
      end
  end.

(** [sum(lst)] *)
Definition py_sum (lst : list Z) : Z := fold_left Z.add lst 0%Z.

(** [avg], lines 164-165. *)
Definition avg (lst : list Z) : attempt number :=
  match lst with
  | [] => Done (NInt 0)
  | _ :: _ => true_div (py_sum lst) (Z.of_nat (length lst))
  end.

(** [median], lines 167-176. *)
Definition median (lst : list Z) : attempt number :=
  match lst with
  | [] => Done (NInt 0)
  | _ :: _ =>
      let s := merge_sort Z.le lst in
      let n := length s in
      let mid := n / 2 in
      if n mod 2 =? 1 then Done (NInt (nth mid s 0%Z))
      else true_div (nth (mid - 1) s 0 + nth mid s 0)%Z 2
  end.

Record stats : Type := {
  num_documents : nat;
  total_raw_bytes : Z;
  total_text_bytes : Z;
  total_words : Z;
  avg_raw_bytes : number;
  avg_text_bytes : number;
  avg_words : number;
  median_raw_bytes : number;
  median_text_bytes : number;
  median_words : number
}.

(** Lines 159-190.  The three columns are read first, then the dict is
    built entry by entry: the sums, the averages, the medians. *)
Definition compute_stats (all_meta : list json) : attempt stats :=
  attempt_bind (of_result (column (lit "raw_size_bytes") all_meta)) (fun raw =>
  attempt_bind (of_result (column (lit "text_size_bytes") all_meta)) (fun text =>
  attempt_bind (of_result (column (lit "word_count") all_meta)) (fun words =>
  attempt_bind (of_result (numbers raw)) (fun raw_sizes =>
  attempt_bind (of_result (numbers text)) (fun text_sizes =>
  attempt_bind (of_result (numbers words)) (fun word_counts =>
  attempt_bind (avg raw_sizes) (fun avg_raw =>
  attempt_bind (avg text_sizes) (fun avg_text =>
  attempt_bind (avg word_counts) (fun avg_w =>
  attempt_bind (median raw_sizes) (fun median_raw =>
  attempt_bind (median text_sizes) (fun median_text =>
  attempt_bind (median word_counts) (fun median_w =>
  Done {| num_documents := length all_meta;
          total_raw_bytes := py_sum raw_sizes;
          total_text_bytes := py_sum text_sizes;
          total_words := py_sum word_counts;
          avg_raw_bytes := avg_raw;
          avg_text_bytes := avg_text;
          avg_words := avg_w;
          median_raw_bytes := median_raw;
          median_text_bytes := median_text;
          median_words := median_w |})))))))))))).

(** A line that makes a record: it parses, and the object has an identifier
    that can be hashed. *)
Definition loads_as {lib : PyLib} (line : str) (obj : json) : Prop :=
  json_loads line = Some obj /\ exists k, record_key obj = Ok k.

(** ** More inputs to run the code on *)

Module Cases.

(** The network that fails [failures] times, then answers every request
    with the same response. *)
Definition flaky (failures : nat) (status : Z) (text : str) : Session :=
  {| session_get := fun n _ =>
       if n <? failures then RequestException else Response status text |}.

(** The library of [Demo], with a parser that also reads the lines "{}",
    "[]" and "null". *)
Definition loads (line : str) : option json :=
  if str_eqb (Demo.chomp line) (lit "{}") then Some (JDict [])
  else if str_eqb (Demo.chomp line) (lit "[]") then Some (JList [])
  else if str_eqb (Demo.chomp line) (lit "null") then Some JNull
  else Demo.loads line.

Definition lib : PyLib := {|
  str_lower := Demo.lower;
  str_format := fun template n => inr (Demo.format template n);
  json_loads := loads;
  json_dumps := Demo.dumps;
  soup_get_text := Demo.get_text false
|}.

(** A ledger of two records, as the walker writes it. *)
Definition two_record_text : str :=
  flat_map (fun d => Demo.dumps (to_meta d) ++ [LF]) Demo.two_documents.

Definition sample : document :=
  {| doc_id := 19990; doc_url := lit "u3"; doc_raw_path := lit "r3";
     doc_text_path := lit "t3"; doc_raw_size := 1000; doc_text_size := 60;
     doc_words := 11; doc_status := 200 |}.

Definition ledger_world (text : str) : world :=
  {| files := {[ meta_file (lit "povarenok") := Text text ]}; trace := [] |}.

(** A walk that has reached the identifier 7 with nothing found. *)
Definition walk_at_7 : walk :=
  {| seen_ids := ∅; metadata := []; current_id := 7; attempts := 0 |}.

(** The walk over the ten pages, with fuel to spare, and what it returns. *)
Definition full_run : outcome * world :=
  collect_for_site (lib := Demo.lib) Demo.target_3
    (Demo.scripted Demo.ten_pages) (lit "povarenok") Demo.povarenok 20
    Demo.fresh_world.

Definition returned (run : outcome * world) : list json :=
  match fst run with Returned md => md | _ => [] end.

(** The source constants with a target of one document. *)
Definition target_1 : settings :=
  {| TARGET_PER_SITE := 1;
     MAX_RETRIES := 3;
     BACKOFF_FACTOR := 3 # 2;
     DELAY_BETWEEN_REQUESTS := (4 # 5, 9 # 5) |}.

(** The records a stopped or finished walk holds. *)
Definition found (run : outcome * world) : list json :=
  match fst run with
  | Returned md => md
  | Running st => metadata st
  | Raised _ => []
  end.

(** A page with a lone surrogate, which UTF-8 cannot encode. *)
Definition surrogate_page : str := Demo.keyword_page ++ [55296%N].

End Cases.

(** * Theorems *)

(** ** The demonstration instance obeys the laws *)

Lemma demo_lower_length (s : str) : length s <= length (Demo.lower s).
Proof.
  induction s as [|c s IH]; [done|].
  unfold Demo.lower in *. cbn [flat_map]. rewrite length_app.
  assert (1 <= length (Demo.lower_char c)).
  { unfold Demo.lower_char. repeat case_match; simpl; lia. }
  simpl. lia.
Qed.

Lemma demo_dumps_floor (v : json) (c : N) :
  c ∈ Demo.dumps v -> (14 <= c)%N.
Proof.
  unfold Demo.dumps. intros Hc.
  apply list_elem_of_fmap in Hc as (x & -> & _). lia.
Qed.

Lemma demo_dec_enc_str (s rest : str) :
  Demo.dec_str (Demo.enc_str s ++ rest) = Some (s, rest).
Proof.
  unfold Demo.dec_str, Demo.enc_str. cbn [app].
  rewrite Nat2N.id, length_app.
  destruct (Nat.leb_spec (length s) (length s + length rest)); [|lia].
  by rewrite take_app_length, drop_app_length.
Qed.

Lemma demo_dec_enc_Z (z : Z) :
  Demo.dec_Z (if (z <? 0)%Z then 1%N else 0%N) (Z.to_N (Z.abs z)) = z.
Proof.
  unfold Demo.dec_Z. destruct (Z.ltb_spec z 0); simpl; lia.
Qed.

Lemma demo_chomp_line (s : str) : Demo.chomp (s ++ [LF]) = s.
Proof.
  unfold Demo.chomp. rewrite last_snoc, decide_True by done.
  rewrite length_app. simpl.
  replace (length s + 1 - 1) with (length s) by lia.
  apply take_app_length.
Qed.

Lemma demo_unshift (s : str) : map (fun c => (c - 14)%N) (map (N.add 14) s) = s.
Proof.
  rewrite map_map. rewrite <- (map_id s) at 2.
  apply map_ext. intros c. lia.
Qed.

Lemma demo_laws : PyLibLaws Demo.lib.
Proof.
  split.
  - apply demo_lower_length.
  - intros v Hin. apply demo_dumps_floor in Hin. unfold LF in Hin. lia.
  - intros v Hin. apply demo_dumps_floor in Hin. unfold CR in Hin. lia.
  - intros id url raw_path text_path raw_size text_size words status meta.
    cbn [json_loads json_dumps Demo.lib]. unfold Demo.loads, Demo.dumps.
    rewrite demo_chomp_line, demo_unshift.
    subst meta. unfold mk_meta, Demo.pack, Demo.unpack.
    unfold Demo.enc_Z at 1. cbn [app].
    rewrite demo_dec_enc_str. cbn [mbind option_bind].
    rewrite demo_dec_enc_str. cbn [mbind option_bind].
    rewrite demo_dec_enc_str. cbn [mbind option_bind].
    unfold Demo.enc_Z. cbn [app].
    rewrite !demo_dec_enc_Z. reflexivity.
Qed.

(** ** The classifier *)

Section ClassifierFacts.
Context {lib : PyLib}.

Lemma is_likely_recipe_short (html site_key : str) :
  length html < 800 -> is_likely_recipe html site_key = false.
Proof.
  intros Hlen. unfold is_likely_recipe.
  destruct html as [|c html]; [done|].
  by apply Nat.ltb_lt in Hlen as ->.
Qed.

Lemma is_likely_recipe_keyword (html site_key : str) :
  800 <= length html ->
  site_key = lit "povarenok" \/ site_key = lit "koolinar" ->
  has_keyword (str_lower html) = true ->
  is_likely_recipe html site_key = true.
Proof.
  intros Hlen Hsite Hkw. unfold is_likely_recipe, has_keyword in *.
  destruct html as [|c html]; [simpl in Hlen; lia|].
  apply Nat.ltb_ge in Hlen as ->. cbv zeta.
  destruct Hsite as [-> | ->].
  - by rewrite Hkw.
  - rewrite Hkw. by destruct (str_eqb _ _).
Qed.

Lemma is_likely_recipe_long `{!PyLibLaws lib} (html site_key : str) :
  2000 < length html -> is_likely_recipe html site_key = true.
Proof.
  intros Hlen. unfold is_likely_recipe.
  destruct html as [|c html]; [simpl in Hlen; lia|].
  assert ((length (c :: html) <? 800) = false) as -> by (apply Nat.ltb_ge; lia).
  pose proof (lower_length (c :: html)) as Hlow.
  assert ((2000 <? length (str_lower (c :: html))) = true) as ->
    by (apply Nat.ltb_lt; lia).
  cbv zeta. by repeat case_match.
Qed.

End ClassifierFacts.

Lemma utf8_char_length (c : N) (bs : list N) :
  utf8_char c = Some bs -> 1 <= length bs.
Proof.
  unfold utf8_char. intros H.
  repeat case_match; simplify_eq; simpl; lia.
Qed.

Lemma encode_utf8_length (s : str) (bs : list N) :
  encode_utf8 s = Some bs -> length s <= length bs.
Proof.
  revert bs. induction s as [|c s IH]; intros bs H; simpl in *.
  - simplify_eq. done.
  - destruct (utf8_char c) as [b1|] eqn:Hc; [|done].
    destruct (encode_utf8 s) as [rest|]; [|done]. simplify_eq.
    apply utf8_char_length in Hc. specialize (IH rest eq_refl).
    rewrite length_app. lia.
Qed.

(** C1, as the specification states it, fails: the page made of "рецепт"
    and 88 spaces is 100 bytes long, the one made of "рецепт" and 94 spaces
    is 100 characters long, both hold a keyword, and [is_likely_recipe]
    rejects both for the site "povarenok". *)
Lemma keyword_page_of_100_bytes_is_rejected :
  (utf8_length Demo.short_keyword_page = Some 100
   /\ has_keyword (str_lower (PyLib := Demo.lib) Demo.short_keyword_page) = true
   /\ is_likely_recipe (lib := Demo.lib) Demo.short_keyword_page
        (lit "povarenok") = false)
  /\ (length Demo.hundred_keyword_page = 100
      /\ has_keyword (str_lower (PyLib := Demo.lib) Demo.hundred_keyword_page)
         = true
      /\ is_likely_recipe (lib := Demo.lib) Demo.hundred_keyword_page
           (lit "povarenok") = false).
Proof. vm_compute. done. Qed.

(** C1, amended: the length floor is tested before the keywords.  A page
    shorter than 800 characters is rejected for every site key, whatever it
    holds; from 800 characters on, a page whose lower-cased text holds a
    keyword is accepted for the site keys "povarenok" and "koolinar". *)
Theorem keyword_accepts_only_above_floor {lib : PyLib} (html site_key : str) :
  (length html < 800 -> is_likely_recipe html site_key = false)
  /\ (800 <= length html ->
      site_key = lit "povarenok" \/ site_key = lit "koolinar" ->
      has_keyword (str_lower html) = true ->
      is_likely_recipe html site_key = true).
Proof.
  split.
  - apply is_likely_recipe_short.
  - apply is_likely_recipe_keyword.
Qed.

Lemma keyword_accepts_only_above_floor_witness :
  is_likely_recipe (lib := Demo.lib) Demo.short_keyword_page (lit "povarenok")
    = false
  /\ is_likely_recipe (lib := Demo.lib) Demo.keyword_page (lit "koolinar")
    = true.
Proof.
  split.
  - apply (proj1 (keyword_accepts_only_above_floor (lib := Demo.lib)
                    Demo.short_keyword_page (lit "povarenok"))).
    vm_compute. lia.
  - apply (proj2 (keyword_accepts_only_above_floor (lib := Demo.lib)
                    Demo.keyword_page (lit "koolinar"))).
    + vm_compute. lia.
    + right. reflexivity.
    + vm_compute. reflexivity.
Defined.

(** C8, as the specification states it, fails in its second half: the page
    made of 1000 times "я" and one "a" is 2001 bytes long and holds no
    keyword, yet it has 1001 characters only and is rejected. *)
Lemma page_of_2001_bytes_is_rejected :
  utf8_length Demo.cyrillic_page = Some 2001
  /\ has_keyword (str_lower (PyLib := Demo.lib) Demo.cyrillic_page) = false
  /\ is_likely_recipe (lib := Demo.lib) Demo.cyrillic_page
       (lit "povarenok") = false.
Proof. vm_compute. done. Qed.

(** C8, amended: the thresholds count characters ([len] of the decoded
    page), not bytes, and the fallback counts the characters of the
    lower-cased page.  For every site key, a page of 799 bytes or of 799
    characters is rejected, and a page of 2001 characters is accepted, with
    or without a keyword.  A page without a keyword is rejected when its
    lower-cased form has 2000 characters at most, whatever its number of
    bytes, and accepted when it has 800 characters at least and its
    lower-cased form more than 2000. *)
Theorem length_thresholds {lib : PyLib} {laws : PyLibLaws lib}
    (html site_key : str) :
  (utf8_length html = Some 799 -> is_likely_recipe html site_key = false)
  /\ (length html = 799 -> is_likely_recipe html site_key = false)
  /\ (length html = 2001 -> is_likely_recipe html site_key = true)
  /\ (has_keyword (str_lower html) = false ->
      length (str_lower html) <= 2000 ->
      is_likely_recipe html site_key = false)
  /\ (800 <= length html -> 2000 < length (str_lower html) ->
      is_likely_recipe html site_key = true).
Proof.
  split; [|split; [|split; [|split]]].
  - unfold utf8_length. intros H.
    destruct (encode_utf8 html) as [bs|] eqn:Hbs; simplify_eq/=.
    apply encode_utf8_length in Hbs.
    apply is_likely_recipe_short. lia.
  - intros H. apply is_likely_recipe_short. lia.
  - intros H. apply is_likely_recipe_long. lia.
  - unfold has_keyword, is_likely_recipe. intros -> Hlen.
    destruct html as [|c html]; [done|].
    replace (2000 <? length (str_lower (c :: html))) with false
      by (symmetry; apply Nat.ltb_ge; lia).
    by repeat case_match.
  - unfold is_likely_recipe. intros Hfloor Hlen.
    destruct html as [|c html]; [cbn in Hfloor; lia|].
    replace (length (c :: html) <? 800) with false
      by (symmetry; apply Nat.ltb_ge; lia).
    replace (2000 <? length (str_lower (c :: html))) with true
      by (symmetry; apply Nat.ltb_lt; lia).
    by repeat case_match.
Qed.

Lemma length_thresholds_witness :
  is_likely_recipe (lib := Demo.lib) (Demo.plain_page 799) (lit "koolinar")
    = false
  /\ is_likely_recipe (lib := Demo.lib) (Demo.plain_page 2001) (lit "koolinar")
    = true
  /\ is_likely_recipe (lib := Demo.lib) Demo.cyrillic_page (lit "povarenok")
    = false.
Proof.
  split; [|split].
  - apply (proj1 (length_thresholds (laws := demo_laws)
                    (Demo.plain_page 799) (lit "koolinar"))).
    vm_compute. reflexivity.
  - apply (proj1 (proj2 (proj2 (length_thresholds (laws := demo_laws)
                                  (Demo.plain_page 2001) (lit "koolinar"))))).
    vm_compute. reflexivity.
  - apply (proj1 (proj2 (proj2 (proj2
             (length_thresholds (laws := demo_laws)
                Demo.cyrillic_page (lit "povarenok")))))).
    + vm_compute. reflexivity.
    + vm_compute. lia.
Defined.

(** ** fetch_url *)

Lemma requests_emit (e : event) (w : world) :
  requests (emit e w) = (if is_get e then 1 else 0) + requests w.
Proof.
  unfold requests, emit. cbn [trace].
  rewrite List.filter_app, length_app. cbn [List.filter].
  destruct (is_get e); simpl; lia.
Qed.

Lemma emit_emit_trace (e1 e2 : event) (w : world) :
  trace (emit e2 (emit e1 w)) = trace w ++ [e1; e2].
Proof. unfold emit. cbn [trace]. by rewrite <- app_assoc. Qed.

Section FetcherFacts.
Variable cfg : settings.
Variable session : Session.

(** A response ends the loop at once, at any attempt. *)
Lemma fetch_attempts_response url attempt rest wait w status text :
  session_get session (requests w) url = Response status text ->
  fetch_attempts cfg session url (attempt :: rest) wait w
  = ((Some status, Some text), emit (EGet url) w).
Proof. intros H. cbn [fetch_attempts]. by rewrite H. Qed.

(** A failure on the last attempt gives up; before that it sleeps, stretches
    the wait and goes on. *)
Lemma fetch_attempts_failure url attempt rest wait w :
  session_get session (requests w) url = RequestException ->
  fetch_attempts cfg session url (attempt :: rest) wait w
  = if attempt =? MAX_RETRIES cfg then ((None, None), emit (EGet url) w)
    else fetch_attempts cfg session url rest (wait * BACKOFF_FACTOR cfg)%Q
           (emit (ESleep wait) (emit (EGet url) w)).
Proof. intros H. cbn [fetch_attempts]. by rewrite H. Qed.

(** The file system is out of reach of [fetch_url]. *)
Lemma fetch_attempts_files url todo wait w :
  files (snd (fetch_attempts cfg session url todo wait w)) = files w.
Proof.
  revert wait w. induction todo as [|attempt rest IH]; intros wait w; [done|].
  cbn [fetch_attempts].
  destruct (session_get _ _ _); [|done].
  destruct (attempt =? MAX_RETRIES cfg); [done|].
  by rewrite IH.
Qed.

End FetcherFacts.

Lemma fetch_attempts_give_up (cfg : settings) (session : Session) (url : str)
    (n first : nat) (wait : Q) (w : world) :
  1 <= n ->
  first + n = S (MAX_RETRIES cfg) ->
  (forall k, k < n -> session_get session (requests w + k) url = RequestException) ->
  fetch_attempts cfg session url (seq first n) wait w
  = ((None, None),
     {| files := files w;
        trace := trace w ++ backoff_events url n wait (BACKOFF_FACTOR cfg) |}).
Proof.
  revert first wait w. induction n as [|n IH]; intros first wait w Hn Hlast Hfail;
    [lia|].
  cbn [seq]. rewrite fetch_attempts_failure.
  2:{ rewrite <- (Hfail 0) by lia. f_equal. lia. }
  destruct n as [|n].
  - replace (first =? MAX_RETRIES cfg) with true
      by (symmetry; apply Nat.eqb_eq; lia).
    done.
  - replace (first =? MAX_RETRIES cfg) with false
      by (symmetry; apply Nat.eqb_neq; lia).
    rewrite IH; [|lia|lia|].
    + cbn [files trace emit backoff_events]. f_equal. f_equal.
      by rewrite <- !app_assoc.
    + intros k Hk. rewrite !requests_emit. cbn [is_get].
      rewrite <- (Hfail (S k)) by lia. f_equal. lia.
Qed.

Lemma sleeps_backoff_events (url : str) (n : nat) (wait factor : Q) :
  sleeps (backoff_events url (S (S n)) wait factor)
  = wait :: sleeps (backoff_events url (S n) (wait * factor)%Q factor).
Proof. reflexivity. Qed.

Lemma backoff_waits_increasing (url : str) (n : nat) (wait factor : Q) :
  (0 < wait)%Q -> (1 < factor)%Q ->
  increasing (sleeps (backoff_events url n wait factor)).
Proof.
  intros Hwait Hfactor. revert wait Hwait.
  destruct n as [|n]; [done|].
  induction n as [|n IH]; intros wait Hwait; [done|].
  rewrite sleeps_backoff_events.
  assert (0 < wait * factor)%Q as Hpos by nra.
  specialize (IH _ Hpos).
  destruct n as [|n]; [done|].
  rewrite sleeps_backoff_events in *.
  split; [nra|done].
Qed.

Lemma backoff_events_requests (url : str) (n : nat) (wait factor : Q) :
  length (List.filter is_get (backoff_events url n wait factor)) = n.
Proof.
  revert wait. induction n as [|n IH]; intros wait; [done|].
  cbn [backoff_events List.filter is_get length]. destruct n as [|n]; [done|].
  cbn [List.filter is_get]. by rewrite IH.
Qed.

Lemma backoff_events_sleeps (url : str) (n : nat) (wait factor : Q) :
  length (sleeps (backoff_events url n wait factor)) = n - 1.
Proof.
  revert wait. destruct n as [|n]; [done|].
  induction n as [|n IH]; intros wait; [done|].
  rewrite sleeps_backoff_events. cbn [length]. rewrite IH. lia.
Qed.

Lemma sleeps_backoff_waits (url : str) (n : nat) (wait factor : Q) :
  sleeps (backoff_events url n wait factor) = backoff_waits (n - 1) wait factor.
Proof.
  revert wait. destruct n as [|n]; [done|].
  induction n as [|n IH]; intros wait; [done|].
  rewrite sleeps_backoff_events, IH. cbn [Nat.sub backoff_waits].
  by rewrite Nat.sub_0_r.
Qed.

Lemma backoff_waits_fewer (P : Q -> Prop) (k n : nat) (wait factor : Q) :
  k <= n ->
  Forall P (backoff_waits n wait factor) ->
  Forall P (backoff_waits k wait factor).
Proof.
  revert n wait. induction k as [|k IH]; intros n wait Hle Hall; [by constructor|].
  destruct n as [|n]; [lia|]. cbn [backoff_waits] in *.
  apply Forall_cons in Hall as [Hhd Htl].
  constructor; [done|]. apply (IH n); [lia|done].
Qed.

(** X1: a URL that always fails, for any retry ceiling of at least 1 and
    any backoff factor above 1 whose waits are floats that [time.sleep]
    takes: it costs exactly the ceiling in requests, gets (None, None), and
    the waits between the requests are 1, the factor, its square and so on,
    each of them slept and each longer than the one before. *)
Lemma fetch_url_backoff (cfg : settings) (session : Session) (url : str)
    (w : world) :
  1 <= MAX_RETRIES cfg ->
  (1 < BACKOFF_FACTOR cfg)%Q ->
  exact_backoff (BACKOFF_FACTOR cfg) (MAX_RETRIES cfg - 1) ->
  (forall k, k < MAX_RETRIES cfg ->
             session_get session (requests w + k) url = RequestException) ->
  exists t : list event,
    fetch_url cfg session url w
    = ((None, None), {| files := files w; trace := trace w ++ t |})
    /\ length (List.filter is_get t) = MAX_RETRIES cfg
    /\ length (sleeps t) = MAX_RETRIES cfg - 1
    /\ sleeps t = backoff_waits (MAX_RETRIES cfg - 1) 1 (BACKOFF_FACTOR cfg)
    /\ Forall sleepable (sleeps t)
    /\ increasing (sleeps t).
Proof.
  intros Hn Hfactor [_ Hexact] Hfail.
  exists (backoff_events url (MAX_RETRIES cfg) 1 (BACKOFF_FACTOR cfg)).
  split; [|split; [|split; [|split; [|split]]]].
  - unfold fetch_url. apply fetch_attempts_give_up; [done|lia|done].
  - apply backoff_events_requests.
  - apply backoff_events_sleeps.
  - apply sleeps_backoff_waits.
  - by rewrite sleeps_backoff_waits.
  - apply backoff_waits_increasing; [reflexivity|done].
Qed.

(** C4: when every attempt raises, [fetch_url] sends exactly MAX_RETRIES = 3
    requests, sleeps 1 then 1.5 seconds between them (the wait starts at 1
    and is multiplied by BACKOFF_FACTOR = 1.5 > 1, so the second wait is the
    longer), and returns (None, None); nothing is raised and no file is
    touched. *)
Theorem fetch_url_exhausts_retries (session : Session) (url : str) (w : world) :
  (forall k, k < MAX_RETRIES source_settings ->
             session_get session (requests w + k) url = RequestException) ->
  fetch_url source_settings session url w
  = ((None, None),
     {| files := files w;
        trace := trace w ++ [EGet url; ESleep 1; EGet url; ESleep (3 # 2);
                             EGet url] |})
  /\ (1 < BACKOFF_FACTOR source_settings)%Q
  /\ (1 < 3 # 2)%Q.
Proof.
  intros Hfail. split; [|split; reflexivity].
  pose proof (Hfail 0 ltac:(simpl; lia)) as H0.
  pose proof (Hfail 1 ltac:(simpl; lia)) as H1.
  pose proof (Hfail 2 ltac:(simpl; lia)) as H2.
  rewrite Nat.add_0_r in H0.
  unfold fetch_url. cbn [MAX_RETRIES source_settings seq].
  rewrite fetch_attempts_failure by done. cbn [Nat.eqb MAX_RETRIES source_settings].
  rewrite fetch_attempts_failure
    by (rewrite !requests_emit; cbn [is_get]; rewrite <- H1; f_equal; lia).
  cbn [Nat.eqb MAX_RETRIES source_settings].
  rewrite fetch_attempts_failure
    by (rewrite !requests_emit; cbn [is_get]; rewrite <- H2; f_equal; lia).
  cbn [Nat.eqb MAX_RETRIES source_settings].
  unfold emit. cbn [files trace]. f_equal. f_equal.
  by rewrite <- !app_assoc.
Qed.

Lemma fetch_url_exhausts_retries_witness :
  fst (fetch_url source_settings Demo.always_failing (lit "http://x/1") Demo.fresh_world)
  = (None, None).
Proof.
  rewrite (proj1 (fetch_url_exhausts_retries Demo.always_failing (lit "http://x/1")
                    Demo.fresh_world (fun _ _ => eq_refl))).
  reflexivity.
Defined.

(** C7: a response is returned as it is, status and body, whatever the
    status (so for every status outside 200-299 too): the request that got it
    is the last one, and no sleep follows.  Answered at once, [fetch_url]
    sends that single request. *)
Theorem fetch_url_returns_any_status (cfg : settings) (session : Session)
    (url : str) (w : world) (status : Z) (text : str) :
  session_get session (requests w) url = Response status text ->
  (forall attempt rest wait,
     fetch_attempts cfg session url (attempt :: rest) wait w
     = ((Some status, Some text), emit (EGet url) w))
  /\ (1 <= MAX_RETRIES cfg ->
      fetch_url cfg session url w
      = ((Some status, Some text), emit (EGet url) w)).
Proof.
  intros H. split.
  - intros. by apply fetch_attempts_response.
  - intros Hn. unfold fetch_url.
    destruct (MAX_RETRIES cfg) as [|n]; [lia|].
    cbn [seq]. by apply fetch_attempts_response.
Qed.

Lemma fetch_url_returns_any_status_witness :
  fetch_url source_settings Demo.always_404 (lit "http://x/1") Demo.fresh_world
  = ((Some 404%Z, Some (lit "not found")),
     emit (EGet (lit "http://x/1")) Demo.fresh_world).
Proof.
  apply (proj2 (fetch_url_returns_any_status source_settings Demo.always_404
                  (lit "http://x/1") Demo.fresh_world 404 (lit "not found")
                  eq_refl)).
  simpl. lia.
Defined.

(** ** The ledger file *)

Lemma universal_newlines_clean (s : str) :
  CR ∉ s -> universal_newlines false s = s.
Proof.
  induction s as [|c s IH]; intros Hcr; [done|].
  apply not_elem_of_cons in Hcr as [Hc Hs]. cbn [universal_newlines].
  destruct (N.eqb_spec c CR) as [->|_]; [done|].
  rewrite andb_false_r. by rewrite IH.
Qed.

Lemma universal_newlines_app (a s : str) (after_cr : bool) :
  last a ≠ Some CR -> (a = [] -> after_cr = false) ->
  universal_newlines after_cr (a ++ s)
  = universal_newlines after_cr a ++ universal_newlines false s.
Proof.
  revert after_cr. induction a as [|c a IH]; intros after_cr Hlast Hnil.
  - by rewrite Hnil.
  - assert (last a ≠ Some CR /\ (a = [] -> c ≠ CR)) as [Ha Hc].
    { destruct a as [|d a]; [split; [done|]|split; [done|done]].
      intros _ ->. by apply Hlast. }
    cbn [app universal_newlines].
    destruct (N.eqb_spec c CR) as [->|_].
    + rewrite IH; [done|done|]. intros ->. by destruct Hc.
    + destruct ((c =? LF)%N && after_cr); by rewrite IH.
Qed.

Lemma universal_newlines_last (s : str) (after_cr : bool) :
  last s = Some LF ->
  last (universal_newlines after_cr s) = Some LF
  \/ (after_cr = true /\ universal_newlines after_cr s = []).
Proof.
  revert after_cr. induction s as [|c s IH]; intros after_cr Hlast; [done|].
  destruct s as [|d s].
  - simplify_eq/=. destruct after_cr; [by right|by left].
  - rewrite last_cons_cons in Hlast.
    cbn [universal_newlines]. cbn [universal_newlines] in IH.
    destruct (N.eqb_spec c CR) as [->|_].
    + left. destruct (IH true Hlast) as [H|[_ H]].
      * revert H. generalize (if (d =? CR)%N then LF :: universal_newlines true s
          else if (d =? LF)%N && true then universal_newlines false s
          else d :: universal_newlines false s).
        intros l H. destruct l; [done|]. by rewrite last_cons_cons.
      * by rewrite H.
    + destruct ((c =? LF)%N && after_cr).
      * destruct (IH false Hlast) as [H|[? _]]; [by left|done].
      * left. destruct (IH false Hlast) as [H|[? _]]; [|done].
        revert H. generalize (if (d =? CR)%N then LF :: universal_newlines true s
          else if (d =? LF)%N && false then universal_newlines false s
          else d :: universal_newlines false s).
        intros l H. destruct l; [done|]. by rewrite last_cons_cons.
Qed.

Lemma lines_nil (s : str) : lines s = [] -> s = [].
Proof.
  destruct s as [|c s]; [done|]. cbn [lines].
  destruct (c =? LF)%N; [done|]. by destruct (lines s).
Qed.

Lemma lines_app (a b : str) :
  terminated a -> lines (a ++ b) = lines a ++ lines b.
Proof.
  induction a as [|c a IH]; intros Hterm; [done|].
  destruct Hterm as [?|Hlast]; [done|].
  cbn [app lines].
  destruct (N.eqb_spec c LF) as [->|Hc].
  - rewrite IH; [done|]. destruct a; [by left|right].
    by rewrite last_cons_cons in Hlast.
  - destruct a as [|d a]; [by simplify_eq/=|].
    rewrite last_cons_cons in Hlast. rewrite IH by by right.
    destruct (lines (d :: a)) eqn:Hl; [by apply lines_nil in Hl|done].
Qed.

Lemma lines_one (l : str) : LF ∉ l -> lines (l ++ [LF]) = [l ++ [LF]].
Proof.
  induction l as [|c l IH]; intros Hlf; [done|].
  apply not_elem_of_cons in Hlf as [Hc Hl]. cbn [app lines].
  destruct (N.eqb_spec c LF) as [->|_]; [done|]. by rewrite IH.
Qed.

Lemma read_lines_append (s line : str) :
  terminated s -> CR ∉ line -> LF ∉ line ->
  read_lines (s ++ line ++ [LF]) = read_lines s ++ [line ++ [LF]]
  /\ terminated (s ++ line ++ [LF]).
Proof.
  intros Hterm Hcr Hlf. split.
  - unfold read_lines.
    assert (CR ∉ line ++ [LF]) as Hclean.
    { rewrite not_elem_of_app, list_elem_of_singleton. done. }
    rewrite universal_newlines_app.
    + rewrite (universal_newlines_clean _ Hclean).
      rewrite lines_app, lines_one; [done|done|].
      destruct Hterm as [->|Hlast]; [by left|].
      destruct (universal_newlines_last s false Hlast) as [H|[? _]];
        [by right|done].
    + destruct Hterm as [-> | ->]; done.
    + done.
  - right. by rewrite app_assoc, last_snoc.
Qed.

Section LedgerFacts.
Context {lib : PyLib} {laws : PyLibLaws lib}.
Variable site_key : str.

Lemma load_lines_app (ls1 ls2 : list str) (seen : gset key) (md : list json) :
  load_lines (ls1 ++ ls2) seen md
  = match load_lines ls1 seen md with
    | Ok (seen', md') => load_lines ls2 seen' md'
    | Raise e => Raise e
    end.
Proof.
  revert seen md. induction ls1 as [|line ls1 IH]; intros seen md; [done|].
  cbn [app load_lines].
  destruct (json_loads line) as [obj|]; [|done].
  by destruct (record_key obj).
Qed.

Lemma record_key_to_meta (d : document) :
  record_key (to_meta d) = Ok (KInt (doc_id d)).
Proof. reflexivity. Qed.

Lemma load_lines_record ls seen md seen' md' (d : document) :
  load_lines ls seen md = Ok (seen', md') ->
  load_lines (ls ++ [json_dumps (to_meta d) ++ [LF]]) seen md
  = Ok ({[KInt (doc_id d)]} ∪ seen', md' ++ [to_meta d]).
Proof.
  intros Hload. rewrite load_lines_app, Hload. cbn [load_lines].
  unfold to_meta at 1 2. rewrite loads_dumps. fold (to_meta d).
  by rewrite record_key_to_meta.
Qed.

Lemma load_lines_malformed ls seen md line :
  line ∈ ls -> json_loads line = None ->
  exists e, load_lines ls seen md = Raise e.
Proof.
  intros Hin Hbad. revert seen md.
  induction ls as [|line' ls IH]; intros seen md; [by apply elem_of_nil in Hin|].
  cbn [load_lines]. apply elem_of_cons in Hin as [<-|Hin].
  - rewrite Hbad. by eexists.
  - destruct (json_loads line') as [obj|]; [|by eexists].
    destruct (record_key obj); [by apply IH|by eexists].
Qed.

Lemma load_ledger_holds (w : world) seen md :
  ledger_holds site_key w seen md ->
  load_ledger site_key w = (Ok (seen, md), w).
Proof.
  unfold load_ledger. intros [(-> & -> & ->)|(s & -> & _ & ->)]; done.
Qed.

Lemma append_ledger_holds (w w' : world) seen md (d : document) :
  ledger_holds site_key w seen md ->
  append_ledger site_key (to_meta d) w = (Ok tt, w') ->
  ledger_holds site_key w' ({[KInt (doc_id d)]} ∪ seen) (md ++ [to_meta d])
  /\ trace w' = trace w
  /\ forall path, path ≠ meta_file site_key -> files w' !! path = files w !! path.
Proof.
  intros Hold. unfold append_ledger, append_text_file.
  destruct (encode_utf8 _); [|done].
  assert (exists s, default (Text []) (files w !! meta_file site_key) = Text s
                    /\ terminated s
                    /\ load_lines (read_lines s) ∅ [] = Ok (seen, md))
    as (s & -> & Hterm & Hload).
  { destruct Hold as [(-> & -> & ->)|(s & -> & ? & ?)].
    - exists []. split; [done|]. split; [by left|done].
    - by exists s. }
  intros [= <-].
  destruct (read_lines_append s (json_dumps (to_meta d)) Hterm
              (dumps_no_CR _) (dumps_no_LF _)) as [Hlines Hterm'].
  split; [|split].
  - right. eexists. split; [apply lookup_insert_eq|]. split; [done|].
    rewrite Hlines. by apply load_lines_record.
  - done.
  - intros path Hpath. cbn. by rewrite lookup_insert_ne.
Qed.

Lemma append_all_holds (docs : list document) (w w' : world) seen md :
  ledger_holds site_key w seen md ->
  append_all site_key (to_meta <$> docs) w = (Ok tt, w') ->
  ledger_holds site_key w'
    (list_to_set ((fun d => KInt (doc_id d)) <$> docs) ∪ seen)
    (md ++ (to_meta <$> docs)).
Proof.
  revert w seen md. induction docs as [|d docs IH]; intros w seen md Hold.
  - intros [= <-]. cbn. rewrite app_nil_r.
    by replace (∅ ∪ seen) with seen by set_solver.
  - cbn [fmap list_fmap append_all]. unfold io_bind.
    destruct (append_ledger site_key (to_meta d) w) as [[[]|e] w1] eqn:Happ;
      [|done].
    intros Hrest.
    destruct (append_ledger_holds _ _ _ _ _ Hold Happ) as (H1 & _ & _).
    specialize (IH _ _ _ H1 Hrest).
    cbn [list_to_set foldr].
    replace ({[KInt (doc_id d)]}
             ∪ list_to_set ((fun d => KInt (doc_id d)) <$> docs) ∪ seen)
      with (list_to_set ((fun d => KInt (doc_id d)) <$> docs)
            ∪ ({[KInt (doc_id d)]} ∪ seen)) by set_solver.
    by rewrite <- app_assoc in IH.
Qed.

End LedgerFacts.

(** C3: the ledger round trip.  Loading a ledger that does not exist gives the
    empty state; after the records of [docs] were appended with success to
    such a ledger, loading gives back exactly these records, in order, and
    the set of their identifiers, which has as many members as there are
    records when the identifiers are distinct. *)
Theorem ledger_round_trip {lib : PyLib} {laws : PyLibLaws lib}
    (site_key : str) (docs : list document) (w w' : world) :
  files w !! meta_file site_key = None ->
  append_all site_key (to_meta <$> docs) w = (Ok tt, w') ->
  load_ledger site_key w = (Ok (∅, []), w)
  /\ (let seen : gset key := list_to_set ((fun d => KInt (doc_id d)) <$> docs) in
      load_ledger site_key w' = (Ok (seen, to_meta <$> docs), w')
      /\ (forall id, KInt id ∈ seen <-> id ∈ doc_id <$> docs)
      /\ (NoDup (doc_id <$> docs) -> size seen = length docs)).
Proof.
  intros Hnone Happ.
  assert (ledger_holds site_key w ∅ []) as Hold by (by left).
  split; [by apply load_ledger_holds|].
  intros seen. split; [|split].
  - apply load_ledger_holds.
    pose proof (append_all_holds site_key docs w w' ∅ [] Hold Happ) as H.
    by replace (list_to_set ((fun d => KInt (doc_id d)) <$> docs) ∪ ∅)
      with seen in H by set_solver.
  - intros id. subst seen. rewrite elem_of_list_to_set, !list_elem_of_fmap.
    split.
    + intros (d & [= ->] & Hd). eauto.
    + intros (d & -> & Hd). eauto.
  - intros Hnodup. subst seen. rewrite size_list_to_set.
    + by rewrite length_fmap.
    + rewrite (list_fmap_compose doc_id KInt).
      apply NoDup_fmap_2; [|done]. by intros ?? [=].
Qed.

(** ** The walk *)

Section WalkerFacts.
Context {lib : PyLib} {laws : PyLibLaws lib}.
Variable cfg : settings.
Variable session : Session.
Variable site_key : str.
Variable site : site_cfg.

Lemma raw_path_not_ledger (name : str) :
  path_join (raw_dir site_key) name ≠ meta_file site_key.
Proof.
  unfold meta_file, raw_dir, path_join. rewrite <- !app_assoc.
  intros H. apply app_inv_head in H. cbn in H. discriminate.
Qed.

Lemma text_path_not_ledger (name : str) :
  path_join (text_dir site_key) name ≠ meta_file site_key.
Proof.
  unfold meta_file, text_dir, path_join. rewrite <- !app_assoc.
  intros H. apply app_inv_head in H. cbn in H. discriminate.
Qed.

Lemma text_path_not_raw_path (name name' : str) :
  path_join (text_dir site_key) name ≠ path_join (raw_dir site_key) name'.
Proof.
  unfold raw_dir, text_dir, path_join. rewrite <- !app_assoc.
  intros H. apply app_inv_head in H. cbn in H. discriminate.
Qed.

(** The ledger is read off the files alone. *)
Lemma ledger_holds_files (w w' : world) seen md :
  files w' !! meta_file site_key = files w !! meta_file site_key ->
  ledger_holds site_key w seen md -> ledger_holds site_key w' seen md.
Proof. unfold ledger_holds. by intros ->. Qed.

Lemma ledger_holds_write (path : str) (c : content) (w : world) seen md :
  path ≠ meta_file site_key ->
  ledger_holds site_key w seen md ->
  ledger_holds site_key (write_file path c w) seen md.
Proof.
  intros Hpath. apply ledger_holds_files. cbn [files write_file].
  by rewrite lookup_insert_ne.
Qed.

Lemma append_ledger_trace (meta : json) (w w' : world) (r : result unit) :
  append_ledger site_key meta w = (r, w') -> trace w' = trace w.
Proof.
  unfold append_ledger, append_text_file.
  destruct (encode_utf8 _); [destruct (default _ _)|]; by intros [= _ <-].
Qed.

Lemma append_ledger_raises (w w' : world) seen md meta e :
  ledger_holds site_key w seen md ->
  append_ledger site_key meta w = (Raise e, w') ->
  ledger_holds site_key w' seen md /\ trace w' = trace w.
Proof.
  intros Hold. unfold append_ledger, append_text_file.
  destruct (encode_utf8 _).
  { by destruct (default _ _). }
  intros [= _ <-]. split; [|done].
  destruct Hold as [(Hnone & -> & ->)|(s & Hs & ? & ?)].
  - right. exists []. cbn [files write_file].
    rewrite lookup_insert_eq, Hnone.
    split; [done|]. split; [by left|done].
  - right. exists s. cbn [files write_file].
    rewrite lookup_insert_eq, Hs. done.
Qed.

Lemma st_size_bytes (path : str) (data : list N) (w : world) :
  files w !! path = Some (Bytes data) -> st_size path w = (Ok (length data), w).
Proof. unfold st_size. by intros ->. Qed.

Lemma st_size_text (path s : str) (w : world) :
  files w !! path = Some (Text s) ->
  st_size path w = (Ok (length (default [] (encode_utf8 s))), w).
Proof. unfold st_size. by intros ->. Qed.

Lemma requests_throttled (n : Z) (found : nat) (w : world) :
  requests (throttled cfg n found w) = requests w.
Proof.
  unfold throttled. destruct (_ && _); by rewrite !requests_emit.
Qed.

Lemma files_throttled (n : Z) (found : nat) (w : world) :
  files (throttled cfg n found w) = files w.
Proof. unfold throttled. by destruct (_ && _). Qed.

(** What [persist] does: it writes the page, its text and its ledger line, or
    it raises when one of them cannot be encoded; the ledger changes by the
    new line only, and no event is logged. *)
Lemma persist_run (st : walk) (url body : str) (status : Z) (w : world) :
  let d := page_document site_key (current_id st) url body status in
  exists r w',
    persist site_key st url body status w = (r, w')
    /\ trace w' = trace w
    /\ match r with
       | Ok st' =>
           st' = {| seen_ids := {[KInt (current_id st)]} ∪ seen_ids st;
                    metadata := metadata st ++ [to_meta d];
                    current_id := current_id st;
                    attempts := attempts st |}
           /\ forall seen md,
               ledger_holds site_key w seen md ->
               ledger_holds site_key w'
                 ({[KInt (current_id st)]} ∪ seen) (md ++ [to_meta d])
       | Raise _ =>
           writable site_key (current_id st) url body status = false
           /\ forall seen md,
               ledger_holds site_key w seen md ->
               ledger_holds site_key w' seen md
       end.
Proof.
  intros d. unfold persist, writable, encodable.
  destruct (encode_utf8 body) as [data|] eqn:Hbody.
  2:{ exists (Raise UnicodeEncodeError), w. by repeat split. }
  unfold io_bind, save_file, io_do, save_text_file.
  set (raw_path := path_join (raw_dir site_key) _).
  set (text_path := path_join (text_dir site_key) _).
  destruct (encode_utf8 (extract_text_from_html body)) as [tb|] eqn:Htext.
  2:{ eexists _, _. split; [done|]. split; [done|]. split; [done|].
      intros seen md Hold.
      apply ledger_holds_write; [apply text_path_not_ledger|].
      by apply ledger_holds_write; [apply raw_path_not_ledger|]. }
  set (w1 := write_file text_path _ (write_file raw_path _ w)).
  rewrite (st_size_bytes raw_path data w1), (st_size_text text_path (extract_text_from_html body) w1).
  2:{ subst w1. cbn [files write_file]. apply lookup_insert_eq. }
  2:{ subst w1. cbn [files write_file].
      rewrite lookup_insert_ne by apply text_path_not_raw_path.
      apply lookup_insert_eq. }
  cbv beta iota zeta. rewrite Htext.
  change (default [] (Some tb)) with tb.
  assert (mk_meta (current_id st) url raw_path text_path (length data)
            (length tb) (count_words false (extract_text_from_html body))
            status = to_meta d) as ->.
  { subst d. unfold to_meta, page_document. cbn. by rewrite Hbody, Htext. }
  assert (forall seen md, ledger_holds site_key w seen md ->
                          ledger_holds site_key w1 seen md) as Hw1.
  { intros seen md Hold. subst w1.
    apply ledger_holds_write; [apply text_path_not_ledger|].
    by apply ledger_holds_write; [apply raw_path_not_ledger|]. }
  destruct (append_ledger site_key (to_meta d) w1) as [[[]|e] w2] eqn:Happ.
  - eexists _, _. split; [done|]. split; [|split; [done|]].
    + by rewrite (append_ledger_trace _ _ _ _ Happ).
    + intros seen md Hold.
      by destruct (append_ledger_holds _ _ _ _ _ d (Hw1 _ _ Hold) Happ).
  - eexists _, _. split; [done|]. split; [|split].
    + by rewrite (append_ledger_trace _ _ _ _ Happ).
    + unfold append_ledger, append_text_file in Happ. fold d.
      destruct (encode_utf8 (json_dumps (to_meta d) ++ [LF]));
        [by destruct (default _ _)|done].
    + intros seen md Hold.
      by destruct (append_ledger_raises _ _ _ _ _ _ (Hw1 _ _ Hold) Happ).
Qed.


(** One turn of the loop, case by case. *)
Lemma loop_body_step (st : walk) (w : world) :
  match str_format (pattern site) (current_id st) with
  | inl e => loop_body cfg session site_key site st w = (Raise e, w)
  | inr url =>
      if decide (KInt (current_id st) ∈ seen_ids st) then
        loop_body cfg session site_key site st w
        = (Ok {| seen_ids := seen_ids st;
                 metadata := metadata st;
                 current_id := current_id st + step site;
                 attempts := attempts st |}, w)
      else
        let r := fetch_url cfg session url w in
        match accepted site_key (fst (fst r)) (snd (fst r)) with
        | None =>
            loop_body cfg session site_key site st w
            = (Ok {| seen_ids := seen_ids st;
                     metadata := metadata st;
                     current_id := current_id st + step site;
                     attempts := attempts st + 1 |},
               throttled cfg (attempts st + 1) (size (seen_ids st)) (snd r))
        | Some (status, body) =>
            match persist site_key st url body status (snd r) with
            | (Ok st1, w1) =>
                loop_body cfg session site_key site st w
                = (Ok {| seen_ids := seen_ids st1;
                         metadata := metadata st1;
                         current_id := current_id st + step site;
                         attempts := attempts st + 1 |},
                   throttled cfg (attempts st + 1) (size (seen_ids st1)) w1)
            | (Raise e, w1) =>
                loop_body cfg session site_key site st w = (Raise e, w1)
            end
        end
  end.
Proof.
  unfold loop_body.
  destruct (str_format _ _) as [e|url]; [done|].
  destruct (decide _); [done|].
  unfold io_bind, io_do, io_ret, throttled. cbv beta zeta.
  destruct (fetch_url cfg session url w) as [[status body] w0].
  cbn [fst snd].
  destruct (accepted site_key status body) as [[s b]|].
  - destruct (persist site_key st url b s w0) as [[st1|e] w1]; [|done].
    by destruct (_ && _).
  - by destruct (_ && _).
Qed.

(** A turn never puts an identifier twice in the ledger: either the walk
    keeps its records, or it gains the record of the current identifier,
    which was not seen before. *)
Lemma loop_body_ledger (st : walk) (w w' : world) (r : result walk) :
  loop_body cfg session site_key site st w = (r, w') ->
  ledger_holds site_key w (seen_ids st) (metadata st) ->
  match r with
  | Ok st' =>
      ledger_holds site_key w' (seen_ids st') (metadata st')
      /\ ((seen_ids st' = seen_ids st /\ metadata st' = metadata st)
          \/ exists d, (KInt (doc_id d) ∉ seen_ids st)
                       /\ seen_ids st' = {[KInt (doc_id d)]} ∪ seen_ids st
                       /\ metadata st' = metadata st ++ [to_meta d])
  | Raise _ => ledger_holds site_key w' (seen_ids st) (metadata st)
  end.
Proof.
  intros Hbody Hold. pose proof (loop_body_step st w) as Hstep.
  destruct (str_format _ _) as [e|url].
  { rewrite Hbody in Hstep. by simplify_eq. }
  destruct (decide _) as [|Hnew].
  { rewrite Hbody in Hstep. simplify_eq. cbn. auto. }
  cbv zeta in Hstep.
  pose proof (fetch_attempts_files cfg session url
                (seq 1 (MAX_RETRIES cfg)) 1%Q w) as Hfiles.
  fold (fetch_url cfg session url w) in Hfiles.
  destruct (fetch_url cfg session url w) as [[status body] w0].
  cbn [fst snd] in *.
  assert (ledger_holds site_key w0 (seen_ids st) (metadata st)) as Hold0.
  { revert Hold. apply ledger_holds_files. by rewrite Hfiles. }
  destruct (accepted site_key status body) as [[s b]|].
  - destruct (persist_run st url b s w0) as (r1 & w1 & Hp & _ & Hr1).
    rewrite Hp in Hstep. destruct r1 as [st1|e].
    + rewrite Hbody in Hstep. destruct Hr1 as [-> Hled].
      simplify_eq. cbn [seen_ids metadata]. split.
      * eapply ledger_holds_files; [|by apply Hled].
        by rewrite files_throttled.
      * right. by exists (page_document site_key (current_id st) url b s).
    + rewrite Hbody in Hstep. simplify_eq. destruct Hr1 as [_ Hled]. auto.
  - rewrite Hbody in Hstep. simplify_eq. cbn [seen_ids metadata]. split.
    + eapply ledger_holds_files; [|done]. by rewrite files_throttled.
    + by left.
Qed.

Lemma walk_added_nil (st : walk) (w' : world) (o : outcome) :
  ledger_holds site_key w' (seen_ids st) (metadata st) ->
  match o with
  | Returned md => md = metadata st
  | Running st' => st' = st
  | Raised _ => True
  end ->
  walk_added cfg site_key st w' o [].
Proof.
  intros Hold Ho. unfold walk_added.
  cbn [fmap list_fmap list_to_set length].
  rewrite app_nil_r, union_empty_l_L, Nat.add_0_r.
  split; [done|]. split; [apply NoDup_nil_2|].
  split; [by intros ? ?%elem_of_nil|]. split; [lia|].
  destruct o; simplify_eq; rewrite ?union_empty_l_L, ?app_nil_r; auto.
Qed.

(** However a walk ends, it has added records with distinct identifiers,
    none of which was seen at the start, and no more of them than the target
    leaves room for. *)
Lemma while_loop_ledger (fuel : nat) (st : walk) (w w' : world) (o : outcome) :
  while_loop cfg session site_key site fuel st w = (o, w') ->
  ledger_holds site_key w (seen_ids st) (metadata st) ->
  exists docs : list document, walk_added cfg site_key st w' o docs.
Proof.
  revert st w. induction fuel as [|fuel IH]; intros st w Hrun Hold.
  - exists []. cbn in Hrun.
    destruct (_ <? _)%Z; simplify_eq; by apply walk_added_nil.
  - cbn [while_loop] in Hrun.
    destruct (Z.ltb_spec (Z.of_nat (size (seen_ids st))) (TARGET_PER_SITE cfg))
      as [Hroom|Hfull].
    2:{ exists []. simplify_eq. by apply walk_added_nil. }
    destruct (loop_body cfg session site_key site st w) as [[st1|e] w1] eqn:Hbody.
    2:{ exists []. pose proof (loop_body_ledger _ _ _ _ Hbody Hold) as H.
        simplify_eq. by apply walk_added_nil. }
    destruct (loop_body_ledger _ _ _ _ Hbody Hold) as [Hold1 Hcase].
    destruct (IH _ _ Hrun Hold1) as (docs & Hled & Hnodup & Hnew & Hsize & Ho).
    destruct Hcase as [[Hseen Hmd]|(d & Hd & Hseen & Hmd)].
    + exists docs. unfold walk_added. rewrite Hseen, Hmd in *. done.
    + exists (d :: docs). unfold walk_added.
      cbn [fmap list_fmap list_to_set length].
      rewrite Hseen, Hmd in *.
      assert (list_to_set ((fun d => KInt (doc_id d)) <$> docs)
                ∪ ({[KInt (doc_id d)]} ∪ seen_ids st)
              = {[KInt (doc_id d)]}
                ∪ list_to_set ((fun d => KInt (doc_id d)) <$> docs)
                ∪ seen_ids st) as Heq by set_solver.
      rewrite Heq in *. rewrite <- app_assoc in *. cbn [app] in *.
      assert (size ({[KInt (doc_id d)]} ∪ seen_ids st) = S (size (seen_ids st)))
        as Hs.
      { rewrite size_union by set_solver. by rewrite size_singleton. }
      rewrite Hs in Hsize.
      split; [done|]. split; [|split; [|split; [lia|done]]].
      * apply NoDup_cons. split; [|done].
        intros (d' & Hid & Hd')%list_elem_of_fmap.
        apply (Hnew d' Hd'). rewrite <- Hid. set_solver.
      * intros d' [->|Hd']%elem_of_cons; [done|].
        specialize (Hnew d' Hd'). set_solver.
Qed.


Lemma fetch_url_response (url : str) (w : world) (status : Z) (text : str) :
  1 <= MAX_RETRIES cfg ->
  session_get session (requests w) url = Response status text ->
  fetch_url cfg session url w = ((Some status, Some text), emit (EGet url) w).
Proof.
  intros Hn H. unfold fetch_url.
  destruct (MAX_RETRIES cfg) as [|n]; [lia|].
  cbn [seq]. by apply fetch_attempts_response.
Qed.

Lemma accepted_Some status body s b :
  accepted site_key status body = Some (s, b) ->
  status = Some s /\ body = Some b /\ s = 200%Z
  /\ is_likely_recipe b site_key = true.
Proof.
  unfold accepted. destruct status as [s'|]; [|done].
  destruct body as [[|c b']|]; [done| |done].
  destruct (Z.eqb_spec s' 200) as [->|]; [|done].
  destruct (is_likely_recipe (c :: b') site_key) eqn:H; [|done].
  by intros [= <- <-].
Qed.

Lemma accepted_None status body :
  accepted site_key status body = None <->
  status ≠ Some 200%Z \/ body = None \/ body = Some []
  \/ exists b, body = Some b /\ is_likely_recipe b site_key = false.
Proof.
  unfold accepted. split.
  - destruct status as [s|]; [|by left].
    destruct body as [[|c b]|]; [by right; right; left| |by right; left].
    destruct (Z.eqb_spec s 200) as [->|]; [|left; congruence].
    destruct (is_likely_recipe (c :: b) site_key) eqn:H; [done|].
    intros _. right. right. right. eauto.
  - intros [Hs|[->|[->|(b & -> & Hb)]]].
    + destruct status as [s|]; [|done]. destruct body as [[|c b]|]; try done.
      destruct (Z.eqb_spec s 200) as [->|]; [done|done].
    + by destruct status.
    + by destruct status.
    + destruct status as [s|]; [|done]. destruct b as [|c b]; [done|].
      rewrite Hb. by rewrite andb_false_r.
Qed.

Lemma requests_same_trace (w w' : world) :
  trace w' = trace w -> requests w' = requests w.
Proof. unfold requests. by intros ->. Qed.

Lemma candidate_succ (k : nat) :
  candidate site (S k) = (candidate site k + step site)%Z.
Proof. unfold candidate. lia. Qed.

Lemma candidate_inj (j k : nat) :
  step site ≠ 0%Z -> candidate site j = candidate site k -> j = k.
Proof. unfold candidate. intros Hstep H. nia. Qed.

Lemma accepted_ids_last (k : nat) (pages : list (Z * str)) (page : Z * str) :
  last pages = Some page -> is_document site_key page = true ->
  1 <= length (accepted_ids site_key site k pages).
Proof.
  revert k. induction pages as [|p pages IH]; intros k Hlast Hdoc; [done|].
  cbn [accepted_ids]. destruct pages as [|q pages].
  - simplify_eq/=. rewrite Hdoc. simpl. lia.
  - rewrite last_cons_cons in Hlast. specialize (IH (S k) Hlast Hdoc).
    destruct (is_document site_key p); simpl in *; lia.
Qed.

Lemma accepted_ids_app (k : nat) (pages pages' : list (Z * str)) :
  accepted_ids site_key site k (pages ++ pages')
  = accepted_ids site_key site k pages
    ++ accepted_ids site_key site (k + length pages) pages'.
Proof.
  revert k. induction pages as [|p pages IH]; intros k.
  - cbn. by rewrite Nat.add_0_r.
  - cbn [app accepted_ids length]. rewrite IH.
    replace (S k + length pages) with (k + S (length pages)) by lia.
    by destruct (is_document site_key p).
Qed.

(** The responses that hold documents end with one: the shortest run of
    candidates that holds them all. *)
Lemma accepted_ids_prefix (k : nat) (pages : list (Z * str)) :
  1 <= length (accepted_ids site_key site k pages) ->
  exists m page,
    m <= length pages
    /\ last (take m pages) = Some page
    /\ is_document site_key page = true
    /\ accepted_ids site_key site k (take m pages)
       = accepted_ids site_key site k pages.
Proof.
  induction pages as [|p pages IH] using rev_ind; [simpl; lia|].
  rewrite accepted_ids_app. cbn [accepted_ids].
  destruct (is_document site_key p) eqn:Hp.
  - intros _. exists (length (pages ++ [p])), p.
    rewrite firstn_all. rewrite last_snoc, accepted_ids_app.
    cbn [accepted_ids]. by rewrite Hp.
  - rewrite app_nil_r. intros Hlen.
    destruct (IH Hlen) as (m & page & Hm & Hlast & Hdoc & Hids).
    exists m, page. rewrite length_app. split; [lia|].
    rewrite take_app_le by done. by rewrite Hids.
Qed.

(** The walk over responses that all arrive at the first attempt: it fetches
    the candidates one by one, keeps the documents, and returns after the
    last response when that one fills the target. *)
Lemma walk_over_pages (pages : list (Z * str)) (k0 : nat) (st : walk)
    (w : world) (fuel : nat) :
  1 <= MAX_RETRIES cfg ->
  step site ≠ 0%Z ->
  current_id st = candidate site k0 ->
  (forall key, key ∈ seen_ids st ->
               exists j, j < k0 /\ key = KInt (candidate site j)) ->
  ledger_holds site_key w (seen_ids st) (metadata st) ->
  (forall k page, pages !! k = Some page ->
     exists url,
       str_format (pattern site) (candidate site (k0 + k)) = inr url
       /\ session_get session (requests w + k) url
          = Response (fst page) (snd page)
       /\ (is_document site_key page = true ->
           writable site_key (candidate site (k0 + k)) url (snd page)
             (fst page) = true)) ->
  Z.of_nat (size (seen_ids st)
            + length (accepted_ids site_key site k0 pages))
  = TARGET_PER_SITE cfg ->
  (forall page, last pages = Some page -> is_document site_key page = true) ->
  length pages <= fuel ->
  exists (docs : list document) (w' : world),
    while_loop cfg session site_key site fuel st w
    = (Returned (metadata st ++ (to_meta <$> docs)), w')
    /\ doc_id <$> docs = accepted_ids site_key site k0 pages
    /\ requests w' = requests w + length pages
    /\ ledger_holds site_key w'
         (list_to_set ((fun d => KInt (doc_id d)) <$> docs) ∪ seen_ids st)
         (metadata st ++ (to_meta <$> docs)).
Proof.
  intros Hretries Hstep.
  revert k0 st w fuel.
  induction pages as [|p pages IH];
    intros k0 st w fuel Hcur Hseen Hold Hnet Htarget Hlast Hfuel.
  - exists [], w. cbn in Htarget. rewrite Nat.add_0_r in Htarget.
    cbn [fmap list_fmap list_to_set length accepted_ids].
    rewrite app_nil_r, union_empty_l_L, Nat.add_0_r.
    split; [|done].
    destruct fuel; cbn [while_loop];
      by destruct (Z.ltb_spec (Z.of_nat (size (seen_ids st)))
                     (TARGET_PER_SITE cfg)); [lia|].
  - destruct fuel as [|fuel]; [simpl in Hfuel; lia|].
    cbn [length] in Hfuel.
    assert (forall page, last pages = Some page ->
                         is_document site_key page = true) as Hlast'.
    { intros page Hpage. apply Hlast. destruct pages; [done|].
      by rewrite last_cons_cons. }
    destruct (last (p :: pages)) as [q|] eqn:Hq; [|by apply last_None in Hq].
    pose proof (accepted_ids_last k0 _ _ Hq (Hlast q eq_refl)) as Hcount.
    cbn [while_loop].
    destruct (Z.ltb_spec (Z.of_nat (size (seen_ids st))) (TARGET_PER_SITE cfg))
      as [_|?]; [|lia].
    destruct (Hnet 0 p eq_refl) as (url & Hurl & Hget & Hwr).
    rewrite Nat.add_0_r in Hurl, Hget, Hwr.
    pose proof (loop_body_step st w) as Hbody.
    rewrite Hcur, Hurl in Hbody. rewrite <- Hcur in Hbody.
    destruct (decide _) as [Hin|Hnew] in Hbody.
    { destruct (Hseen _ Hin) as (j & Hj & [= Heq]).
      rewrite Hcur in Heq. apply candidate_inj in Heq; [lia|done]. }
    cbv zeta in Hbody.
    rewrite (fetch_url_response url w _ _ Hretries Hget) in Hbody.
    cbn [fst snd] in Hbody.
    assert (forall k page, pages !! k = Some page ->
      exists url0,
        str_format (pattern site) (candidate site (S k0 + k)) = inr url0
        /\ (forall w1, requests w1 = S (requests w) ->
            session_get session (requests w1 + k) url0
            = Response (fst page) (snd page))
        /\ (is_document site_key page = true ->
            writable site_key (candidate site (S k0 + k)) url0 (snd page)
              (fst page) = true)) as Hnet'.
    { intros k page Hk. destruct (Hnet (S k) page Hk) as (u & H1 & H2 & H3).
      replace (k0 + S k) with (S k0 + k) in * by lia.
      exists u. split; [done|]. split; [|done].
      intros w1 ->. by replace (S (requests w) + k) with (requests w + S k) by lia. }
    cbn [accepted_ids] in Htarget. unfold is_document in Htarget, Hwr.
    destruct (accepted site_key (Some (fst p)) (Some (snd p)))
      as [[s b]|] eqn:Hacc.
    + apply accepted_Some in Hacc as ([= <-] & [= <-] & Hs & Hlikely).
      destruct (persist_run st url (snd p) (fst p) (emit (EGet url) w))
        as (r & w1 & Hp & Htrace & Hr).
      rewrite Hp in Hbody. destruct r as [st1|e].
      2:{ destruct Hr as [Hr _]. rewrite Hcur, Hwr in Hr; done. }
      destruct Hr as [-> Hled]. cbn [seen_ids metadata] in Hbody.
      rewrite Hbody.
      set (d := page_document site_key (current_id st) url (snd p) (fst p)) in *.
      assert (size ({[KInt (current_id st)]} ∪ seen_ids st)
              = S (size (seen_ids st))) as Hsize.
      { rewrite size_union by set_solver. by rewrite size_singleton. }
      edestruct (IH (S k0)
        {| seen_ids := {[KInt (current_id st)]} ∪ seen_ids st;
           metadata := metadata st ++ [to_meta d];
           current_id := current_id st + step site;
           attempts := attempts st + 1 |}
        (throttled cfg (attempts st + 1)
           (size ({[KInt (current_id st)]} ∪ seen_ids st)) w1) fuel)
        as (docs & w' & Hrun & Hids & Hreq & Hled').
      * cbn [current_id]. by rewrite candidate_succ, Hcur.
      * cbn [seen_ids]. intros key [Hk|Hk]%elem_of_union.
        -- apply elem_of_singleton in Hk as ->. exists k0.
           split; [lia|]. by rewrite Hcur.
        -- destruct (Hseen key Hk) as (j & ? & ?). exists j. split; [lia|done].
      * cbn [seen_ids metadata]. eapply ledger_holds_files.
        { by rewrite files_throttled. }
        apply Hled. eapply ledger_holds_files; [|exact Hold]. done.
      * intros k page Hk. destruct (Hnet' k page Hk) as (u & H1 & H2 & H3).
        exists u. split; [done|]. split; [|done]. apply H2.
        rewrite requests_throttled, (requests_same_trace _ _ Htrace).
        by rewrite requests_emit.
      * cbn [seen_ids]. rewrite Hsize. simpl in Htarget. lia.
      * done.
      * lia.
      * exists (d :: docs), w'. cbn [metadata seen_ids] in *.
        cbn [fmap list_fmap list_to_set length].
        rewrite <- app_assoc in Hrun, Hled'. cbn [app] in Hrun, Hled'.
        split; [done|]. split; [|split].
        -- cbn [accepted_ids]. unfold is_document.
           rewrite <- Hcur. cbn [doc_id d page_document].
           fold (is_document site_key p).
           destruct (is_document site_key p) eqn:Hdoc.
           ++ by rewrite <- Hids.
           ++ unfold is_document in Hdoc. unfold accepted in Hdoc.
              destruct (snd p) as [|c b]; [done|].
              rewrite Hs, Hlikely in Hdoc. done.
        -- rewrite Hreq, requests_throttled, (requests_same_trace _ _ Htrace).
           rewrite requests_emit. simpl. lia.
        -- assert (list_to_set ((fun d => KInt (doc_id d)) <$> docs)
                     ∪ ({[KInt (current_id st)]} ∪ seen_ids st)
                   = {[KInt (doc_id d)]}
                     ∪ list_to_set ((fun d => KInt (doc_id d)) <$> docs)
                     ∪ seen_ids st) as <- by (cbn; set_solver).
           done.
    + rewrite Hbody.
      edestruct (IH (S k0)
        {| seen_ids := seen_ids st;
           metadata := metadata st;
           current_id := current_id st + step site;
           attempts := attempts st + 1 |}
        (throttled cfg (attempts st + 1) (size (seen_ids st))
           (emit (EGet url) w)) fuel)
        as (docs & w' & Hrun & Hids & Hreq & Hled').
      * cbn [current_id]. by rewrite candidate_succ, Hcur.
      * cbn [seen_ids]. intros key Hk.
        destruct (Hseen key Hk) as (j & ? & ?). exists j. split; [lia|done].
      * cbn [seen_ids metadata]. eapply ledger_holds_files; [|exact Hold].
        by rewrite files_throttled.
      * intros k page Hk. destruct (Hnet' k page Hk) as (u & H1 & H2 & H3).
        exists u. split; [done|]. split; [|done]. apply H2.
        by rewrite requests_throttled, requests_emit.
      * done.
      * done.
      * lia.
      * exists docs, w'. cbn [metadata seen_ids] in *.
        split; [done|]. split; [|split; [|done]].
        -- cbn [accepted_ids]. unfold is_document. by rewrite Hacc.
        -- rewrite Hreq, requests_throttled, requests_emit. simpl. lia.
Qed.

End WalkerFacts.

Lemma trace_throttled (cfg : settings) (n : Z) (found : nat) (w : world) :
  exists progress : list event,
    trace (throttled cfg n found w)
    = trace w ++ ESleepUniform (fst (DELAY_BETWEEN_REQUESTS cfg))
                               (snd (DELAY_BETWEEN_REQUESTS cfg))
                 :: progress
    /\ (progress = [] \/ progress = [EProgress n found]).
Proof.
  unfold throttled. destruct (_ && _); cbn [trace emit].
  - eexists. rewrite <- app_assoc. split; [reflexivity|by right].
  - eexists. split; [reflexivity|by left].
Qed.

(** C6: an attempt that ends on a status other than 200, on a missing or
    empty body or on a page the classifier rejects leaves no trace in the
    state but the attempt counter and the current identifier: the seen-set
    and the records are the same, no file is written (ledger, raw and text
    files alike), and the sleep drawn from the delay range follows the fetch,
    with the progress line every 1000 attempts. *)
Theorem rejected_attempt_leaves_no_record {lib : PyLib} (cfg : settings)
    (session : Session) (site_key : str) (site : site_cfg) (st : walk)
    (w w1 : world) (url : str) (status : option Z) (body : option str) :
  str_format (pattern site) (current_id st) = inr url ->
  KInt (current_id st) ∉ seen_ids st ->
  fetch_url cfg session url w = ((status, body), w1) ->
  status ≠ Some 200%Z \/ body = None \/ body = Some []
  \/ (exists b, body = Some b /\ is_likely_recipe b site_key = false) ->
  exists (w' : world) (progress : list event),
    loop_body cfg session site_key site st w
    = (Ok {| seen_ids := seen_ids st;
             metadata := metadata st;
             current_id := current_id st + step site;
             attempts := attempts st + 1 |}, w')
    /\ files w' = files w
    /\ trace w'
       = trace w1 ++ ESleepUniform (fst (DELAY_BETWEEN_REQUESTS cfg))
                                   (snd (DELAY_BETWEEN_REQUESTS cfg))
                     :: progress
    /\ (progress = []
        \/ progress = [EProgress (attempts st + 1) (size (seen_ids st))]).
Proof.
  intros Hurl Hnew Hfetch Hrej%accepted_None.
  pose proof (loop_body_step cfg session site_key site st w) as Hstep.
  rewrite Hurl in Hstep. rewrite decide_False in Hstep by done.
  cbv zeta in Hstep. rewrite Hfetch in Hstep. cbn [fst snd] in Hstep.
  rewrite Hrej in Hstep.
  pose proof (fetch_attempts_files cfg session url
                (seq 1 (MAX_RETRIES cfg)) 1%Q w) as Hfiles.
  fold (fetch_url cfg session url w) in Hfiles. rewrite Hfetch in Hfiles.
  cbn [snd] in Hfiles.
  destruct (trace_throttled cfg (attempts st + 1) (size (seen_ids st)) w1)
    as (progress & Htrace & Hprogress).
  exists (throttled cfg (attempts st + 1) (size (seen_ids st)) w1), progress.
  by rewrite files_throttled.
Qed.

Lemma rejected_attempt_leaves_no_record_witness :
  exists (w' : world) (progress : list event),
    loop_body (lib := Demo.lib) source_settings Demo.always_404
      (lit "povarenok") Demo.povarenok
      {| seen_ids := ∅; metadata := []; current_id := 20000; attempts := 0 |}
      Demo.fresh_world
    = (Ok {| seen_ids := ∅; metadata := []; current_id := 20000 + -1;
             attempts := 0 + 1 |}, w')
    /\ files w' = files Demo.fresh_world
    /\ trace w'
       = trace (emit (EGet (lit "https://www.povarenok.ru/recipes/show/20000/"))
                  Demo.fresh_world)
         ++ ESleepUniform (4 # 5) (9 # 5) :: progress
    /\ (progress = [] \/ progress = [EProgress (0 + 1) (size (∅ : gset key))]).
Proof.
  apply (rejected_attempt_leaves_no_record (lib := Demo.lib) source_settings
           Demo.always_404 (lit "povarenok") Demo.povarenok
           {| seen_ids := ∅; metadata := []; current_id := 20000;
              attempts := 0 |}
           Demo.fresh_world
           (emit (EGet (lit "https://www.povarenok.ru/recipes/show/20000/"))
              Demo.fresh_world)
           (lit "https://www.povarenok.ru/recipes/show/20000/")
           (Some 404%Z) (Some (lit "not found"))).
  - vm_compute. reflexivity.
  - apply not_elem_of_empty.
  - vm_compute. reflexivity.
  - left. discriminate.
Defined.

(** C9: a ledger with a line that [json.loads] cannot parse makes
    [collect_for_site] raise while it loads, whatever the other lines are:
    the line is not skipped, no request is sent, no file is written, and the
    walk does not start. *)
Theorem corrupt_ledger_aborts_the_run {lib : PyLib} (cfg : settings)
    (session : Session) (site_key : str) (site : site_cfg) (fuel : nat)
    (w : world) (s line : str) :
  files w !! meta_file site_key = Some (Text s) ->
  line ∈ read_lines s ->
  json_loads line = None ->
  exists e : exn,
    collect_for_site cfg session site_key site fuel w = (Raised e, w).
Proof.
  intros Hfile Hline Hbad. unfold collect_for_site, load_ledger.
  rewrite Hfile.
  destruct (load_lines_malformed (read_lines s) ∅ [] line Hline Hbad)
    as [e ->].
  by exists e.
Qed.

Lemma corrupt_ledger_aborts_the_run_witness :
  exists e : exn,
    collect_for_site (lib := Demo.lib) source_settings Demo.always_404
      (lit "povarenok") Demo.povarenok 5 Demo.corrupt_world
    = (Raised e, Demo.corrupt_world).
Proof.
  apply (corrupt_ledger_aborts_the_run (lib := Demo.lib) source_settings
           Demo.always_404 (lit "povarenok") Demo.povarenok 5
           Demo.corrupt_world (lit "garbage" ++ [LF]) (lit "garbage" ++ [LF])).
  - vm_compute. reflexivity.
  - vm_compute. apply list_elem_of_here.
  - vm_compute. reflexivity.
Defined.

(** The walk from a ledger that holds: what it adds. *)
Lemma collect_for_site_ledger {lib : PyLib} {laws : PyLibLaws lib}
    (cfg : settings) (session : Session) (site_key : str) (site : site_cfg)
    (fuel : nat) (w w' : world) (o : outcome) seen md :
  ledger_holds site_key w seen md ->
  collect_for_site cfg session site_key site fuel w = (o, w') ->
  exists docs : list document,
    walk_added cfg site_key
      {| seen_ids := seen; metadata := md; current_id := start_id site;
         attempts := 0 |} w' o docs.
Proof.
  intros Hold. unfold collect_for_site.
  rewrite (load_ledger_holds site_key w seen md Hold).
  intros Hrun. by apply while_loop_ledger in Hrun.
Qed.

(** C2: the seen-set gates every fetch, and a second run adds no duplicate.
    A turn of the loop on an identifier of the seen-set only moves to the
    next identifier: nothing is fetched or logged, no file changes, the
    attempt counter stays.  And when the walker runs from a missing ledger,
    is stopped or finishes, and is run a second time on the files it left,
    against any network, the ledger and the records returned hold each
    identifier once. *)
Theorem resumed_walk_has_no_duplicates {lib : PyLib} {laws : PyLibLaws lib}
    (cfg : settings) (session1 session2 : Session) (site_key : str)
    (site : site_cfg) (fuel1 fuel2 : nat) (w0 w1 w1' w2 : world)
    (o1 o2 : outcome) :
  files w0 !! meta_file site_key = None ->
  collect_for_site cfg session1 site_key site fuel1 w0 = (o1, w1) ->
  files w1' = files w1 ->
  collect_for_site cfg session2 site_key site fuel2 w1' = (o2, w2) ->
  (forall (st : walk) (w : world) (url : str),
     str_format (pattern site) (current_id st) = inr url ->
     KInt (current_id st) ∈ seen_ids st ->
     loop_body cfg session2 site_key site st w
     = (Ok {| seen_ids := seen_ids st;
              metadata := metadata st;
              current_id := current_id st + step site;
              attempts := attempts st |}, w))
  /\ exists docs : list document,
       NoDup (doc_id <$> docs)
       /\ ledger_holds site_key w2
            (list_to_set ((fun d => KInt (doc_id d)) <$> docs))
            (to_meta <$> docs)
       /\ match o2 with
          | Returned md => md = to_meta <$> docs
          | Running st => metadata st = to_meta <$> docs
          | Raised _ => True
          end.
Proof.
  intros Hnone Hrun1 Hfiles Hrun2. split.
  { intros st w url Hurl Hseen.
    pose proof (loop_body_step cfg session2 site_key site st w) as Hstep.
    rewrite Hurl in Hstep. by rewrite decide_True in Hstep. }
  assert (ledger_holds site_key w0 ∅ []) as Hold0 by (by left).
  destruct (collect_for_site_ledger _ _ _ _ _ _ _ _ _ _ Hold0 Hrun1)
    as (docs1 & Hled1 & Hnodup1 & _ & _ & _).
  cbn [seen_ids metadata app] in Hled1.
  rewrite union_empty_r_L in Hled1.
  assert (ledger_holds site_key w1'
            (list_to_set ((fun d => KInt (doc_id d)) <$> docs1))
            (to_meta <$> docs1)) as Hold1.
  { revert Hled1. apply ledger_holds_files. by rewrite Hfiles. }
  destruct (collect_for_site_ledger _ _ _ _ _ _ _ _ _ _ Hold1 Hrun2)
    as (docs2 & Hled2 & Hnodup2 & Hnew2 & _ & Ho2).
  cbn [seen_ids metadata] in Hled2, Hnew2, Ho2.
  exists (docs1 ++ docs2). rewrite !fmap_app, list_to_set_app_L.
  split; [|split].
  - apply NoDup_app. split; [done|]. split; [|done].
    intros id Hid1 (d & -> & Hd)%list_elem_of_fmap.
    apply (Hnew2 d Hd). apply elem_of_list_to_set.
    apply list_elem_of_fmap in Hid1 as (d1 & Hid & Hd1).
    apply list_elem_of_fmap. exists d1. by rewrite Hid.
  - by rewrite union_comm_L.
  - destruct o2; [done|done|by destruct Ho2].
Qed.

(** C10: the target counts the identifiers loaded from the ledger.  When the
    ledger already holds as many distinct identifiers as the target or more,
    the walker returns the loaded records at once, and the world is
    untouched: no request is sent.  When it holds K of them, K at most the
    target, the run adds at most target - K records, all of them new. *)
Theorem target_counts_loaded_identifiers {lib : PyLib} {laws : PyLibLaws lib}
    (cfg : settings) (session : Session) (site_key : str) (site : site_cfg)
    (fuel : nat) (w w' : world) (o : outcome) (seen : gset key)
    (md : list json) :
  ledger_holds site_key w seen md ->
  collect_for_site cfg session site_key site fuel w = (o, w') ->
  ((TARGET_PER_SITE cfg <= Z.of_nat (size seen))%Z ->
   o = Returned md /\ w' = w)
  /\ ((Z.of_nat (size seen) <= TARGET_PER_SITE cfg)%Z ->
      exists docs : list document,
        (Z.of_nat (length docs)
         <= TARGET_PER_SITE cfg - Z.of_nat (size seen))%Z
        /\ NoDup (doc_id <$> docs)
        /\ (forall d, d ∈ docs -> KInt (doc_id d) ∉ seen)
        /\ ledger_holds site_key w'
             (list_to_set ((fun d => KInt (doc_id d)) <$> docs) ∪ seen)
             (md ++ (to_meta <$> docs))
        /\ match o with
           | Returned md' => md' = md ++ (to_meta <$> docs)
           | Running st => metadata st = md ++ (to_meta <$> docs)
           | Raised _ => True
           end).
Proof.
  intros Hold Hrun. split.
  - intros Hfull. unfold collect_for_site in Hrun.
    rewrite (load_ledger_holds site_key w seen md Hold) in Hrun.
    destruct fuel; cbn [while_loop seen_ids metadata] in Hrun;
      destruct (Z.ltb_spec (Z.of_nat (size seen)) (TARGET_PER_SITE cfg));
      try lia; by simplify_eq.
  - intros Hroom.
    destruct (collect_for_site_ledger _ _ _ _ _ _ _ _ _ _ Hold Hrun)
      as (docs & Hled & Hnodup & Hnew & Hsize & Ho).
    cbn [seen_ids metadata] in *.
    exists docs. split; [lia|]. split; [done|]. split; [done|].
    split; [done|]. destruct o; [done|done|by destruct Ho].
Qed.

Lemma while_loop_more_fuel {lib : PyLib} (cfg : settings) (session : Session)
    (site_key : str) (site : site_cfg) (fuel fuel' : nat) (st : walk)
    (w w' : world) (md : list json) :
  while_loop cfg session site_key site fuel st w = (Returned md, w') ->
  fuel <= fuel' ->
  while_loop cfg session site_key site fuel' st w = (Returned md, w').
Proof.
  revert fuel' st w. induction fuel as [|fuel IH]; intros fuel' st w Hrun Hle.
  - cbn [while_loop] in Hrun. destruct fuel'; cbn [while_loop];
      by destruct (_ <? _)%Z.
  - destruct fuel' as [|fuel']; [lia|]. cbn [while_loop] in *.
    destruct (_ <? _)%Z; [|done].
    destruct (loop_body _ _ _ _ _ _) as [[st1|e] w1]; [|done].
    apply IH; [done|lia].
Qed.

(** C5: the walk stops when the target is reached.  From a missing ledger,
    when the candidates are answered at the first attempt by [pages] and
    exactly TARGET_PER_SITE of these responses hold a document (3 of 10,
    say), the walker returns, given fuel for [m] turns, where the [m]-th
    candidate is the one that fills the target: it has sent [m] requests,
    one for each candidate up to that one, rejected ones included, and it
    returns exactly TARGET_PER_SITE records, those of the documents, which
    are also what the ledger holds. *)
Theorem walk_stops_at_target {lib : PyLib} {laws : PyLibLaws lib}
    (cfg : settings) (session : Session) (site_key : str) (site : site_cfg)
    (pages : list (Z * str)) (w : world) :
  files w !! meta_file site_key = None ->
  1 <= MAX_RETRIES cfg ->
  step site ≠ 0%Z ->
  (forall k page, pages !! k = Some page ->
     exists url,
       str_format (pattern site) (candidate site k) = inr url
       /\ session_get session (requests w + k) url
          = Response (fst page) (snd page)
       /\ (is_document site_key page = true ->
           writable site_key (candidate site k) url (snd page) (fst page)
           = true)) ->
  (0 < TARGET_PER_SITE cfg)%Z ->
  Z.of_nat (length (accepted_ids site_key site 0 pages))
  = TARGET_PER_SITE cfg ->
  exists (m : nat) (page : Z * str) (docs : list document),
    m <= length pages
    /\ last (take m pages) = Some page
    /\ is_document site_key page = true
    /\ doc_id <$> docs = accepted_ids site_key site 0 pages
    /\ Z.of_nat (length docs) = TARGET_PER_SITE cfg
    /\ forall fuel, m <= fuel ->
         exists w' : world,
           collect_for_site cfg session site_key site fuel w
           = (Returned (to_meta <$> docs), w')
           /\ requests w' = requests w + m
           /\ ledger_holds site_key w'
                (list_to_set ((fun d => KInt (doc_id d)) <$> docs))
                (to_meta <$> docs).
Proof.
  intros Hnone Hretries Hstep Hnet Hpos Hcount.
  destruct (accepted_ids_prefix site_key site 0 pages)
    as (m & page & Hm & Hlast & Hdoc & Hids); [lia|].
  destruct (walk_over_pages cfg session site_key site (take m pages) 0
              {| seen_ids := ∅; metadata := []; current_id := start_id site;
                 attempts := 0 |} w m)
    as (docs & w' & Hrun & Hdocs & Hreq & Hled).
  - done.
  - done.
  - unfold candidate. cbn [current_id]. lia.
  - cbn [seen_ids]. by intros key ?%elem_of_empty.
  - by left.
  - intros k p [Hk _]%lookup_take_Some. by apply Hnet.
  - cbn [seen_ids]. rewrite size_empty, Hids. simpl. lia.
  - intros p Hp. by simplify_eq.
  - rewrite length_take. lia.
  - cbn [seen_ids metadata app] in *.
    rewrite union_empty_r_L in Hled. rewrite Hids in Hdocs.
    rewrite length_take_le in Hreq by done.
    exists m, page, docs. split; [done|]. split; [done|]. split; [done|].
    split; [done|]. split.
    { by rewrite <- Hcount, <- Hdocs, length_fmap. }
    intros fuel Hfuel. exists w'. split; [|done].
    unfold collect_for_site, load_ledger. rewrite Hnone.
    by apply (while_loop_more_fuel _ _ _ _ m).
Qed.

Lemma walk_stops_at_target_witness :
  exists (m : nat) (page : Z * str) (docs : list document),
    m <= length Demo.ten_pages
    /\ last (take m Demo.ten_pages) = Some page
    /\ is_document (lib := Demo.lib) (lit "povarenok") page = true
    /\ doc_id <$> docs
       = accepted_ids (lib := Demo.lib) (lit "povarenok") Demo.povarenok 0
           Demo.ten_pages
    /\ Z.of_nat (length docs) = TARGET_PER_SITE Demo.target_3
    /\ forall fuel, m <= fuel ->
         exists w' : world,
           collect_for_site (lib := Demo.lib) Demo.target_3
             (Demo.scripted Demo.ten_pages) (lit "povarenok") Demo.povarenok
             fuel Demo.fresh_world
           = (Returned (to_meta <$> docs), w')
           /\ requests w' = requests Demo.fresh_world + m
           /\ ledger_holds (lib := Demo.lib) (lit "povarenok") w'
                (list_to_set ((fun d => KInt (doc_id d)) <$> docs))
                (to_meta <$> docs).
Proof.
  apply (walk_stops_at_target (laws := demo_laws) Demo.target_3
           (Demo.scripted Demo.ten_pages) (lit "povarenok") Demo.povarenok
           Demo.ten_pages Demo.fresh_world).
  - reflexivity.
  - simpl. lia.
  - discriminate.
  - intros k page Hk.
    do 10 (destruct k as [|k];
           [injection Hk as <-; eexists; split; [reflexivity|];
            split; [reflexivity|];
            intros Hdoc; vm_compute in Hdoc; try discriminate Hdoc;
            vm_compute; reflexivity|]).
    discriminate Hk.
  - reflexivity.
  - vm_compute. reflexivity.
Defined.

Lemma resumed_walk_has_no_duplicates_witness :
  exists docs : list document,
    NoDup (doc_id <$> docs)
    /\ ledger_holds (lib := Demo.lib) (lit "povarenok") (snd Demo.second_run)
         (list_to_set ((fun d => KInt (doc_id d)) <$> docs))
         (to_meta <$> docs)
    /\ match fst Demo.second_run with
       | Returned md => md = to_meta <$> docs
       | Running st => metadata st = to_meta <$> docs
       | Raised _ => True
       end.
Proof.
  apply (proj2 (resumed_walk_has_no_duplicates (laws := demo_laws)
                  Demo.target_3 (Demo.scripted Demo.ten_pages)
                  (Demo.scripted Demo.ten_pages) (lit "povarenok")
                  Demo.povarenok 3 20 Demo.fresh_world (snd Demo.first_run)
                  (snd Demo.first_run) (snd Demo.second_run)
                  (fst Demo.first_run) (fst Demo.second_run)
                  eq_refl (surjective_pairing _) eq_refl
                  (surjective_pairing _))).
Defined.

(* A ledger of two records against a target of one: the walk returns them
   at once.  Then the second run of [Demo]: its ledger holds the one record of
   the first run, against a target of three. *)
Lemma target_counts_loaded_identifiers_witness :
  (fst (collect_for_site (lib := Demo.lib) Cases.target_1
          (Demo.scripted Demo.ten_pages) (lit "povarenok") Demo.povarenok 5
          (Cases.ledger_world Cases.two_record_text))
   = Returned (to_meta <$> Demo.two_documents)
   /\ snd (collect_for_site (lib := Demo.lib) Cases.target_1
             (Demo.scripted Demo.ten_pages) (lit "povarenok") Demo.povarenok 5
             (Cases.ledger_world Cases.two_record_text))
      = Cases.ledger_world Cases.two_record_text)
  /\ exists docs : list document,
       (Z.of_nat (length docs)
        <= TARGET_PER_SITE Demo.target_3
           - Z.of_nat (size (list_to_set
                               (record_keys (Cases.found Demo.first_run))
                             : gset key)))%Z
       /\ NoDup (doc_id <$> docs)
       /\ (forall d, d ∈ docs ->
             KInt (doc_id d)
             ∉ (list_to_set (record_keys (Cases.found Demo.first_run))
                : gset key))
       /\ ledger_holds (lib := Demo.lib) (lit "povarenok")
            (snd Demo.second_run)
            (list_to_set ((fun d => KInt (doc_id d)) <$> docs)
             ∪ list_to_set (record_keys (Cases.found Demo.first_run)))
            (Cases.found Demo.first_run ++ (to_meta <$> docs))
       /\ match fst Demo.second_run with
          | Returned md' =>
              md' = Cases.found Demo.first_run ++ (to_meta <$> docs)
          | Running st =>
              metadata st = Cases.found Demo.first_run ++ (to_meta <$> docs)
          | Raised _ => True
          end.
Proof.
  split.
  - assert (ledger_holds (lib := Demo.lib) (lit "povarenok")
              (Cases.ledger_world Cases.two_record_text)
              (list_to_set (record_keys (to_meta <$> Demo.two_documents)))
              (to_meta <$> Demo.two_documents)) as Hold.
    { right. exists Cases.two_record_text.
      split; [apply lookup_singleton_eq|].
      split; [right|]; vm_compute; reflexivity. }
    apply (proj1 (target_counts_loaded_identifiers (laws := demo_laws)
                    Cases.target_1 (Demo.scripted Demo.ten_pages)
                    (lit "povarenok") Demo.povarenok 5
                    (Cases.ledger_world Cases.two_record_text) _ _ _ _
                    Hold (surjective_pairing _))).
    vm_compute. discriminate.
  - assert (ledger_holds (lib := Demo.lib) (lit "povarenok")
              (snd Demo.first_run)
              (list_to_set (record_keys (Cases.found Demo.first_run)))
              (Cases.found Demo.first_run)) as Hold.
    { right. eexists.
      split; [vm_compute; reflexivity|].
      split; [right|]; vm_compute; reflexivity. }
    apply (proj2 (target_counts_loaded_identifiers (laws := demo_laws)
                    Demo.target_3 (Demo.scripted Demo.ten_pages)
                    (lit "povarenok") Demo.povarenok 20 (snd Demo.first_run)
                    (snd Demo.second_run) (fst Demo.second_run) _ _
                    Hold (surjective_pairing _))).
    vm_compute. discriminate.
Defined.

Lemma ledger_round_trip_witness :
  load_ledger (lib := Demo.lib) (lit "povarenok")
    (snd (append_all (lib := Demo.lib) (lit "povarenok")
            (to_meta <$> Demo.two_documents) Demo.fresh_world))
  = (Ok (list_to_set ((fun d => KInt (doc_id d)) <$> Demo.two_documents),
         to_meta <$> Demo.two_documents),
     snd (append_all (lib := Demo.lib) (lit "povarenok")
            (to_meta <$> Demo.two_documents) Demo.fresh_world)).
Proof.
  apply (ledger_round_trip (laws := demo_laws) (lit "povarenok")
           Demo.two_documents Demo.fresh_world
           (snd (append_all (lib := Demo.lib) (lit "povarenok")
                   (to_meta <$> Demo.two_documents) Demo.fresh_world))).
  - reflexivity.
  - vm_compute. reflexivity.
Defined.

(** ** The model at work on small inputs *)

Example lines_keep_their_ends :
  lines (lit "ab" ++ [LF] ++ lit "c" ++ [LF; LF] ++ lit "d")
  = [lit "ab" ++ [LF]; lit "c" ++ [LF]; [LF]; lit "d"].
Proof. reflexivity. Qed.

Example universal_newlines_translate :
  universal_newlines false (lit "a" ++ [CR; LF] ++ lit "b" ++ [CR] ++ lit "c")
  = lit "a" ++ [LF] ++ lit "b" ++ [LF] ++ lit "c".
Proof. reflexivity. Qed.

Example utf8_of_cyrillic : encode_utf8 [1103%N] = Some [209%N; 143%N].
Proof. reflexivity. Qed.

Example utf8_of_surrogate : encode_utf8 [55296%N] = None.
Proof. reflexivity. Qed.

Example str_of_negative : str_of_Z (-15) = lit "-15".
Proof. reflexivity. Qed.

Example collapse_spaces_example :
  collapse_spaces false (lit "a" ++ [9%N; 10%N; 32%N] ++ lit "b  c")
  = lit "a b c".
Proof. reflexivity. Qed.

Example count_words_example : count_words false (lit " ab  c d ") = 3.
Proof. reflexivity. Qed.

Example keyword_is_found_in_upper_case :
  has_keyword (Demo.lower [1056; 1045; 1062; 1045; 1055; 1058]%N) = true.
Proof. reflexivity. Qed.

(** A failure, then an answer: one sleep of one second between the two
    requests. *)
Example fetch_url_second_attempt :
  fetch_url source_settings
    {| session_get := fun n _ =>
         if n =? 0 then RequestException else Response 503 (lit "busy") |}
    (lit "u") Demo.fresh_world
  = ((Some 503%Z, Some (lit "busy")),
     {| files := ∅;
        trace := [EGet (lit "u"); ESleep 1; EGet (lit "u")] |}).
Proof. reflexivity. Qed.

(** Three turns on the ten pages keep one document, 19999.  The second run
    starts again from 20000, which was rejected and is fetched again, skips
    19999, and stops once it has three records. *)
Example first_run_is_stopped_short :
  match fst Demo.first_run with
  | Running st =>
      current_id st = 19997%Z /\ attempts st = 3%Z
      /\ length (metadata st) = 1
  | _ => False
  end.
Proof. vm_compute. done. Qed.

Example second_run_returns_three_records :
  match fst Demo.second_run with
  | Returned md => record_keys md = [KInt 19999; KInt 19998; KInt 19996]
  | _ => False
  end.
Proof. vm_compute. done. Qed.

(** * More of the code: retries, text extraction, ledger, walk, statistics *)

(** ** More on fetch_url *)

(** Failures, then an answer: the answer is returned after one request for
    each failure and one more, with a sleep before each retry. *)
Lemma fetch_attempts_retry (cfg : settings) (session : Session) (url : str)
    (j n first : nat) (wait : Q) (w : world) (status : Z) (text : str) :
  j < n ->
  first + n = S (MAX_RETRIES cfg) ->
  (forall k, k < j -> session_get session (requests w + k) url = RequestException) ->
  session_get session (requests w + j) url = Response status text ->
  fetch_attempts cfg session url (seq first n) wait w
  = ((Some status, Some text),
     {| files := files w;
        trace := trace w ++ backoff_events url (S j) wait (BACKOFF_FACTOR cfg) |}).
Proof.
  revert n first wait w.
  induction j as [|j IH]; intros n first wait w Hj Hlast Hfail Hok.
  - destruct n as [|n]; [lia|]. cbn [seq].
    rewrite Nat.add_0_r in Hok.
    by rewrite (fetch_attempts_response _ _ _ _ _ _ _ _ _ Hok).
  - destruct n as [|n]; [lia|]. cbn [seq].
    rewrite fetch_attempts_failure.
    2:{ rewrite <- (Hfail 0) by lia. f_equal. lia. }
    replace (first =? MAX_RETRIES cfg) with false
      by (symmetry; apply Nat.eqb_neq; lia).
    rewrite (IH n (S first)); [|lia|lia| |].
    + cbn [files trace emit backoff_events]. f_equal. f_equal.
      by rewrite <- !app_assoc.
    + intros k Hk. rewrite !requests_emit. cbn [is_get].
      rewrite <- (Hfail (S k)) by lia. f_equal. lia.
    + rewrite !requests_emit. cbn [is_get].
      rewrite <- Hok. f_equal. lia.
Qed.

(** The waits of the source constants, 1 and 1.5, are floats that
    [time.sleep] takes. *)
Lemma source_backoff_is_exact :
  exact_backoff (BACKOFF_FACTOR source_settings)
    (MAX_RETRIES source_settings - 1).
Proof.
  assert (is_double 1) as H1 by (by exists 1%Z, 0%Z).
  assert (is_double (3 # 2)) as H2 by (by exists 3%Z, (-1)%Z).
  split; [done|]. cbn [MAX_RETRIES source_settings Nat.sub backoff_waits].
  apply Forall_cons. split; [split; [done|by vm_compute]|].
  apply Forall_cons. split; [split; [done|by vm_compute]|].
  apply Forall_nil_2.
Qed.

(** X2: when the first [j] attempts fail and the next one is answered, with
    [j] below the retry ceiling and a factor above 1 whose first [j] waits
    are floats that [time.sleep] takes, [fetch_url] returns that answer; it
    has sent [j + 1] requests and slept [j] times, for 1, the factor, its
    square and so on, each wait longer than the one before. *)
Theorem fetch_url_retry_then_response (cfg : settings) (session : Session)
    (url : str) (j : nat) (w : world) (status : Z) (text : str) :
  j < MAX_RETRIES cfg ->
  (1 < BACKOFF_FACTOR cfg)%Q ->
  exact_backoff (BACKOFF_FACTOR cfg) j ->
  (forall k, k < j -> session_get session (requests w + k) url = RequestException) ->
  session_get session (requests w + j) url = Response status text ->
  exists t : list event,
    fetch_url cfg session url w
    = ((Some status, Some text), {| files := files w; trace := trace w ++ t |})
    /\ length (List.filter is_get t) = S j
    /\ length (sleeps t) = j
    /\ sleeps t = backoff_waits j 1 (BACKOFF_FACTOR cfg)
    /\ Forall sleepable (sleeps t)
    /\ increasing (sleeps t).
Proof.
  intros Hj Hfactor [_ Hexact] Hfail Hok.
  exists (backoff_events url (S j) 1 (BACKOFF_FACTOR cfg)).
  assert (sleeps (backoff_events url (S j) 1 (BACKOFF_FACTOR cfg))
          = backoff_waits j 1 (BACKOFF_FACTOR cfg)) as Hsleeps
    by (rewrite sleeps_backoff_waits; f_equal; lia).
  split; [|split; [|split; [|split; [|split]]]].
  - unfold fetch_url. by apply fetch_attempts_retry; [|lia| |].
  - apply backoff_events_requests.
  - rewrite backoff_events_sleeps. lia.
  - done.
  - by rewrite Hsleeps.
  - apply backoff_waits_increasing; [reflexivity|done].
Qed.

Lemma fetch_url_retry_then_response_witness :
  exists t : list event,
    fetch_url source_settings (Cases.flaky 2 503 (lit "busy")) (lit "u")
      Demo.fresh_world
    = ((Some 503%Z, Some (lit "busy")),
       {| files := files Demo.fresh_world;
          trace := trace Demo.fresh_world ++ t |})
    /\ length (List.filter is_get t) = 3
    /\ length (sleeps t) = 2
    /\ sleeps t = backoff_waits 2 1 (BACKOFF_FACTOR source_settings)
    /\ Forall sleepable (sleeps t)
    /\ increasing (sleeps t).
Proof.
  apply (fetch_url_retry_then_response source_settings
           (Cases.flaky 2 503 (lit "busy")) (lit "u") 2 Demo.fresh_world).
  - simpl. lia.
  - reflexivity.
  - exact source_backoff_is_exact.
  - intros k Hk. do 2 (destruct k as [|k]; [reflexivity|]). lia.
  - reflexivity.
Defined.

Lemma fetch_url_backoff_witness :
  exists t : list event,
    fetch_url source_settings Demo.always_failing (lit "u") Demo.fresh_world
    = ((None, None),
       {| files := files Demo.fresh_world;
          trace := trace Demo.fresh_world ++ t |})
    /\ length (List.filter is_get t) = MAX_RETRIES source_settings
    /\ length (sleeps t) = MAX_RETRIES source_settings - 1
    /\ sleeps t
       = backoff_waits (MAX_RETRIES source_settings - 1) 1
           (BACKOFF_FACTOR source_settings)
    /\ Forall sleepable (sleeps t)
    /\ increasing (sleeps t).
Proof.
  apply (fetch_url_backoff source_settings Demo.always_failing (lit "u")
           Demo.fresh_world).
  - simpl. lia.
  - reflexivity.
  - exact source_backoff_is_exact.
  - reflexivity.
Defined.

Lemma fetch_attempts_shape (cfg : settings) (session : Session) (url : str)
    (n first : nat) (wait : Q) (w : world) :
  1 <= n ->
  first + n = S (MAX_RETRIES cfg) ->
  exists k,
    1 <= k <= n
    /\ (forall j, j < k - 1 ->
                  session_get session (requests w + j) url = RequestException)
    /\ snd (fetch_attempts cfg session url (seq first n) wait w)
       = {| files := files w;
            trace := trace w ++ backoff_events url k wait (BACKOFF_FACTOR cfg) |}
    /\ match session_get session (requests w + (k - 1)) url with
       | Response status text =>
           fst (fetch_attempts cfg session url (seq first n) wait w)
           = (Some status, Some text)
       | RequestException =>
           k = n
           /\ fst (fetch_attempts cfg session url (seq first n) wait w)
              = (None, None)
       end.
Proof.
  revert first wait w. induction n as [|n IH]; intros first wait w Hn Hlast;
    [lia|].
  destruct (session_get session (requests w) url) as [|status text] eqn:Hget.
  - destruct n as [|n].
    + exists 1. split; [lia|]. split; [intros j Hj; lia|].
      cbn [seq]. rewrite fetch_attempts_failure by done.
      replace (first =? MAX_RETRIES cfg) with true
        by (symmetry; apply Nat.eqb_eq; lia).
      cbn [Nat.sub]. rewrite Nat.add_0_r, Hget. done.
    + destruct (IH (S first) (wait * BACKOFF_FACTOR cfg)%Q
                  (emit (ESleep wait) (emit (EGet url) w)))
        as (k & Hk & Hfail & Htrace & Hres); [lia|lia|].
      assert (forall j, requests (emit (ESleep wait) (emit (EGet url) w)) + j
                        = requests w + S j) as Hreq.
      { intros j. rewrite !requests_emit. cbn [is_get]. lia. }
      exists (S k). split; [lia|]. split; [|split].
      * intros j Hj. destruct j as [|j]; [by rewrite Nat.add_0_r|].
        rewrite <- Hreq. apply Hfail. lia.
      * cbn [seq]. rewrite fetch_attempts_failure by done.
        replace (first =? MAX_RETRIES cfg) with false
          by (symmetry; apply Nat.eqb_neq; lia).
        cbn [seq] in Htrace. rewrite Htrace.
        destruct k as [|k]; [lia|].
        cbn [files trace emit backoff_events]. f_equal.
        by rewrite <- !app_assoc.
      * cbn [seq]. rewrite fetch_attempts_failure by done.
        replace (first =? MAX_RETRIES cfg) with false
          by (symmetry; apply Nat.eqb_neq; lia).
        rewrite Hreq in Hres.
        replace (S k - 1) with (S (k - 1)) by lia.
        cbn [seq] in Hres.
        destruct (session_get session (requests w + S (k - 1)) url);
          [|done]. destruct Hres as [-> Hres]. done.
  - exists 1. split; [lia|]. split; [intros j Hj; lia|].
    cbn [seq Nat.sub]. rewrite Nat.add_0_r, Hget.
    by rewrite (fetch_attempts_response _ _ _ _ _ _ _ _ _ Hget).
Qed.

(** X3: whatever the network does, with a retry ceiling of at least 1 and
    a factor whose waits are floats that [time.sleep] takes, [fetch_url]
    sends between one request and MAX_RETRIES of them, all for its URL and
    one after the other, sleeps only between two requests, each time for a
    wait that [time.sleep] takes, and writes no file.  It stops at the first
    answer and returns it; it returns (None, None) only when the request
    number MAX_RETRIES has failed like all those before. *)
Theorem fetch_url_shape (cfg : settings) (session : Session) (url : str)
    (w : world) :
  1 <= MAX_RETRIES cfg ->
  exact_backoff (BACKOFF_FACTOR cfg) (MAX_RETRIES cfg - 1) ->
  exists k,
    1 <= k <= MAX_RETRIES cfg
    /\ (forall j, j < k - 1 ->
                  session_get session (requests w + j) url = RequestException)
    /\ snd (fetch_url cfg session url w)
       = {| files := files w;
            trace := trace w ++ backoff_events url k 1 (BACKOFF_FACTOR cfg) |}
    /\ Forall sleepable (sleeps (backoff_events url k 1 (BACKOFF_FACTOR cfg)))
    /\ requests (snd (fetch_url cfg session url w)) = requests w + k
    /\ match session_get session (requests w + (k - 1)) url with
       | Response status text =>
           fst (fetch_url cfg session url w) = (Some status, Some text)
       | RequestException =>
           k = MAX_RETRIES cfg
           /\ fst (fetch_url cfg session url w) = (None, None)
       end.
Proof.
  intros Hn [_ Hexact]. unfold fetch_url.
  destruct (fetch_attempts_shape cfg session url (MAX_RETRIES cfg) 1 1%Q w)
    as (k & Hk & Hfail & Htrace & Hres); [done|lia|].
  exists k. split; [done|]. split; [done|]. split; [done|].
  split; [|split; [|done]].
  - rewrite sleeps_backoff_waits.
    apply (backoff_waits_fewer _ _ (MAX_RETRIES cfg - 1)); [lia|done].
  - rewrite Htrace. unfold requests. cbn [trace].
    rewrite List.filter_app, length_app, backoff_events_requests. done.
Qed.

Lemma fetch_url_shape_witness :
  exists k,
    1 <= k <= MAX_RETRIES source_settings
    /\ (forall j, j < k - 1 ->
          session_get (Cases.flaky 1 200 (lit "ok"))
            (requests Demo.fresh_world + j) (lit "u") = RequestException)
    /\ snd (fetch_url source_settings (Cases.flaky 1 200 (lit "ok")) (lit "u")
              Demo.fresh_world)
       = {| files := files Demo.fresh_world;
            trace := trace Demo.fresh_world
                     ++ backoff_events (lit "u") k 1
                          (BACKOFF_FACTOR source_settings) |}
    /\ Forall sleepable
         (sleeps (backoff_events (lit "u") k 1
                    (BACKOFF_FACTOR source_settings)))
    /\ requests (snd (fetch_url source_settings (Cases.flaky 1 200 (lit "ok"))
                        (lit "u") Demo.fresh_world))
       = requests Demo.fresh_world + k
    /\ match session_get (Cases.flaky 1 200 (lit "ok"))
               (requests Demo.fresh_world + (k - 1)) (lit "u") with
       | Response status text =>
           fst (fetch_url source_settings (Cases.flaky 1 200 (lit "ok"))
                  (lit "u") Demo.fresh_world) = (Some status, Some text)
       | RequestException =>
           k = MAX_RETRIES source_settings
           /\ fst (fetch_url source_settings (Cases.flaky 1 200 (lit "ok"))
                     (lit "u") Demo.fresh_world) = (None, None)
       end.
Proof.
  apply (fetch_url_shape source_settings (Cases.flaky 1 200 (lit "ok"))
           (lit "u") Demo.fresh_world).
  - simpl. lia.
  - exact source_backoff_is_exact.
Defined.

(** ** More on the classifier *)

Lemma startswith_spec (p s : str) :
  startswith p s = true <-> exists post, s = p ++ post.
Proof.
  revert s. induction p as [|a p IH]; intros s.
  - split; [by exists s|done].
  - destruct s as [|b s]; cbn [startswith].
    + split; [done|]. by intros [post ?].
    + rewrite andb_true_iff, N.eqb_eq, IH. split.
      * intros [-> [post ->]]. by exists post.
      * intros [post [= -> ->]]. split; [done|]. by exists post.
Qed.

Lemma contains_spec (sub s : str) :
  contains sub s = true <-> exists pre post, s = pre ++ sub ++ post.
Proof.
  induction s as [|c s IH]; cbn [contains]; rewrite orb_true_iff.
  - split.
    + intros [[post H]%startswith_spec|?]; [|done]. by exists [], post.
    + intros (pre & post & H). left. apply startswith_spec.
      destruct pre; [by exists post|done].
  - rewrite IH. split.
    + intros [[post H]%startswith_spec|(pre & post & ->)].
      * by exists [], post.
      * by exists (c :: pre), post.
    + intros (pre & post & H). destruct pre as [|c' pre].
      * left. apply startswith_spec. by exists post.
      * right. injection H as -> ->. by exists pre, post.
Qed.

(** X4: the keyword test is a search for a substring: it holds exactly when
    "ингредиент", "рецепт" or "приготовление" occurs in the text, at any
    place. *)
Theorem has_keyword_is_substring_search (text : str) :
  has_keyword text = true <->
  exists kw pre post,
    (kw = kw_ingredient \/ kw = kw_recipe \/ kw = kw_preparation)
    /\ text = pre ++ kw ++ post.
Proof.
  unfold has_keyword. rewrite !orb_true_iff, !contains_spec. split.
  - intros [[(pre & post & ->)|(pre & post & ->)]|(pre & post & ->)];
      eexists _, pre, post; eauto.
  - intros (kw & pre & post & [-> | [-> | ->]] & ->); eauto 6.
Qed.

(** X5: the whole of [is_likely_recipe].  A page is taken for a recipe
    exactly when it has 800 characters or more and either its lower-cased
    text has more than 2000 characters, or the site key is "povarenok" or
    "koolinar" and the lower-cased text holds a keyword.  For any other site
    key the keywords are not looked at. *)
Theorem is_likely_recipe_spec {lib : PyLib} (html site_key : str) :
  is_likely_recipe html site_key = true <->
  800 <= length html
  /\ (2000 < length (str_lower html)
      \/ ((site_key = lit "povarenok" \/ site_key = lit "koolinar")
          /\ has_keyword (str_lower html) = true)).
Proof.
  unfold is_likely_recipe, has_keyword, str_eqb.
  destruct html as [|c html]; [simpl; split; [done|lia]|].
  destruct (Nat.ltb_spec (length (c :: html)) 800) as [Hshort|Hlong].
  { split; [done|]. intros [? _]. lia. }
  cbv zeta.
  destruct (Nat.ltb_spec 2000 (length (str_lower (c :: html)))) as [Hbig|Hsmall].
  { split; [auto|]. intros _. by repeat case_match. }
  repeat case_bool_decide; subst.
  - destruct (_ || _); split; try done; [by auto|].
    intros [_ [?|[_ ?]]]; [lia|done].
  - destruct (_ || _); split; try done; [by auto|].
    intros [_ [?|[_ ?]]]; [lia|done].
  - split; [done|]. intros [_ [?|[[?|?] _]]]; [lia|done|done].
Qed.

(** ** The text extractor *)

Lemma collapse_spaces_elem (in_run : bool) (text : str) (c : N) :
  c ∈ collapse_spaces in_run text -> is_space c = true -> c = 32%N.
Proof.
  revert in_run. induction text as [|d text IH]; intros in_run;
    cbn [collapse_spaces]; [by intros ?%elem_of_nil|].
  destruct (is_space d) eqn:Hd.
  - destruct in_run; [apply IH|].
    intros [->|?]%elem_of_cons; [done|by eapply IH].
  - intros [->|?]%elem_of_cons; [congruence|by eapply IH].
Qed.

Lemma collapse_spaces_head (text : str) (rest : str) :
  collapse_spaces true text ≠ 32%N :: rest.
Proof.
  induction text as [|d text IH]; cbn [collapse_spaces]; [done|].
  destruct (is_space d) eqn:Hd; [done|].
  intros [= -> _]. done.
Qed.

Lemma collapse_spaces_no_double (in_run : bool) (text pre post : str) :
  collapse_spaces in_run text ≠ pre ++ 32%N :: 32%N :: post.
Proof.
  revert in_run pre. induction text as [|d text IH]; intros in_run pre;
    cbn [collapse_spaces]; [by destruct pre|].
  destruct (is_space d) eqn:Hd.
  - destruct in_run; [apply IH|].
    destruct pre as [|p pre]; cbn [app].
    + intros [= H]. by apply collapse_spaces_head in H.
    + intros [= _ H]. by apply IH in H.
  - destruct pre as [|p pre]; cbn [app].
    + intros [= -> _]. done.
    + intros [= _ H]. by apply IH in H.
Qed.

(** X6: the text that [extract_text_from_html] returns has no white space
    but single spaces: every white-space character in it is a plain space
    (no tab, no line break), and no two spaces follow each other. *)
Theorem extract_text_has_single_spaces {lib : PyLib} (html : str) :
  (forall c, c ∈ extract_text_from_html html -> is_space c = true -> c = 32%N)
  /\ (forall pre post,
        extract_text_from_html html ≠ pre ++ 32%N :: 32%N :: post).
Proof.
  unfold extract_text_from_html. split.
  - intros c. apply collapse_spaces_elem.
  - intros pre post. apply collapse_spaces_no_double.
Qed.

Lemma count_words_collapse (in_run in_word : bool) (text : str) :
  (in_word = true -> in_run = false) ->
  count_words in_word (collapse_spaces in_run text) = count_words in_word text.
Proof.
  revert in_run in_word. induction text as [|d text IH];
    intros in_run in_word Hflags; [done|].
  cbn [collapse_spaces count_words].
  destruct (is_space d) eqn:Hd.
  - destruct in_run.
    + destruct in_word; [by specialize (Hflags eq_refl)|]. by apply IH.
    + cbn [count_words]. change (is_space 32) with true. cbv iota.
      by apply IH.
  - cbn [count_words]. rewrite Hd. destruct in_word; by rewrite IH.
Qed.

Lemma collapse_spaces_twice (in_run : bool) (text : str) :
  collapse_spaces in_run (collapse_spaces in_run text)
  = collapse_spaces in_run text.
Proof.
  revert in_run. induction text as [|d text IH]; intros in_run; [done|].
  cbn [collapse_spaces]. destruct (is_space d) eqn:Hd.
  - destruct in_run; [apply IH|]. cbn [collapse_spaces].
    change (is_space 32) with true. cbv iota. by rewrite IH.
  - cbn [collapse_spaces]. rewrite Hd. by rewrite IH.
Qed.

Lemma collapse_spaces_keeps_text (in_run : bool) (text : str) :
  List.filter (fun c => negb (is_space c)) (collapse_spaces in_run text)
  = List.filter (fun c => negb (is_space c)) text.
Proof.
  revert in_run. induction text as [|d text IH]; intros in_run; [done|].
  cbn [collapse_spaces List.filter]. destruct (is_space d) eqn:Hd; cbn [negb].
  - destruct in_run; [apply IH|]. cbn [List.filter].
    change (is_space 32) with true. cbn [negb]. apply IH.
  - cbn [List.filter]. rewrite Hd. cbn [negb]. by rewrite IH.
Qed.

(** X7: collapsing the white space loses no text.  The characters that are
    not white space come out as they went in, in the same order; the number
    of words, as [split()] counts them, is that of the text the parser
    gave; and collapsing a second time changes nothing. *)
Theorem extract_text_keeps_the_words {lib : PyLib} (html : str) :
  List.filter (fun c => negb (is_space c)) (extract_text_from_html html)
  = List.filter (fun c => negb (is_space c)) (soup_get_text html)
  /\ count_words false (extract_text_from_html html)
     = count_words false (soup_get_text html)
  /\ collapse_spaces false (extract_text_from_html html)
     = extract_text_from_html html.
Proof.
  unfold extract_text_from_html. split; [|split].
  - apply collapse_spaces_keeps_text.
  - by apply count_words_collapse.
  - apply collapse_spaces_twice.
Qed.

(** ** More on the ledger *)

Lemma size_list_to_set_le (ks : list key) :
  size (list_to_set ks : gset key) <= length ks.
Proof.
  induction ks as [|k ks IH]; [cbn; by rewrite size_empty|].
  cbn [list_to_set length]. rewrite size_union_alt, size_singleton.
  pose proof (subseteq_size (list_to_set ks ∖ {[k]}) (list_to_set ks : gset key)
                ltac:(set_solver)).
  lia.
Qed.

Lemma record_keys_app (md md' : list json) :
  record_keys (md ++ md') = record_keys md ++ record_keys md'.
Proof. unfold record_keys. apply omap_app. Qed.

Lemma load_lines_spec {lib : PyLib} (ls : list str) (seen seen' : gset key)
    (md md' : list json) :
  load_lines ls seen md = Ok (seen', md') <->
  exists new,
    Forall2 loads_as ls new
    /\ md' = md ++ new
    /\ seen' = list_to_set (record_keys new) ∪ seen.
Proof.
  revert seen md. induction ls as [|line ls IH]; intros seen md;
    cbn [load_lines].
  - split.
    + intros [= <- <-]. exists []. split; [constructor|].
      rewrite app_nil_r. split; [done|]. cbn. by rewrite union_empty_l_L.
    + intros (new & Hnew & -> & ->). apply Forall2_nil_inv_l in Hnew as ->.
      rewrite app_nil_r. cbn. by rewrite union_empty_l_L.
  - split.
    + destruct (json_loads line) as [obj|] eqn:Hobj; [|done].
      destruct (record_key obj) as [k|e] eqn:Hk; [|done].
      intros (new & Hnew & -> & ->)%IH. exists (obj :: new).
      split; [constructor; [split; eauto|done]|].
      rewrite <- app_assoc. split; [done|].
      unfold record_keys. cbn [omap list_omap]. rewrite Hk.
      cbn [list_to_set]. set_solver.
    + intros (new & Hnew & -> & ->).
      apply Forall2_cons_inv_l in Hnew as (obj & new' & [Hobj [k Hk]] & Hnew & ->).
      rewrite Hobj, Hk. apply IH. exists new'. split; [done|].
      rewrite <- app_assoc. split; [done|].
      unfold record_keys. cbn [omap list_omap]. rewrite Hk.
      cbn [list_to_set]. set_solver.
Qed.

Lemma record_keys_loads_as {lib : PyLib} (ls : list str) (md : list json) :
  Forall2 loads_as ls md -> length (record_keys md) = length md.
Proof.
  induction 1 as [|line obj ls md [_ [k Hk]] _ IH]; [done|].
  unfold record_keys in *. cbn [omap list_omap length]. rewrite Hk.
  cbn [length]. by rewrite IH.
Qed.

(** X8: what loading gives.  A ledger loads exactly when each of its lines
    parses to an object with a hashable identifier; the records are then
    these objects, one for each line and in the order of the lines, and the
    seen-set is the set of their identifiers.  Lines that repeat an
    identifier stay in the records and count once in the seen-set. *)
Theorem load_ledger_spec {lib : PyLib} (site_key : str) (w : world) (s : str)
    (seen : gset key) (md : list json) :
  files w !! meta_file site_key = Some (Text s) ->
  (load_ledger site_key w = (Ok (seen, md), w) <->
   Forall2 loads_as (read_lines s) md
   /\ seen = list_to_set (record_keys md))
  /\ (load_ledger site_key w = (Ok (seen, md), w) ->
      length md = length (read_lines s)
      /\ length (record_keys md) = length md
      /\ size seen <= length md).
Proof.
  intros Hfile. unfold load_ledger. rewrite Hfile.
  assert (load_lines (read_lines s) ∅ [] = Ok (seen, md) <->
          Forall2 loads_as (read_lines s) md
          /\ seen = list_to_set (record_keys md)) as Hspec.
  { rewrite load_lines_spec. split.
    - intros (new & Hnew & -> & ->). cbn [app].
      by rewrite union_empty_r_L.
    - intros [Hmd ->]. exists md. by rewrite union_empty_r_L. }
  split.
  - rewrite <- Hspec. split; [by intros [= ->]|by intros ->].
  - intros [= Hload]. apply Hspec in Hload as [Hmd ->].
    pose proof (record_keys_loads_as _ _ Hmd) as Hkeys.
    split; [symmetry; by eapply Forall2_length|]. split; [done|].
    rewrite <- Hkeys. apply size_list_to_set_le.
Qed.

Lemma record_key_raises (obj : json) (e : exn) :
  record_key obj = Raise e <->
  (e = KeyError /\ exists items, obj = JDict items /\ assoc (lit "id") items = None)
  \/ (e = TypeError
      /\ ((forall items, obj ≠ JDict items)
          \/ exists items v,
               obj = JDict items /\ assoc (lit "id") items = Some v
               /\ ((exists l, v = JList l) \/ exists kvs, v = JDict kvs))).
Proof.
  unfold record_key, getitem. split.
  - destruct obj as [| | | | |items];
      try (intros [= <-]; right; split; [done|by left]).
    destruct (assoc (lit "id") items) as [v|] eqn:Hid.
    + destruct v; cbn [hash_key]; try done; intros [= <-]; right;
        (split; [done|right]); eexists _, _; eauto.
    + intros [= <-]. left. eauto.
  - intros [[-> (items & -> & ->)]|[-> [Hnot|(items & v & -> & -> & Hv)]]].
    + done.
    + destruct obj; try done. by destruct (Hnot items).
    + by destruct Hv as [[l ->]|[kvs ->]].
Qed.

(** X9: a line that is valid JSON can still stop the load.  When the lines
    before it load, a line whose object has no "id" makes [collect_for_site]
    raise KeyError, and one that is not an object, or whose "id" is a list
    or an object, makes it raise TypeError; the world is left as it was, and
    the lines after are not read. *)
Theorem ledger_line_without_usable_id_aborts {lib : PyLib} (cfg : settings)
    (session : Session) (site_key : str) (site : site_cfg) (fuel : nat)
    (w : world) (s : str) (good rest : list str) (line : str) (obj : json)
    (md : list json) :
  files w !! meta_file site_key = Some (Text s) ->
  read_lines s = good ++ line :: rest ->
  Forall2 loads_as good md ->
  json_loads line = Some obj ->
  ((exists items, obj = JDict items /\ assoc (lit "id") items = None) ->
   collect_for_site cfg session site_key site fuel w = (Raised KeyError, w))
  /\ ((forall items, obj ≠ JDict items)
      \/ (exists items v,
            obj = JDict items /\ assoc (lit "id") items = Some v
            /\ ((exists l, v = JList l) \/ exists kvs, v = JDict kvs)) ->
      collect_for_site cfg session site_key site fuel w = (Raised TypeError, w)).
Proof.
  intros Hfile Hlines Hgood Hobj.
  assert (forall e, record_key obj = Raise e ->
            collect_for_site cfg session site_key site fuel w = (Raised e, w))
    as Hraise.
  { intros e He. unfold collect_for_site, load_ledger.
    rewrite Hfile, Hlines, load_lines_app.
    assert (load_lines good ∅ [] = Ok (list_to_set (record_keys md) ∪ ∅, [] ++ md))
      as -> by (apply load_lines_spec; eauto).
    cbn [load_lines]. by rewrite Hobj, He. }
  split; intros H; apply Hraise, record_key_raises; auto.
Qed.

Lemma load_ledger_spec_witness :
  load_ledger (lib := Demo.lib) (lit "povarenok")
    (Cases.ledger_world Cases.two_record_text)
  = (Ok (list_to_set [KInt 20000; KInt 19997], to_meta <$> Demo.two_documents),
     Cases.ledger_world Cases.two_record_text)
  <-> Forall2 (loads_as (lib := Demo.lib)) (read_lines Cases.two_record_text)
        (to_meta <$> Demo.two_documents)
      /\ (list_to_set [KInt 20000; KInt 19997] : gset key)
         = list_to_set (record_keys (to_meta <$> Demo.two_documents)).
Proof.
  apply (proj1 (load_ledger_spec (lib := Demo.lib) (lit "povarenok")
                  (Cases.ledger_world Cases.two_record_text)
                  Cases.two_record_text
                  (list_to_set [KInt 20000; KInt 19997])
                  (to_meta <$> Demo.two_documents)
                  (lookup_singleton_eq _ _))).
Defined.

Lemma ledger_line_without_usable_id_aborts_witness :
  collect_for_site (lib := Cases.lib) source_settings Demo.always_404
    (lit "povarenok") Demo.povarenok 5
    (Cases.ledger_world (lit "{}" ++ [LF]))
  = (Raised KeyError, Cases.ledger_world (lit "{}" ++ [LF])).
Proof.
  apply (proj1 (ledger_line_without_usable_id_aborts (lib := Cases.lib)
                  source_settings Demo.always_404 (lit "povarenok")
                  Demo.povarenok 5 (Cases.ledger_world (lit "{}" ++ [LF]))
                  (lit "{}" ++ [LF]) [] [] (lit "{}" ++ [LF]) (JDict []) []
                  (lookup_singleton_eq _ _) eq_refl (Forall2_nil_2 _ _ _)
                  eq_refl)).
  by exists [].
Defined.

(** X10: a ledger cut in the middle of a line, as a crash during a write
    leaves it, is not mended by the next append: the new record is written
    right after the partial text, and the two are read back as one line. *)
Theorem append_after_partial_line {lib : PyLib} {laws : PyLibLaws lib}
    (site_key : str) (w w' : world) (whole partial : str) (meta : json) :
  files w !! meta_file site_key = Some (Text (whole ++ partial)) ->
  terminated whole ->
  partial ≠ [] -> LF ∉ partial -> CR ∉ partial ->
  append_ledger site_key meta w = (Ok tt, w') ->
  files w' !! meta_file site_key
  = Some (Text (whole ++ partial ++ json_dumps meta ++ [LF]))
  /\ read_lines (whole ++ partial ++ json_dumps meta ++ [LF])
     = read_lines whole ++ [partial ++ json_dumps meta ++ [LF]].
Proof.
  intros Hfile Hwhole Hpartial Hlf Hcr. unfold append_ledger, append_text_file.
  rewrite Hfile. cbn [default from_option id].
  destruct (encode_utf8 _); [|done]. intros [= <-]. split.
  - cbn [files write_file]. rewrite lookup_insert_eq.
    by rewrite <- !app_assoc.
  - pose proof (read_lines_append whole (partial ++ json_dumps meta) Hwhole)
      as Happ.
    rewrite <- !app_assoc in Happ. apply Happ.
    + rewrite not_elem_of_app. split; [done|apply dumps_no_CR].
    + rewrite not_elem_of_app. split; [done|apply dumps_no_LF].
Qed.

Lemma append_after_partial_line_witness :
  read_lines (Cases.two_record_text ++ lit "{partial"
              ++ json_dumps (PyLib := Demo.lib)
                   (to_meta Cases.sample) ++ [LF])
  = read_lines Cases.two_record_text
    ++ [lit "{partial"
        ++ json_dumps (PyLib := Demo.lib) (to_meta Cases.sample)
        ++ [LF]].
Proof.
  eapply proj2.
  apply (append_after_partial_line (laws := demo_laws) (lit "povarenok")
           (Cases.ledger_world (Cases.two_record_text ++ lit "{partial"))
           (snd (append_ledger (lib := Demo.lib) (lit "povarenok")
                   (to_meta Cases.sample)
                   (Cases.ledger_world
                      (Cases.two_record_text ++ lit "{partial"))))
           Cases.two_record_text (lit "{partial")
           (to_meta Cases.sample)
           (lookup_singleton_eq _ _)).
  - right. vm_compute. reflexivity.
  - discriminate.
  - vm_compute. intros H. repeat (apply elem_of_cons in H as [H|H]; [discriminate H|]).
    by apply elem_of_nil in H.
  - vm_compute. intros H. repeat (apply elem_of_cons in H as [H|H]; [discriminate H|]).
    by apply elem_of_nil in H.
  - vm_compute. reflexivity.
Defined.

(** ** More on the walk *)

Section WalkMore.
Context {lib : PyLib}.
Variable cfg : settings.
Variable session : Session.
Variable site_key : str.
Variable site : site_cfg.

(** The three files a turn can write, and nothing else. *)
Lemma persist_frame (st : walk) (url body : str) (status : Z) (w w' : world)
    (r : result walk) (path : str) :
  persist site_key st url body status w = (r, w') ->
  path ≠ path_join (raw_dir site_key) (str_of_Z (current_id st) ++ lit ".html") ->
  path ≠ path_join (text_dir site_key) (str_of_Z (current_id st) ++ lit ".txt") ->
  path ≠ meta_file site_key ->
  files w' !! path = files w !! path.
Proof.
  unfold persist. intros Hrun Hraw Htext Hmeta.
  destruct (encode_utf8 body) as [data|]; [|by injection Hrun as _ <-].
  unfold io_bind, save_file, io_do, save_text_file in Hrun.
  set (raw_path := path_join (raw_dir site_key) _) in *.
  set (text_path := path_join (text_dir site_key) _) in *.
  destruct (encode_utf8 (extract_text_from_html body)) as [tb|].
  2:{ injection Hrun as _ <-. cbn [files write_file].
      by rewrite !lookup_insert_ne. }
  set (w1 := write_file text_path _ (write_file raw_path _ w)) in *.
  assert (files w1 !! path = files w !! path) as Hw1.
  { subst w1. cbn [files write_file]. by rewrite !lookup_insert_ne. }
  rewrite (st_size_bytes raw_path data w1),
    (st_size_text text_path (extract_text_from_html body) w1) in Hrun.
  2:{ subst w1. cbn [files write_file]. apply lookup_insert_eq. }
  2:{ subst w1. cbn [files write_file].
      rewrite lookup_insert_ne by apply text_path_not_raw_path.
      apply lookup_insert_eq. }
  cbv beta iota zeta in Hrun.
  unfold append_ledger, append_text_file in Hrun.
  destruct (encode_utf8 (json_dumps _ ++ [LF])).
  - destruct (default _ _); injection Hrun as _ <-; cbn [files write_file];
      by rewrite lookup_insert_ne.
  - injection Hrun as _ <-. cbn [files write_file].
    by rewrite lookup_insert_ne.
Qed.

Lemma persist_files (st st' : walk) (url body : str) (status : Z)
    (w w' : world) :
  persist site_key st url body status w = (Ok st', w') ->
  let d := page_document site_key (current_id st) url body status in
  writable site_key (current_id st) url body status = true
  /\ st' = {| seen_ids := {[KInt (current_id st)]} ∪ seen_ids st;
              metadata := metadata st ++ [to_meta d];
              current_id := current_id st;
              attempts := attempts st |}
  /\ (exists data, encode_utf8 body = Some data
                   /\ files w' !! doc_raw_path d = Some (Bytes data)
                   /\ doc_raw_size d = length data)
  /\ files w' !! doc_text_path d = Some (Text (extract_text_from_html body))
  /\ (forall old, default (Text []) (files w !! meta_file site_key) = Text old ->
        files w' !! meta_file site_key
        = Some (Text (old ++ json_dumps (to_meta d) ++ [LF]))).
Proof.
  intros Hrun d. unfold persist, writable, encodable in *.
  destruct (encode_utf8 body) as [data|] eqn:Hbody; [|done].
  unfold io_bind, save_file, io_do, save_text_file in Hrun.
  cbn [doc_raw_path doc_text_path doc_raw_size d page_document].
  set (raw_path := path_join (raw_dir site_key) _) in *.
  set (text_path := path_join (text_dir site_key) _) in *.
  destruct (encode_utf8 (extract_text_from_html body)) as [tb|] eqn:Htext;
    [|done].
  set (w1 := write_file text_path _ (write_file raw_path _ w)) in *.
  rewrite (st_size_bytes raw_path data w1),
    (st_size_text text_path (extract_text_from_html body) w1) in Hrun.
  2:{ subst w1. cbn [files write_file]. apply lookup_insert_eq. }
  2:{ subst w1. cbn [files write_file].
      rewrite lookup_insert_ne by apply text_path_not_raw_path.
      apply lookup_insert_eq. }
  cbv beta iota zeta in Hrun. rewrite Htext in Hrun.
  change (default [] (Some tb)) with tb in Hrun.
  assert (mk_meta (current_id st) url raw_path text_path (length data)
            (length tb) (count_words false (extract_text_from_html body))
            status = to_meta d) as Hmeta.
  { subst d. unfold to_meta, page_document. cbn. by rewrite Hbody, Htext. }
  rewrite Hmeta in Hrun. rewrite Hbody. cbn [default from_option id].
  unfold append_ledger, append_text_file in Hrun.
  assert (files w1 !! meta_file site_key = files w !! meta_file site_key) as Hw1.
  { subst w1. cbn [files write_file].
    rewrite !lookup_insert_ne;
      [done|apply raw_path_not_ledger|apply text_path_not_ledger]. }
  rewrite Hw1 in Hrun. fold d.
  destruct (encode_utf8 (json_dumps (to_meta d) ++ [LF])); [|done].
  cbn [andb].
  destruct (default (Text []) (files w !! meta_file site_key)) as [b|old] eqn:Hold;
    injection Hrun as <- <-; cbn [files write_file].
  - split; [done|]. split; [done|]. split; [|split; [|done]].
    + exists data. split; [done|]. split; [|done].
      rewrite lookup_insert_ne by (symmetry; apply raw_path_not_ledger).
      subst w1. cbn [files write_file].
      rewrite lookup_insert_ne by apply text_path_not_raw_path.
      apply lookup_insert_eq.
    + rewrite lookup_insert_ne by (symmetry; apply text_path_not_ledger).
      subst w1. cbn [files write_file]. apply lookup_insert_eq.
  - split; [done|]. split; [done|]. split; [|split].
    + exists data. split; [done|]. split; [|done].
      rewrite lookup_insert_ne by (symmetry; apply raw_path_not_ledger).
      subst w1. cbn [files write_file].
      rewrite lookup_insert_ne by apply text_path_not_raw_path.
      apply lookup_insert_eq.
    + rewrite lookup_insert_ne by (symmetry; apply text_path_not_ledger).
      subst w1. cbn [files write_file]. apply lookup_insert_eq.
    + intros old' [= <-]. apply lookup_insert_eq.
Qed.

Lemma persist_trace (st : walk) (url body : str) (status : Z) (w w' : world)
    (r : result walk) :
  persist site_key st url body status w = (r, w') -> trace w' = trace w.
Proof.
  unfold persist. intros Hrun.
  destruct (encode_utf8 body) as [data|]; [|by injection Hrun as _ <-].
  unfold io_bind, save_file, io_do, save_text_file in Hrun.
  set (raw_path := path_join (raw_dir site_key) _) in *.
  set (text_path := path_join (text_dir site_key) _) in *.
  destruct (encode_utf8 (extract_text_from_html body)) as [tb|];
    [|by injection Hrun as _ <-].
  set (w1 := write_file text_path _ (write_file raw_path _ w)) in *.
  rewrite (st_size_bytes raw_path data w1),
    (st_size_text text_path (extract_text_from_html body) w1) in Hrun.
  2:{ subst w1. cbn [files write_file]. apply lookup_insert_eq. }
  2:{ subst w1. cbn [files write_file].
      rewrite lookup_insert_ne by apply text_path_not_raw_path.
      apply lookup_insert_eq. }
  cbv beta iota zeta in Hrun.
  destruct (append_ledger _ _ _) as [[[]|e] w2] eqn:Happ;
    apply append_ledger_trace in Happ; injection Hrun as _ <-; by rewrite Happ.
Qed.

(** The paths of a site lie in its directory. *)
Lemma raw_path_in_site_dir (name : str) :
  (site_dir site_key ++ lit "/") `prefix_of` path_join (raw_dir site_key) name.
Proof.
  unfold raw_dir, path_join. rewrite <- !app_assoc. rewrite (app_assoc _ (lit "/")).
  by eexists.
Qed.

Lemma text_path_in_site_dir (name : str) :
  (site_dir site_key ++ lit "/") `prefix_of` path_join (text_dir site_key) name.
Proof.
  unfold text_dir, path_join. rewrite <- !app_assoc. rewrite (app_assoc _ (lit "/")).
  by eexists.
Qed.

Lemma ledger_in_site_dir :
  (site_dir site_key ++ lit "/") `prefix_of` meta_file site_key.
Proof.
  unfold meta_file, path_join. rewrite <- !app_assoc. rewrite (app_assoc _ (lit "/")).
  by eexists.
Qed.

Lemma loop_body_frame (st : walk) (w w' : world) (r : result walk) (path : str) :
  loop_body cfg session site_key site st w = (r, w') ->
  ¬ (site_dir site_key ++ lit "/") `prefix_of` path ->
  files w' !! path = files w !! path.
Proof.
  intros Hbody Hout. pose proof (loop_body_step cfg session site_key site st w)
    as Hstep.
  destruct (str_format _ _) as [e|url].
  { rewrite Hbody in Hstep. by simplify_eq. }
  destruct (decide _).
  { rewrite Hbody in Hstep. by simplify_eq. }
  cbv zeta in Hstep.
  pose proof (fetch_attempts_files cfg session url
                (seq 1 (MAX_RETRIES cfg)) 1%Q w) as Hfiles.
  fold (fetch_url cfg session url w) in Hfiles.
  destruct (fetch_url cfg session url w) as [[status body] w0].
  cbn [fst snd] in *.
  destruct (accepted site_key status body) as [[s b]|].
  - destruct (persist site_key st url b s w0) as [[st1|e] w1] eqn:Hp;
      rewrite Hbody in Hstep; simplify_eq; rewrite ?files_throttled;
      (erewrite persist_frame; [by rewrite Hfiles|exact Hp|..]);
      intros ->; apply Hout;
      auto using raw_path_in_site_dir, text_path_in_site_dir, ledger_in_site_dir.
  - rewrite Hbody in Hstep. simplify_eq. by rewrite files_throttled, Hfiles.
Qed.

Lemma while_loop_frame (fuel : nat) (st : walk) (w w' : world) (o : outcome)
    (path : str) :
  while_loop cfg session site_key site fuel st w = (o, w') ->
  ¬ (site_dir site_key ++ lit "/") `prefix_of` path ->
  files w' !! path = files w !! path.
Proof.
  intros Hrun Hout. revert st w Hrun.
  induction fuel as [|fuel IH]; intros st w; cbn [while_loop].
  - destruct (_ <? _)%Z; by intros [= _ <-].
  - destruct (_ <? _)%Z; [|by intros [= _ <-]].
    destruct (loop_body cfg session site_key site st w) as [[st1|e] w1] eqn:Hbody.
    + intros Hrun. rewrite (IH _ _ Hrun). by eapply loop_body_frame.
    + intros [= _ <-]. by eapply loop_body_frame.
Qed.

End WalkMore.

Lemma slash_free_head (a b x y : str) :
  47%N ∉ a -> 47%N ∉ b -> a ++ 47%N :: x = b ++ 47%N :: y -> a = b.
Proof.
  revert b. induction a as [|c a IH]; intros b Ha Hb Heq.
  - destruct b as [|d b]; [done|]. injection Heq as <- _. set_solver.
  - destruct b as [|d b].
    + injection Heq as -> _. set_solver.
    + injection Heq as -> Heq. f_equal. apply IH; [set_solver|set_solver|done].
Qed.

Lemma other_site_dir_is_apart (site_key other : str) (rest : str) :
  site_key ≠ other -> 47%N ∉ site_key -> 47%N ∉ other ->
  ¬ (site_dir site_key ++ lit "/")
      `prefix_of` (site_dir other ++ lit "/" ++ rest).
Proof.
  intros Hne Hk Ho [t Ht]. unfold site_dir, path_join in Ht.
  rewrite <- !app_assoc in Ht. apply app_inv_head in Ht.
  change (lit "/") with [47%N] in Ht. cbn [app] in Ht.
  injection Ht as Ht. symmetry in Ht.
  by apply slash_free_head in Ht.
Qed.

Lemma povarenok_is_plain : plain_name (lit "povarenok").
Proof.
  split; [discriminate|]. split; [discriminate|].
  vm_compute. intros H.
  repeat (apply elem_of_cons in H as [H|H]; [discriminate H|]).
  by apply elem_of_nil in H.
Qed.

Lemma koolinar_is_plain : plain_name (lit "koolinar").
Proof.
  split; [discriminate|]. split; [discriminate|].
  vm_compute. intros H.
  repeat (apply elem_of_cons in H as [H|H]; [discriminate H|]).
  by apply elem_of_nil in H.
Qed.

(** X11: a walk writes in the directory of its site only.  For a site key
    that is a plain name (not empty, not ".", without "/"), whatever the
    network answers and however the walk ends, a path that does not start
    with "recipes_corpus/<site_key>/" is not written; so the ledger and the
    pages of another site, whose key is another plain name, are out of
    reach. *)
Theorem walk_writes_in_its_directory {lib : PyLib} (cfg : settings)
    (session : Session) (site_key : str) (site : site_cfg) (fuel : nat)
    (w w' : world) (o : outcome) :
  plain_name site_key ->
  collect_for_site cfg session site_key site fuel w = (o, w') ->
  (forall path,
     ¬ (OUTPUT_DIR ++ lit "/" ++ site_key ++ lit "/") `prefix_of` path ->
     files w' !! path = files w !! path)
  /\ (forall other rest,
        plain_name other -> site_key ≠ other ->
        files w' !! (OUTPUT_DIR ++ lit "/" ++ other ++ lit "/" ++ rest)
        = files w !! (OUTPUT_DIR ++ lit "/" ++ other ++ lit "/" ++ rest)).
Proof.
  intros (_ & _ & Hk) Hrun.
  assert (forall path,
     ¬ (site_dir site_key ++ lit "/") `prefix_of` path ->
     files w' !! path = files w !! path) as Hframe.
  { intros path Hout. unfold collect_for_site in Hrun.
    destruct (load_ledger site_key w) as [[[seen md]|e] w0] eqn:Hload.
    - assert (w0 = w) as ->.
      { unfold load_ledger in Hload. by repeat case_match; simplify_eq. }
      by eapply while_loop_frame.
    - unfold load_ledger in Hload. by repeat case_match; simplify_eq. }
  split.
  - intros path Hout. apply Hframe. intros Hin. apply Hout.
    unfold site_dir, path_join in Hin. by rewrite <- !app_assoc in Hin.
  - intros other rest (_ & _ & Ho) Hne.
    change (OUTPUT_DIR ++ lit "/" ++ other ++ lit "/" ++ rest)
      with (site_dir other ++ lit "/" ++ rest).
    apply Hframe. by apply other_site_dir_is_apart.
Qed.

Lemma walk_writes_in_its_directory_witness :
  files (snd Demo.first_run)
  !! (OUTPUT_DIR ++ lit "/" ++ lit "koolinar" ++ lit "/" ++ lit "meta/meta.jsonl")
  = files Demo.fresh_world
    !! (OUTPUT_DIR ++ lit "/" ++ lit "koolinar" ++ lit "/" ++ lit "meta/meta.jsonl").
Proof.
  apply (proj2 (walk_writes_in_its_directory (lib := Demo.lib) Demo.target_3
                  (Demo.scripted Demo.ten_pages) (lit "povarenok")
                  Demo.povarenok 3 Demo.fresh_world (snd Demo.first_run)
                  (fst Demo.first_run) povarenok_is_plain
                  (surjective_pairing _))
           (lit "koolinar") (lit "meta/meta.jsonl") koolinar_is_plain).
  discriminate.
Defined.

(** X12: what an accepted page leaves behind, for a site key that is a
    plain name (not empty, not ".", without "/").  When [persist] returns,
    the raw file "recipes_corpus/<site_key>/raw/<id>.html" holds the UTF-8
    bytes of the body, the text file "recipes_corpus/<site_key>/text/<id>.txt"
    holds the extracted text, the ledger has gained exactly the line of the
    new record, whose raw size is the number of bytes written, and the
    record and its identifier have joined the state; no other path has been
    written and no event was logged.  A record in the ledger thus has its
    two files. *)
Theorem accepted_page_is_stored {lib : PyLib} (site_key : str)
    (st st' : walk) (url body : str) (status : Z) (w w' : world) :
  plain_name site_key ->
  persist site_key st url body status w = (Ok st', w') ->
  let d := page_document site_key (current_id st) url body status in
  doc_raw_path d
  = OUTPUT_DIR ++ lit "/" ++ site_key ++ lit "/raw/"
    ++ str_of_Z (current_id st) ++ lit ".html"
  /\ doc_text_path d
     = OUTPUT_DIR ++ lit "/" ++ site_key ++ lit "/text/"
       ++ str_of_Z (current_id st) ++ lit ".txt"
  /\ st' = {| seen_ids := {[KInt (current_id st)]} ∪ seen_ids st;
           metadata := metadata st ++ [to_meta d];
           current_id := current_id st;
           attempts := attempts st |}
  /\ (exists data, encode_utf8 body = Some data
                   /\ files w' !! doc_raw_path d = Some (Bytes data)
                   /\ doc_raw_size d = length data)
  /\ files w' !! doc_text_path d = Some (Text (extract_text_from_html body))
  /\ (forall old, default (Text []) (files w !! meta_file site_key) = Text old ->
        files w' !! meta_file site_key
        = Some (Text (old ++ json_dumps (to_meta d) ++ [LF])))
  /\ (forall path, path ≠ doc_raw_path d -> path ≠ doc_text_path d ->
                   path ≠ meta_file site_key ->
                   files w' !! path = files w !! path)
  /\ trace w' = trace w.
Proof.
  intros _ Hrun d.
  destruct (persist_files site_key _ _ _ _ _ _ _ Hrun) as (_ & H1 & H2 & H3 & H4).
  split.
  { unfold d, page_document, raw_dir, site_dir, path_join. cbn [doc_raw_path].
    by rewrite <- !app_assoc. }
  split.
  { unfold d, page_document, text_dir, site_dir, path_join. cbn [doc_text_path].
    by rewrite <- !app_assoc. }
  split; [done|]. split; [done|]. split; [done|]. split; [done|]. split.
  - intros path Hr Ht Hm.
    eapply persist_frame; [exact Hrun|exact Hr|exact Ht|exact Hm].
  - by eapply persist_trace.
Qed.

Lemma accepted_page_is_stored_witness :
  trace (snd (persist (lib := Demo.lib) (lit "povarenok") Cases.walk_at_7
                (lit "u") Demo.keyword_page 200 Demo.fresh_world))
  = trace Demo.fresh_world.
Proof.
  eapply proj2, proj2, proj2, proj2, proj2, proj2, proj2.
  apply (accepted_page_is_stored (lib := Demo.lib) (lit "povarenok")
           Cases.walk_at_7
           {| seen_ids := {[KInt 7]} ∪ ∅;
              metadata :=
                [] ++ [to_meta (page_document (lib := Demo.lib)
                                  (lit "povarenok") 7 (lit "u")
                                  Demo.keyword_page 200)];
              current_id := 7;
              attempts := 0 |}
           (lit "u") Demo.keyword_page 200 Demo.fresh_world _
           povarenok_is_plain).
  vm_compute. reflexivity.
Defined.

(** X13: [persist] can complete only if the page, its text and its ledger
    line can be encoded as UTF-8.  A page that cannot be encoded (it holds a
    lone surrogate) stops it with UnicodeEncodeError before any file is
    written; and whenever [persist] raises, the ledger still loads to the
    records it held: no record is half written. *)
Theorem persist_needs_encodable_text {lib : PyLib} {laws : PyLibLaws lib}
    (site_key : str) (st : walk) (url body : str) (status : Z) (w : world) :
  (forall st' w',
     persist site_key st url body status w = (Ok st', w') ->
     writable site_key (current_id st) url body status = true)
  /\ (encode_utf8 body = None ->
      persist site_key st url body status w = (Raise UnicodeEncodeError, w))
  /\ (forall e w' seen md,
        persist site_key st url body status w = (Raise e, w') ->
        ledger_holds site_key w seen md ->
        ledger_holds site_key w' seen md).
Proof.
  destruct (persist_run site_key st url body status w)
    as (r & w1 & Hrun & _ & Hr).
  split; [|split].
  - intros st' w' Hok. by apply persist_files in Hok as [? _].
  - intros Hbody. unfold persist. by rewrite Hbody.
  - intros e w' seen md Hraise. rewrite Hraise in Hrun.
    injection Hrun as <- <-. by apply Hr.
Qed.

Lemma persist_needs_encodable_text_witness :
  persist (lib := Demo.lib) (lit "povarenok") Cases.walk_at_7 (lit "u")
    Cases.surrogate_page 200 Demo.fresh_world
  = (Raise UnicodeEncodeError, Demo.fresh_world).
Proof.
  apply (proj1 (proj2 (persist_needs_encodable_text (lib := Demo.lib)
                         (laws := demo_laws) (lit "povarenok")
                         Cases.walk_at_7 (lit "u") Cases.surrogate_page 200
                         Demo.fresh_world))).
  vm_compute. reflexivity.
Defined.

Lemma throttles_emit (e : event) (w : world) :
  throttles (emit e w) = (if is_throttle e then 1 else 0) + throttles w.
Proof.
  unfold throttles, emit. cbn [trace].
  rewrite List.filter_app, length_app. cbn [List.filter].
  destruct (is_throttle e); simpl; lia.
Qed.

Lemma throttles_throttled (cfg : settings) (n : Z) (found : nat) (w : world) :
  throttles (throttled cfg n found w) = S (throttles w).
Proof.
  unfold throttled. destruct (_ && _); by rewrite !throttles_emit.
Qed.

Lemma fetch_attempts_budget (cfg : settings) (session : Session) (url : str)
    (todo : list nat) (wait : Q) (w : world) :
  requests (snd (fetch_attempts cfg session url todo wait w))
  <= requests w + length todo
  /\ throttles (snd (fetch_attempts cfg session url todo wait w)) = throttles w.
Proof.
  revert wait w. induction todo as [|attempt todo IH]; intros wait w;
    cbn [fetch_attempts length snd]; [split; [lia|done]|].
  destruct (session_get _ _ _).
  - destruct (attempt =? MAX_RETRIES cfg); cbn [snd].
    + rewrite requests_emit, throttles_emit. cbn. split; [lia|done].
    + destruct (IH (wait * BACKOFF_FACTOR cfg)%Q
                  (emit (ESleep wait) (emit (EGet url) w))) as [H1 H2].
      rewrite !requests_emit in H1. rewrite !throttles_emit in H2.
      cbn in H1, H2. split; [lia|done].
  - cbn [snd]. rewrite requests_emit, throttles_emit. cbn. split; [lia|done].
Qed.

(** What [fetch_url] returns is (None, None) or a response of the network. *)
Lemma fetch_attempts_result (cfg : settings) (session : Session) (url : str)
    (todo : list nat) (wait : Q) (w : world) :
  fst (fetch_attempts cfg session url todo wait w) = (None, None)
  \/ exists n status text,
       session_get session n url = Response status text
       /\ fst (fetch_attempts cfg session url todo wait w)
          = (Some status, Some text).
Proof.
  revert wait w. induction todo as [|attempt todo IH]; intros wait w;
    cbn [fetch_attempts]; [by left|].
  destruct (session_get session (requests w) url) as [|status text] eqn:Hget.
  - destruct (attempt =? MAX_RETRIES cfg); [by left|apply IH].
  - right. by exists (requests w), status, text.
Qed.

Section WalkBudget.
Context {lib : PyLib}.
Variable cfg : settings.
Variable session : Session.
Variable site_key : str.
Variable site : site_cfg.

Lemma loop_body_budget (st : walk) (w w' : world) (r : result walk) :
  loop_body cfg session site_key site st w = (r, w') ->
  requests w' <= requests w + MAX_RETRIES cfg
  /\ match r with
     | Ok st' =>
         (attempts st' = attempts st /\ w' = w)
         \/ (attempts st' = (attempts st + 1)%Z
             /\ throttles w' = S (throttles w))
     | Raise _ => throttles w' = throttles w
     end.
Proof.
  intros Hbody.
  pose proof (loop_body_step cfg session site_key site st w) as Hstep.
  destruct (str_format _ _) as [e|url].
  { rewrite Hbody in Hstep. simplify_eq. split; [lia|done]. }
  destruct (decide _).
  { rewrite Hbody in Hstep. simplify_eq. split; [lia|by left]. }
  cbv zeta in Hstep.
  destruct (fetch_attempts_budget cfg session url (seq 1 (MAX_RETRIES cfg))
              1%Q w) as [Hreq Hthr].
  fold (fetch_url cfg session url w) in Hreq, Hthr.
  rewrite length_seq in Hreq.
  destruct (fetch_url cfg session url w) as [[status body] w0].
  cbn [fst snd] in *.
  destruct (accepted site_key status body) as [[s b]|].
  - destruct (persist site_key st url b s w0) as [[st1|e] w1] eqn:Hp;
      rewrite Hbody in Hstep; simplify_eq;
      apply persist_trace in Hp.
    + rewrite requests_throttled, throttles_throttled.
      rewrite (requests_same_trace _ _ Hp). unfold throttles in *.
      rewrite Hp. split; [done|]. right. by rewrite Hthr.
    + rewrite (requests_same_trace _ _ Hp). unfold throttles in *.
      by rewrite Hp.
  - rewrite Hbody in Hstep. simplify_eq.
    rewrite requests_throttled, throttles_throttled. split; [done|].
    right. by rewrite Hthr.
Qed.

Lemma while_loop_budget (fuel : nat) (st : walk) (w w' : world) (o : outcome) :
  while_loop cfg session site_key site fuel st w = (o, w') ->
  exists n : nat,
    throttles w' = throttles w + n
    /\ requests w' <= requests w
                      + MAX_RETRIES cfg
                        * (n + match o with Raised _ => 1 | _ => 0 end)
    /\ match o with
       | Running st' => attempts st' = (attempts st + Z.of_nat n)%Z
       | _ => True
       end.
Proof.
  revert st w. induction fuel as [|fuel IH]; intros st w; cbn [while_loop].
  - destruct (_ <? _)%Z; intros [= <- <-]; exists 0;
      (split; [lia|split; [lia|]]); [lia|done].
  - destruct (_ <? _)%Z.
    2:{ intros [= <- <-]. exists 0. split; [lia|split; [lia|done]]. }
    destruct (loop_body cfg session site_key site st w) as [[st1|e] w1] eqn:Hbody;
      apply loop_body_budget in Hbody as [Hreq Hcase].
    + intros (n & Hthr & Hreq' & Ho)%IH.
      destruct Hcase as [[Hatt ->]|[Hatt Hthr1]].
      * exists n. rewrite Hatt in Ho. done.
      * exists (S n). split; [lia|]. split; [nia|].
        destruct o; [done|done|lia].
    + intros [= <- <-]. exists 0. split; [lia|]. split; [lia|done].
Qed.

End WalkBudget.

(** X14: the rate limit holds on every run.  Between two sleeps of the rate
    limiter the walk sends at most MAX_RETRIES requests: a run that has slept
    [n] times has sent at most [n] times MAX_RETRIES requests (one more
    batch when it was stopped by an exception), and when it is stopped short
    its attempt counter is [n]. *)
Theorem walk_is_rate_limited {lib : PyLib} (cfg : settings) (session : Session)
    (site_key : str) (site : site_cfg) (fuel : nat) (w w' : world)
    (o : outcome) :
  collect_for_site cfg session site_key site fuel w = (o, w') ->
  exists n : nat,
    throttles w' = throttles w + n
    /\ requests w' <= requests w
                      + MAX_RETRIES cfg
                        * (n + match o with Raised _ => 1 | _ => 0 end)
    /\ match o with
       | Running st' => attempts st' = Z.of_nat n
       | _ => True
       end.
Proof.
  unfold collect_for_site.
  destruct (load_ledger site_key w) as [[[seen md]|e] w0] eqn:Hload.
  - assert (w0 = w) as ->.
    { unfold load_ledger in Hload. by repeat case_match; simplify_eq. }
    intros (n & ? & ? & Ho)%while_loop_budget. exists n.
    split; [done|]. split; [done|]. by destruct o.
  - assert (w0 = w) as ->.
    { unfold load_ledger in Hload. by repeat case_match; simplify_eq. }
    intros [= <- <-]. exists 0. split; [lia|]. split; [lia|done].
Qed.

Lemma walk_is_rate_limited_witness :
  exists n : nat,
    throttles (snd Demo.second_run) = throttles (snd Demo.first_run) + n
    /\ requests (snd Demo.second_run)
       <= requests (snd Demo.first_run)
          + MAX_RETRIES Demo.target_3
            * (n + match fst Demo.second_run with Raised _ => 1 | _ => 0 end)
    /\ match fst Demo.second_run with
       | Running st' => attempts st' = Z.of_nat n
       | _ => True
       end.
Proof.
  apply (walk_is_rate_limited (lib := Demo.lib) Demo.target_3
           (Demo.scripted Demo.ten_pages) (lit "povarenok") Demo.povarenok 20
           (snd Demo.first_run) (snd Demo.second_run) (fst Demo.second_run)
           (surjective_pairing _)).
Defined.

(** X15: the walk has no way out but the target.  From a missing ledger and
    with a target above zero, on a site where no response holds a document
    (every request fails, or every page is turned down), the walker never
    returns: whatever the fuel, it is still running when the fuel is spent,
    having made one attempt and one sleep for each turn, found nothing and
    written nothing. *)
Theorem walk_without_documents_never_returns {lib : PyLib} (cfg : settings)
    (session : Session) (site_key : str) (site : site_cfg) (w : world) :
  files w !! meta_file site_key = None ->
  (0 < TARGET_PER_SITE cfg)%Z ->
  (forall id, exists url, str_format (pattern site) id = inr url) ->
  (forall n url status text,
     session_get session n url = Response status text ->
     accepted site_key (Some status) (Some text) = None) ->
  forall fuel, exists st w',
    collect_for_site cfg session site_key site fuel w = (Running st, w')
    /\ attempts st = Z.of_nat fuel
    /\ current_id st = candidate site fuel
    /\ seen_ids st = ∅ /\ metadata st = []
    /\ files w' = files w
    /\ throttles w' = throttles w + fuel.
Proof.
  intros Hnone Hpos Hformat Hreject fuel.
  unfold collect_for_site, load_ledger. rewrite Hnone.
  assert (forall (k : nat) (st : walk) (w0 : world),
    seen_ids st = ∅ -> metadata st = [] ->
    exists st' w',
      while_loop cfg session site_key site k st w0 = (Running st', w')
      /\ attempts st' = (attempts st + Z.of_nat k)%Z
      /\ current_id st' = (current_id st + Z.of_nat k * step site)%Z
      /\ seen_ids st' = ∅ /\ metadata st' = []
      /\ files w' = files w0
      /\ throttles w' = throttles w0 + k) as Hloop.
  { induction k as [|k IH]; intros st w0 Hseen Hmd; cbn [while_loop];
      rewrite Hseen, size_empty;
      destruct (Z.ltb_spec (Z.of_nat 0) (TARGET_PER_SITE cfg)); try lia.
    { exists st, w0. repeat split; try done; lia. }
    pose proof (loop_body_step cfg session site_key site st w0) as Hstep.
    destruct (Hformat (current_id st)) as [url Hurl]. rewrite Hurl in Hstep.
    rewrite decide_False in Hstep by (rewrite Hseen; apply not_elem_of_empty).
    cbv zeta in Hstep.
    pose proof (fetch_attempts_files cfg session url
                  (seq 1 (MAX_RETRIES cfg)) 1%Q w0) as Hfiles.
    destruct (fetch_attempts_budget cfg session url (seq 1 (MAX_RETRIES cfg))
                1%Q w0) as [_ Hthr].
    pose proof (fetch_attempts_result cfg session url
                  (seq 1 (MAX_RETRIES cfg)) 1%Q w0) as Hres.
    fold (fetch_url cfg session url w0) in Hfiles, Hthr, Hres.
    destruct (fetch_url cfg session url w0) as [[status body] w1].
    cbn [fst snd] in *.
    assert (accepted site_key status body = None) as Hacc.
    { destruct Hres as [[= -> ->]|(n & s & t & Hget & [= -> ->])]; [done|].
      by eapply Hreject. }
    rewrite Hacc in Hstep. rewrite Hstep.
    edestruct (IH {| seen_ids := seen_ids st; metadata := metadata st;
                     current_id := current_id st + step site;
                     attempts := attempts st + 1 |}
                 (throttled cfg (attempts st + 1) (size (seen_ids st)) w1))
      as (st' & w' & Hrun & Hatt & Hcur & Hs & Hm & Hf & Ht); [done|done|].
    exists st', w'. cbn [attempts current_id] in *.
    rewrite files_throttled in Hf. rewrite throttles_throttled in Ht.
    split; [done|]. split; [lia|]. split; [lia|]. split; [done|].
    split; [done|]. split; [congruence|lia]. }
  destruct (Hloop fuel {| seen_ids := ∅; metadata := [];
                          current_id := start_id site; attempts := 0 |} w)
    as (st' & w' & Hrun & Hatt & Hcur & Hrest); [done|done|].
  exists st', w'. cbn [attempts current_id] in *.
  split; [done|]. split; [lia|]. split; [by unfold candidate|done].
Qed.

Lemma walk_without_documents_never_returns_witness :
  exists st w',
    collect_for_site (lib := Demo.lib) source_settings Demo.always_failing
      (lit "povarenok") Demo.povarenok 4 Demo.fresh_world = (Running st, w')
    /\ attempts st = Z.of_nat 4
    /\ current_id st = candidate Demo.povarenok 4
    /\ seen_ids st = ∅ /\ metadata st = []
    /\ files w' = files Demo.fresh_world
    /\ throttles w' = throttles Demo.fresh_world + 4.
Proof.
  apply (walk_without_documents_never_returns (lib := Demo.lib) source_settings
           Demo.always_failing (lit "povarenok") Demo.povarenok
           Demo.fresh_world).
  - reflexivity.
  - reflexivity.
  - intros id. by eexists.
  - intros n url status text H. discriminate H.
Defined.

Section WalkTarget.
Context {lib : PyLib} {laws : PyLibLaws lib}.
Variable cfg : settings.
Variable session : Session.
Variable site_key : str.
Variable site : site_cfg.

Lemma walk_added_cons (st st1 : walk) (w' : world) (o : outcome)
    (d : document) (docs : list document) :
  KInt (doc_id d) ∉ seen_ids st ->
  seen_ids st1 = {[KInt (doc_id d)]} ∪ seen_ids st ->
  metadata st1 = metadata st ++ [to_meta d] ->
  (Z.of_nat (size (seen_ids st)) < TARGET_PER_SITE cfg)%Z ->
  walk_added cfg site_key st1 w' o docs ->
  walk_added cfg site_key st w' o (d :: docs)
  /\ size (seen_ids st) + length (d :: docs)
     = size (seen_ids st1) + length docs.
Proof.
  intros Hd Hseen Hmd Hroom (Hled & Hnodup & Hnew & Hsize & Ho).
  unfold walk_added. cbn [fmap list_fmap list_to_set length].
  rewrite Hseen, Hmd in *.
  assert (list_to_set ((fun d => KInt (doc_id d)) <$> docs)
            ∪ ({[KInt (doc_id d)]} ∪ seen_ids st)
          = {[KInt (doc_id d)]}
            ∪ list_to_set ((fun d => KInt (doc_id d)) <$> docs)
            ∪ seen_ids st) as Heq by set_solver.
  rewrite Heq in *. rewrite <- app_assoc in *. cbn [app] in *.
  assert (size ({[KInt (doc_id d)]} ∪ seen_ids st) = S (size (seen_ids st)))
    as Hs.
  { rewrite size_union by set_solver. by rewrite size_singleton. }
  rewrite Hs in Hsize |- *. split; [|lia].
  split; [done|]. split; [|split; [|split; [lia|done]]].
  - apply NoDup_cons. split; [|done].
    intros (d' & Hid & Hd')%list_elem_of_fmap.
    apply (Hnew d' Hd'). rewrite <- Hid. set_solver.
  - intros d' [->|Hd']%elem_of_cons; [done|].
    specialize (Hnew d' Hd'). set_solver.
Qed.

(** A walk that returns has filled its target. *)
Lemma while_loop_returned (fuel : nat) (st : walk) (w w' : world)
    (md : list json) :
  while_loop cfg session site_key site fuel st w = (Returned md, w') ->
  ledger_holds site_key w (seen_ids st) (metadata st) ->
  exists docs : list document,
    walk_added cfg site_key st w' (Returned md) docs
    /\ (TARGET_PER_SITE cfg <= Z.of_nat (size (seen_ids st) + length docs))%Z.
Proof.
  revert st w. induction fuel as [|fuel IH]; intros st w Hrun Hold;
    cbn [while_loop] in Hrun;
    destruct (Z.ltb_spec (Z.of_nat (size (seen_ids st))) (TARGET_PER_SITE cfg))
      as [Hroom|Hfull]; try done.
  - exists []. simplify_eq. split; [by apply walk_added_nil|]. simpl. lia.
  - destruct (loop_body cfg session site_key site st w) as [[st1|e] w1] eqn:Hbody;
      [|done].
    destruct (loop_body_ledger _ _ _ _ _ _ _ _ Hbody Hold) as [Hold1 Hcase].
    destruct (IH _ _ Hrun Hold1) as (docs & Hadded & Htarget).
    destruct Hcase as [[Hseen Hmd]|(d & Hd & Hseen & Hmd)].
    + exists docs. unfold walk_added in *. rewrite Hseen, Hmd in *. done.
    + exists (d :: docs).
      destruct (walk_added_cons st st1 w' _ d docs Hd Hseen Hmd Hroom Hadded)
        as [Hadded' Hlen].
      split; [done|]. lia.
  - exists []. simplify_eq. split; [by apply walk_added_nil|]. simpl. lia.
Qed.

End WalkTarget.

(** X16: a walk that returns has met its target, no less and no more.  The
    records returned are those of the ledger it started from followed by new
    ones with distinct, unseen identifiers; identifiers loaded and found add
    up to the target at least, and to the target exactly when the ledger
    held no more than the target at the start. *)
Theorem returned_walk_meets_target {lib : PyLib} {laws : PyLibLaws lib}
    (cfg : settings) (session : Session) (site_key : str) (site : site_cfg)
    (fuel : nat) (w w' : world) (seen : gset key) (md md' : list json) :
  ledger_holds site_key w seen md ->
  collect_for_site cfg session site_key site fuel w = (Returned md', w') ->
  exists docs : list document,
    md' = md ++ (to_meta <$> docs)
    /\ NoDup (doc_id <$> docs)
    /\ (forall d, d ∈ docs -> KInt (doc_id d) ∉ seen)
    /\ (TARGET_PER_SITE cfg <= Z.of_nat (size seen + length docs))%Z
    /\ ((Z.of_nat (size seen) <= TARGET_PER_SITE cfg)%Z ->
        Z.of_nat (size seen + length docs) = TARGET_PER_SITE cfg).
Proof.
  intros Hold. unfold collect_for_site.
  rewrite (load_ledger_holds site_key w seen md Hold). intros Hrun.
  apply while_loop_returned in Hrun as (docs & Hadded & Htarget); [|done].
  destruct Hadded as (_ & Hnodup & Hnew & Hsize & ->).
  cbn [seen_ids metadata] in *.
  exists docs. split; [done|]. split; [done|]. split; [done|].
  split; [done|]. lia.
Qed.


Lemma returned_walk_meets_target_witness :
  exists docs : list document,
    Cases.returned Cases.full_run = [] ++ (to_meta <$> docs)
    /\ NoDup (doc_id <$> docs)
    /\ (forall d, d ∈ docs -> KInt (doc_id d) ∉ (∅ : gset key))
    /\ (TARGET_PER_SITE Demo.target_3
        <= Z.of_nat (size (∅ : gset key) + length docs))%Z
    /\ ((Z.of_nat (size (∅ : gset key)) <= TARGET_PER_SITE Demo.target_3)%Z ->
        Z.of_nat (size (∅ : gset key) + length docs)
        = TARGET_PER_SITE Demo.target_3).
Proof.
  apply (returned_walk_meets_target (laws := demo_laws) Demo.target_3
           (Demo.scripted Demo.ten_pages) (lit "povarenok") Demo.povarenok 20
           Demo.fresh_world (snd Cases.full_run) ∅ []
           (Cases.returned Cases.full_run)
           (or_introl (conj eq_refl (conj eq_refl eq_refl)))).
  vm_compute. reflexivity.
Defined.

(** ** compute_stats *)

Lemma fold_left_add (lst : list Z) (acc : Z) :
  fold_left Z.add lst acc = (acc + fold_left Z.add lst 0)%Z.
Proof.
  revert acc. induction lst as [|y lst IH]; intros acc; cbn [fold_left]; [lia|].
  rewrite (IH (acc + y)%Z), (IH (0 + y)%Z). lia.
Qed.

Lemma py_sum_cons (z : Z) (lst : list Z) : py_sum (z :: lst) = (z + py_sum lst)%Z.
Proof. unfold py_sum. cbn [fold_left]. by rewrite fold_left_add. Qed.

Lemma py_sum_app (l1 l2 : list Z) : py_sum (l1 ++ l2) = (py_sum l1 + py_sum l2)%Z.
Proof.
  induction l1 as [|z l1 IH]; [done|].
  cbn [app]. rewrite !py_sum_cons, IH. lia.
Qed.

Lemma py_sum_Permutation (l1 l2 : list Z) : l1 ≡ₚ l2 -> py_sum l1 = py_sum l2.
Proof.
  induction 1 as [|z l1 l2 _ IH|y z l|l1 l2 l3 _ IH1 _ IH2];
    rewrite ?py_sum_cons; lia.
Qed.

Lemma py_sum_bounds (lo hi : Z) (lst : list Z) :
  Forall (fun z => lo <= z <= hi)%Z lst ->
  (Z.of_nat (length lst) * lo <= py_sum lst <= Z.of_nat (length lst) * hi)%Z.
Proof.
  induction 1 as [|z lst Hz _ IH]; [done|].
  rewrite py_sum_cons. cbn [length]. lia.
Qed.

Lemma float_overflow_above_sizes : (2 ^ 63 <= FLOAT_OVERFLOW)%Z.
Proof. by vm_compute. Qed.

Lemma pow2_pos (u : Z) : (0 < 2 ^ u)%Q.
Proof. by apply Qpower_0_lt. Qed.

Lemma pow2_add (u v : Z) : (2 ^ (u + v) == 2 ^ u * 2 ^ v)%Q.
Proof. by apply Qpower_plus. Qed.

Lemma pow2_le (u v : Z) : (u <= v)%Z -> (2 ^ u <= 2 ^ v)%Q.
Proof. intros H. apply Qpower_le_compat_l; [done|]. by vm_compute. Qed.

Lemma pow2_Z (u : Z) : (0 <= u)%Z -> (2 ^ u == inject_Z (2 ^ u))%Q.
Proof. intros H. symmetry. by apply (Zpower_Qpower 2 u). Qed.

Lemma round_half_even_cases (x : Q) :
  let n := Qfloor x in
  (inject_Z n <= x < inject_Z n + 1)%Q
  /\ ((round_half_even x = n /\ (x - inject_Z n <= 1 # 2)%Q)
      \/ (round_half_even x = (n + 1)%Z /\ (1 # 2 <= x - inject_Z n)%Q)).
Proof.
  intros n. pose proof (Qfloor_le x) as Hlo. pose proof (Qlt_floor x) as Hhi.
  fold n in Hlo, Hhi. rewrite inject_Z_plus in Hhi.
  change (inject_Z 1) with 1%Q in Hhi.
  split; [done|]. unfold round_half_even. fold n.
  destruct (Qcompare_spec (x - inject_Z n) (1 # 2)) as [Heq|Hlt|Hgt].
  - destruct (Z.even n); [left|right]; (split; [done|]); rewrite Heq; lra.
  - left. split; [done|lra].
  - right. split; [done|lra].
Qed.

Lemma round_half_even_nearest (x : Q) (k : Z) :
  (Qabs (x - inject_Z (round_half_even x)) <= Qabs (x - inject_Z k))%Q.
Proof.
  destruct (round_half_even_cases x) as [[Hlo Hhi] Hcase].
  set (n := Qfloor x) in *.
  assert ((inject_Z k <= inject_Z n)%Q \/ (inject_Z n + 1 <= inject_Z k)%Q)
    as Hk.
  { destruct (Z.le_gt_cases k n) as [H|H].
    - left. by rewrite <- Zle_Qle.
    - right. assert (n + 1 <= k)%Z as H' by lia.
      rewrite Zle_Qle in H'. by rewrite inject_Z_plus in H'. }
  destruct Hcase as [[-> Hr]|[-> Hr]]; [|rewrite inject_Z_plus];
    change (inject_Z 1) with 1%Q;
    apply Qabs_case; intros ?; apply Qabs_case; intros ?;
    destruct Hk; lra.
Qed.

Lemma round_half_even_half (x : Q) :
  (Qabs (x - inject_Z (round_half_even x)) <= 1 # 2)%Q.
Proof.
  destruct (round_half_even_cases x) as [[Hlo Hhi] Hcase].
  set (n := Qfloor x) in *.
  destruct Hcase as [[-> Hr]|[-> Hr]]; [|rewrite inject_Z_plus];
    change (inject_Z 1) with 1%Q; apply Qabs_case; intros ?; lra.
Qed.

Lemma binade_low (P A B a b : Q) :
  (0 < P -> 0 < B -> 0 < b -> P * (2 * B) == A -> A <= a -> b < 2 * B ->
   a * B < b * A -> P * b <= a /\ a < 2 * P * b)%Q.
Proof.
  intros HP HB Hb HA Ha Hb2 Hcase. split.
  - apply Qle_trans with (P * (2 * B))%Q; [|lra].
    apply Qmult_le_l; [done|lra].
  - apply (Qmult_lt_r _ _ B); [done|].
    apply Qlt_le_trans with (b * A)%Q; [done|].
    rewrite <- HA. apply Qle_lteq. right. ring.
Qed.

Lemma binade_high (P A B a b : Q) :
  (0 < P -> 0 < B -> 0 < b -> P * B == A -> a < 2 * A -> B <= b ->
   b * A <= a * B -> P * b <= a /\ a < 2 * P * b)%Q.
Proof.
  intros HP HB Hb HA Ha Hb2 Hcase. split.
  - apply (Qmult_le_r _ _ B); [done|].
    apply Qle_trans with (b * A)%Q; [|done].
    rewrite <- HA. apply Qle_lteq. right. ring.
  - apply Qlt_le_trans with (2 * A)%Q; [done|].
    rewrite <- HA.
    assert (0 <= P * (b - B))%Q by (apply Qmult_le_0_compat; lra).
    lra.
Qed.

Lemma log2_bounds (a : Z) :
  (0 < a)%Z ->
  (inject_Z (2 ^ Z.log2 a) <= inject_Z a
   /\ inject_Z a < 2 * inject_Z (2 ^ Z.log2 a))%Q.
Proof.
  intros Ha. destruct (Z.log2_spec a Ha) as [Hlo Hhi].
  rewrite Z.pow_succ_r in Hhi by apply Z.log2_nonneg.
  split; [by rewrite <- Zle_Qle|].
  change 2%Q with (inject_Z 2). rewrite <- inject_Z_mult.
  by rewrite <- Zlt_Qlt.
Qed.

Lemma binade_spec (q : Q) :
  (0 < q)%Q -> (2 ^ binade q <= q /\ q < 2 ^ (binade q + 1))%Q.
Proof.
  intros Hq. destruct q as [a b].
  assert (0 < a)%Z as Ha by (unfold Qlt in Hq; cbn in Hq; lia).
  unfold binade. cbn [Qnum Qden].
  set (la := Z.log2 a). set (lb := Z.log2 (Z.pos b)).
  destruct (log2_bounds a Ha) as [Ha1 Ha2].
  destruct (log2_bounds (Z.pos b) eq_refl) as [Hb1 Hb2].
  fold la in Ha1, Ha2. fold lb in Hb1, Hb2.
  assert (0 <= la)%Z as Hla by apply Z.log2_nonneg.
  assert (0 <= lb)%Z as Hlb by apply Z.log2_nonneg.
  rewrite <- (pow2_Z la Hla) in Ha1, Ha2.
  rewrite <- (pow2_Z lb Hlb) in Hb1, Hb2.
  assert (0 < inject_Z (Z.pos b))%Q as Hbpos by (by rewrite <- (Zlt_Qlt 0)).
  assert (forall e,
            (2 ^ e * inject_Z (Z.pos b) <= inject_Z a
             /\ inject_Z a < 2 * 2 ^ e * inject_Z (Z.pos b))%Q ->
            (2 ^ e <= a # b /\ a # b < 2 ^ (e + 1))%Q) as Hdiv.
  { intros e [H1 H2]. rewrite (Qmake_Qdiv a b). split.
    - by apply Qle_shift_div_l.
    - apply Qlt_shift_div_r; [done|].
      rewrite pow2_add. change (2 ^ 1)%Q with 2%Q. lra. }
  destruct (Z.ltb_spec (a * 2 ^ lb) (Z.pos b * 2 ^ la)) as [Hcase|Hcase];
    apply Hdiv.
  - apply (binade_low _ (2 ^ la) (2 ^ lb)); try done; try apply pow2_pos.
    + assert (2 * 2 ^ lb == 2 ^ (lb + 1))%Q as ->
        by (rewrite pow2_add; change (2 ^ 1)%Q with 2%Q; ring).
      rewrite <- pow2_add. by replace (la - lb - 1 + (lb + 1))%Z with la by lia.
    + rewrite !pow2_Z by done. rewrite <- !inject_Z_mult. by rewrite <- Zlt_Qlt.
  - apply (binade_high _ (2 ^ la) (2 ^ lb)); try done; try apply pow2_pos.
    + rewrite <- pow2_add. by replace (la - lb + lb)%Z with la by lia.
    + rewrite !pow2_Z by done. rewrite <- !inject_Z_mult. by rewrite <- Zle_Qle.
Qed.

Lemma Qabs_inject_Z (m : Z) : Qabs (inject_Z m) = inject_Z (Z.abs m).
Proof. reflexivity. Qed.

Lemma Qabs_pow2 (u : Z) : (Qabs (2 ^ u) == 2 ^ u)%Q.
Proof. apply Qabs_pos, Qlt_le_weak, pow2_pos. Qed.

(** A float is a multiple of [2 ^ u], or it is below [2 ^ (u + 52)] in
    size. *)
Lemma is_double_grid (d : Q) (u : Z) :
  is_double d ->
  (exists k : Z, d == inject_Z k * 2 ^ u)%Q
  \/ ((-1074 < u)%Z /\ (Qabs d < 2 ^ (u + 52))%Q).
Proof.
  intros (m & e & Hm & He & Hd).
  destruct (Z.le_gt_cases u e) as [Hue|Hue].
  - left. exists (m * 2 ^ (e - u))%Z.
    rewrite Hd, inject_Z_mult, <- pow2_Z by lia.
    rewrite <- Qmult_assoc, <- pow2_add.
    by replace (e - u + u)%Z with e by lia.
  - right. split; [lia|].
    rewrite Hd, Qabs_Qmult, Qabs_inject_Z, Qabs_pow2.
    apply Qlt_le_trans with (2 ^ 53 * 2 ^ e)%Q.
    + apply Qmult_lt_r; [apply pow2_pos|].
      rewrite (pow2_Z 53) by lia. by rewrite <- Zlt_Qlt.
    + rewrite <- pow2_add. apply pow2_le. lia.
Qed.

Lemma grid_nearest (q : Q) (u k : Z) :
  (Qabs (q - inject_Z (round_half_even (q / 2 ^ u)) * 2 ^ u)
   <= Qabs (q - inject_Z k * 2 ^ u))%Q.
Proof.
  pose proof (pow2_pos u) as Hg. set (g := (2 ^ u)%Q) in *.
  assert (forall j : Z,
            Qabs (q - inject_Z j * g) == g * Qabs (q / g - inject_Z j))%Q as Hj.
  { intros j. rewrite <- (Qabs_pos g) at 2 by lra.
    rewrite <- Qabs_Qmult. apply Qabs_wd. field. lra. }
  rewrite !Hj. apply Qmult_le_l; [done|]. apply round_half_even_nearest.
Qed.

Lemma ulp_exponent_spec (q : Q) :
  ~ (q == 0)%Q ->
  let u := ulp_exponent q in
  (-1074 <= u)%Z
  /\ (Qabs q < 2 ^ (u + 53))%Q
  /\ ((-1074 < u)%Z -> (2 ^ (u + 52) <= Qabs q)%Q).
Proof.
  intros Hq u.
  assert (0 < Qabs q)%Q as Hpos.
  { pose proof (Qabs_nonneg q). apply Qabs_case; intros ?; lra. }
  destruct (binade_spec _ Hpos) as [Hlo Hhi].
  unfold u, ulp_exponent. set (b := binade (Qabs q)) in *.
  split; [lia|]. split.
  - apply Qlt_le_trans with (2 ^ (b + 1))%Q; [done|]. apply pow2_le. lia.
  - intros Hu. replace (Z.max (b - 52) (-1074) + 52)%Z with b by lia. done.
Qed.

(** [round_double q] is as near to [q] as a float can be. *)
Lemma round_double_nearest (q d : Q) :
  is_double d -> (Qabs (q - round_double q) <= Qabs (q - d))%Q.
Proof.
  intros Hd. unfold round_double.
  destruct (Qeq_bool q 0) eqn:Hzero.
  { apply Qeq_bool_iff in Hzero.
    assert (q - 0 == 0)%Q as -> by lra. apply Qabs_nonneg. }
  apply Qeq_bool_neq in Hzero. rewrite Qred_correct.
  destruct (ulp_exponent_spec q Hzero) as (_ & _ & Hlow).
  set (u := ulp_exponent q) in *.
  destruct (is_double_grid d u Hd) as [[k Hk]|[Hu Hsmall]].
  { assert (q - d == q - inject_Z k * 2 ^ u)%Q as -> by (rewrite Hk; ring).
    apply grid_nearest. }
  specialize (Hlow Hu). set (G := (2 ^ (u + 52))%Q) in *.
  assert (inject_Z (2 ^ 52) * 2 ^ u == G)%Q as HG.
  { unfold G. rewrite <- pow2_Z by lia. rewrite <- pow2_add.
    by replace (52 + u)%Z with (u + 52)%Z by lia. }
  destruct (Qlt_le_dec q 0) as [Hneg|Hnn].
  - eapply Qle_trans; [apply (grid_nearest q u (- 2 ^ 52))|].
    rewrite inject_Z_opp.
    assert (q - - inject_Z (2 ^ 52) * 2 ^ u == q + G)%Q as ->
      by (rewrite <- HG; ring).
    rewrite Qabs_neg in Hlow by lra.
    revert Hsmall. apply Qabs_case; intros ?; apply Qabs_case; intros ?;
      apply Qabs_case; intros ? ?; lra.
  - eapply Qle_trans; [apply (grid_nearest q u (2 ^ 52))|].
    rewrite HG. rewrite Qabs_pos in Hlow by done.
    revert Hsmall. apply Qabs_case; intros ?; apply Qabs_case; intros ?;
      apply Qabs_case; intros ? ?; lra.
Qed.

Lemma float_overflow_eq :
  (inject_Z FLOAT_OVERFLOW == (2 ^ 53 - (1 # 2)) * 2 ^ 971)%Q.
Proof. by vm_compute. Qed.

Lemma float_overflow_below : (inject_Z FLOAT_OVERFLOW < 2 ^ 1024)%Q.
Proof. by vm_compute. Qed.

(** An integer within a half of a rational below [2 ^ 53] in size is at most
    [2 ^ 53] in size. *)
Lemma round_half_even_bound (x : Q) :
  (Qabs x < 2 ^ 53)%Q -> (Z.abs (round_half_even x) <= 2 ^ 53)%Z.
Proof.
  intros Hx. pose proof (round_half_even_half x) as Hhalf.
  set (m := round_half_even x) in *.
  assert (Qabs (inject_Z m) < 2 ^ 53 + 1)%Q as Hm.
  { revert Hx Hhalf. apply Qabs_case; intros ?; apply Qabs_case; intros ?;
      apply Qabs_case; intros ? ? ?; lra. }
  rewrite Qabs_inject_Z in Hm. rewrite (pow2_Z 53) in Hm by lia.
  change 1%Q with (inject_Z 1) in Hm. rewrite <- inject_Z_plus in Hm.
  rewrite <- Zlt_Qlt in Hm. lia.
Qed.

Lemma round_double_is_double (q : Q) :
  (Qabs q < inject_Z FLOAT_OVERFLOW)%Q -> is_double (round_double q).
Proof.
  intros Hfits. unfold round_double.
  destruct (Qeq_bool q 0) eqn:Hzero; [by exists 0%Z, 0%Z|].
  apply Qeq_bool_neq in Hzero.
  destruct (ulp_exponent_spec q Hzero) as (Hu1 & Hhigh & Hlow).
  set (u := ulp_exponent q) in *.
  pose proof (pow2_pos u) as Hg.
  set (x := (q / 2 ^ u)%Q). set (m := round_half_even x).
  assert (Qabs x * 2 ^ u == Qabs q)%Q as Hx.
  { unfold x. rewrite <- (Qabs_pos (2 ^ u)) at 2 by lra.
    rewrite <- Qabs_Qmult. apply Qabs_wd. field. lra. }
  assert (Qabs x < 2 ^ 53)%Q as Hx53.
  { apply (Qmult_lt_r _ _ (2 ^ u)); [done|].
    rewrite Hx, <- pow2_add. by replace (53 + u)%Z with (u + 53)%Z by lia. }
  assert (u <= 971)%Z as Hu2.
  { destruct (Z.le_gt_cases u 971) as [H|H]; [done|]. exfalso.
    assert (2 ^ 1024 <= Qabs q)%Q.
    { apply Qle_trans with (2 ^ (u + 52))%Q; [apply pow2_le; lia|].
      apply Hlow. lia. }
    pose proof float_overflow_below. lra. }
  pose proof (round_half_even_bound x Hx53) as Hm. fold m in Hm.
  destruct (Z.eq_dec (Z.abs m) (2 ^ 53)%Z) as [Htop|Hnot].
  2:{ exists m, u. split; [lia|]. split; [lia|]. apply Qred_correct. }
  assert (u < 971)%Z as Hu3.
  { destruct (Z.le_gt_cases 971 u) as [H|H]; [|done]. exfalso.
    assert (u = 971%Z) as Hu by lia.
    pose proof (round_half_even_half x) as Hhalf. fold m in Hhalf.
    assert (2 ^ 53 - (1 # 2) <= Qabs x)%Q as Hbig.
    { assert (Qabs (inject_Z m) == 2 ^ 53)%Q as Habs.
      { rewrite Qabs_inject_Z, Htop. by rewrite (pow2_Z 53). }
      revert Hhalf Habs. apply Qabs_case; intros ?; apply Qabs_case; intros ?;
        apply Qabs_case; intros ? ? ?; lra. }
    assert (inject_Z FLOAT_OVERFLOW <= Qabs q)%Q; [|lra].
    rewrite float_overflow_eq, <- Hx, Hu.
    apply Qmult_le_r; [apply pow2_pos|done]. }
  exists (m / 2)%Z, (u + 1)%Z.
  assert (m = 2 * (m / 2))%Z as Heven.
  { apply Z.div_exact; [lia|].
    destruct (Z.abs_eq_or_opp m) as [Hs|Hs]; rewrite Htop in Hs.
    - by rewrite <- Hs.
    - assert (m = - 2 ^ 53)%Z as -> by lia. reflexivity. }
  split; [lia|]. split; [lia|].
  rewrite Qred_correct, pow2_add. change (2 ^ 1)%Q with 2%Q.
  rewrite Heven at 1. rewrite inject_Z_mult. change (inject_Z 2) with 2%Q. ring.
Qed.

Lemma true_div_fits (a b bound : Z) :
  (0 < b)%Z -> (Z.abs a < bound * b)%Z -> (0 <= bound <= FLOAT_OVERFLOW)%Z ->
  true_div a b = Done (NFloat (round_double (a # Z.to_pos b))).
Proof.
  intros Hb Ha Hbound. unfold true_div.
  destruct (Z.ltb_spec (Z.abs a) (FLOAT_OVERFLOW * b)) as [|Hge]; [done|].
  generalize dependent FLOAT_OVERFLOW. intros limit ? ?. nia.
Qed.

Lemma avg_fits (bound : Z) (lst : list Z) :
  lst ≠ [] ->
  Forall (fun z => - bound < z < bound)%Z lst ->
  (0 <= bound <= FLOAT_OVERFLOW)%Z ->
  avg lst
  = Done (NFloat (round_double
                    (py_sum lst # Z.to_pos (Z.of_nat (length lst))))).
Proof.
  intros Hne Hall Hbound. destruct lst as [|z lst]; [done|].
  unfold avg. apply (true_div_fits _ _ bound); [cbn [length]; lia| |done].
  assert (Forall (fun x => - bound + 1 <= x <= bound - 1)%Z (z :: lst)) as Hall'.
  { eapply Forall_impl; [exact Hall|]. intros x ?. cbv beta in *. lia. }
  apply py_sum_bounds in Hall'. cbn [length] in *. nia.
Qed.

Lemma lookup_nth (s : list Z) (k : nat) :
  k < length s -> s !! k = Some (nth k s 0%Z).
Proof. intros Hk. destruct (nth_lookup_or_length s k 0%Z); [done|lia]. Qed.

(** The sorted list cut at its middle. *)
Lemma sorted_middle (lst : list Z) (k : nat) :
  k < length lst ->
  let s := merge_sort Z.le lst in
  lst ≡ₚ take k s ++ nth k s 0%Z :: drop (S k) s
  /\ Forall (fun z => z <= nth k s 0)%Z (take k s)
  /\ Forall (fun z => nth k s 0 <= z)%Z (drop (S k) s)
  /\ length (take k s) = k
  /\ length (drop (S k) s) = length lst - S k.
Proof.
  intros Hk s.
  assert (length s = length lst) as Hlen
    by (subst s; by rewrite merge_sort_Permutation).
  assert (StronglySorted Z.le s) as Hsorted
    by (subst s; apply StronglySorted_merge_sort; apply _).
  assert (s = take k s ++ nth k s 0%Z :: drop (S k) s) as Hsplit.
  { rewrite <- (take_drop k s) at 1. f_equal.
    rewrite (drop_S s (nth k s 0%Z) k); [done|].
    apply lookup_nth. lia. }
  split; [|split; [|split; [|split]]].
  - rewrite <- Hsplit. subst s. by rewrite merge_sort_Permutation.
  - rewrite Hsplit in Hsorted.
    apply Forall_forall. intros z Hz.
    eapply (StronglySorted_app_1_elem_of Z.le); [exact Hsorted|done|].
    apply list_elem_of_here.
  - rewrite Hsplit in Hsorted. apply StronglySorted_app_1_r in Hsorted.
    by apply StronglySorted_inv in Hsorted as [_ ?].
  - rewrite length_take. lia.
  - rewrite length_drop. lia.
Qed.

(** X17: the median is the middle of the values in order.  For an odd
    number of values it is one of them, with as many values below it as
    above; for an even number it is the true division by 2 of the sum of the
    two middle values.  It depends on the values only, not on their order,
    and it is 0 for no value at all. *)
Theorem median_is_the_middle_value (lst : list Z) :
  median [] = Done (NInt 0)
  /\ (forall lst', lst ≡ₚ lst' -> median lst = median lst')
  /\ (length lst mod 2 = 1 ->
      exists below m above,
        median lst = Done (NInt m)
        /\ lst ≡ₚ below ++ m :: above
        /\ length below = length above
        /\ Forall (fun z => z <= m)%Z below
        /\ Forall (fun z => m <= z)%Z above)
  /\ (lst ≠ [] -> length lst mod 2 = 0 ->
      exists below a b above,
        median lst = true_div (a + b) 2
        /\ lst ≡ₚ below ++ a :: b :: above
        /\ length below = length above
        /\ (a <= b)%Z
        /\ Forall (fun z => z <= a)%Z below
        /\ Forall (fun z => b <= z)%Z above).
Proof.
  split; [done|]. split; [|split].
  - intros lst' Hperm. unfold median.
    assert (merge_sort Z.le lst = merge_sort Z.le lst') as Hs.
    { apply (Sorted_unique Z.le); try apply Sorted_merge_sort; try apply _.
      by rewrite !merge_sort_Permutation. }
    destruct lst as [|z lst], lst' as [|z' lst']; try done.
    + by apply Permutation_nil_cons in Hperm.
    + symmetry in Hperm. by apply Permutation_nil_cons in Hperm.
    + by rewrite Hs.
  - intros Hodd. destruct lst as [|z lst]; [done|].
    set (l := z :: lst) in *. unfold median. fold l. cbv zeta.
    assert (length (merge_sort Z.le l) = length l) as Hlen
      by (by rewrite merge_sort_Permutation).
    rewrite Hlen, Hodd. cbn [Nat.eqb].
    assert (length l / 2 < length l) as Hmid
      by (apply Nat.div_lt; [subst l; simpl|]; lia).
    destruct (sorted_middle l (length l / 2) Hmid)
      as (Hperm & Hbelow & Habove & Hl1 & Hl2).
    eexists _, _, _. split; [reflexivity|]. split; [exact Hperm|].
    split; [|done]. rewrite Hl1, Hl2.
    pose proof (Nat.div_mod_eq (length l) 2). lia.
  - intros Hne Heven. destruct lst as [|z lst]; [done|].
    set (l := z :: lst) in *. unfold median. fold l. cbv zeta.
    assert (length (merge_sort Z.le l) = length l) as Hlen
      by (by rewrite merge_sort_Permutation).
    rewrite Hlen, Heven. cbn [Nat.eqb].
    pose proof (Nat.div_mod_eq (length l) 2) as Hdiv.
    assert (1 <= length l / 2) as Hpos.
    { destruct (length l / 2) eqn:H; [|lia]. subst l. simpl in *. lia. }
    assert (length l / 2 < length l) as Hmid by lia.
    destruct (sorted_middle l (length l / 2) Hmid)
      as (Hperm & Hbelow & Habove & Hl1 & Hl2).
    set (s := merge_sort Z.le l) in *. set (mid := length l / 2) in *.
    assert (take mid s = take (mid - 1) s ++ [nth (mid - 1) s 0%Z]) as Htake.
    { replace mid with (S (mid - 1)) at 1 by lia.
      apply take_S_r, lookup_nth. lia. }
    exists (take (mid - 1) s), (nth (mid - 1) s 0%Z), (nth mid s 0%Z),
      (drop (S mid) s).
    split; [done|]. rewrite Htake in Hperm, Hbelow, Hl1.
    rewrite <- app_assoc in Hperm. split; [exact Hperm|].
    apply Forall_app in Hbelow as [Hbelow Ha].
    rewrite Forall_singleton in Ha.
    rewrite length_app in Hl1. cbn [length] in Hl1.
    split; [lia|]. split; [exact Ha|]. split; [|exact Habove].
    assert (StronglySorted Z.le s) as Hsorted
      by (subst s; apply StronglySorted_merge_sort; apply _).
    rewrite <- (take_drop mid s), Htake in Hsorted.
    apply StronglySorted_app_1_l in Hsorted.
    apply Forall_forall. intros x Hin.
    eapply (StronglySorted_app_1_elem_of Z.le);
      [exact Hsorted|exact Hin|apply list_elem_of_here].
Qed.

(** The quotient of two integers is below the overflow when [true_div]
    finds it so. *)
Lemma quotient_fits (a b : Z) :
  (0 < b)%Z -> (Z.abs a < FLOAT_OVERFLOW * b)%Z ->
  (Qabs (a # Z.to_pos b) < inject_Z FLOAT_OVERFLOW)%Q.
Proof.
  intros Hb Ha. unfold Qabs, Qlt, inject_Z. cbn [Qnum Qden].
  rewrite Z2Pos.id by done. lia.
Qed.

(** X18: the average is the float nearest to the mean.  For values that are
    all below [bound] in size, with [bound] in the float range, [avg]
    returns a float, and no float is nearer to the exact quotient of the sum
    by the number of values.  It is that quotient itself when the quotient
    is a float, and it lies between any two floats that bound the values.
    For no value it is the integer 0, and the division by zero is never
    reached. *)
Theorem avg_is_the_mean (bound : Z) (lst : list Z) :
  avg [] = Done (NInt 0)
  /\ (lst ≠ [] ->
      Forall (fun z => - bound < z < bound)%Z lst ->
      (0 <= bound <= FLOAT_OVERFLOW)%Z ->
      let mean := py_sum lst # Z.to_pos (Z.of_nat (length lst)) in
      exists v : Q,
        avg lst = Done (NFloat v)
        /\ (mean * inject_Z (Z.of_nat (length lst))
            == inject_Z (py_sum lst))%Q
        /\ is_double v
        /\ (forall d, is_double d -> Qabs (mean - v) <= Qabs (mean - d))%Q
        /\ (is_double mean -> v == mean)%Q
        /\ forall lo hi,
             Forall (fun z => lo <= z <= hi)%Z lst ->
             is_double (inject_Z lo) -> is_double (inject_Z hi) ->
             (inject_Z lo <= v <= inject_Z hi)%Q).
Proof.
  split; [done|]. intros Hne Hall Hbound mean.
  exists (round_double mean).
  split; [by apply (avg_fits bound)|].
  assert (0 < Z.of_nat (length lst))%Z as Hlen
    by (destruct lst; [done|cbn [length]; lia]).
  pose proof (Z2Pos.id _ Hlen) as Hpos.
  assert (Z.abs (py_sum lst) < FLOAT_OVERFLOW * Z.of_nat (length lst))%Z
    as Hfits.
  { assert (Forall (fun x => - bound + 1 <= x <= bound - 1)%Z lst) as Hall'.
    { eapply Forall_impl; [exact Hall|]. intros x ?. cbv beta in *. lia. }
    apply py_sum_bounds in Hall'. nia. }
  pose proof (round_double_nearest mean) as Hnear.
  split; [|split; [|split; [|split]]].
  - unfold mean, Qeq, Qmult, inject_Z. cbn [Qnum Qden].
    rewrite Pos.mul_1_r, Hpos. lia.
  - by apply round_double_is_double, quotient_fits.
  - done.
  - intros Hmean. specialize (Hnear mean Hmean). revert Hnear.
    assert (mean - mean == 0)%Q as -> by ring.
    apply Qabs_case; intros ?; change (Qabs 0) with 0%Q; lra.
  - intros lo hi Hrange Hlo Hhi. apply py_sum_bounds in Hrange.
    assert (inject_Z lo <= mean <= inject_Z hi)%Q as Hmean.
    { unfold mean, Qle, inject_Z. cbn [Qnum Qden]. rewrite Hpos. lia. }
    pose proof (Hnear _ Hlo) as Hnlo. pose proof (Hnear _ Hhi) as Hnhi.
    revert Hnlo Hnhi.
    apply Qabs_case; intros ?; apply Qabs_case; intros ?;
      apply Qabs_case; intros ? ? ?; lra.
Qed.

Lemma avg_is_the_mean_witness :
  exists v : Q,
    avg [1; 1; 2]%Z = Done (NFloat v)
    /\ ((4 # 3) * inject_Z 3 == inject_Z 4)%Q
    /\ is_double v
    /\ (forall d, is_double d -> Qabs ((4 # 3) - v) <= Qabs ((4 # 3) - d))%Q
    /\ (is_double (4 # 3) -> v == 4 # 3)%Q
    /\ forall lo hi,
         Forall (fun z => lo <= z <= hi)%Z [1; 1; 2]%Z ->
         is_double (inject_Z lo) -> is_double (inject_Z hi) ->
         (inject_Z lo <= v <= inject_Z hi)%Q.
Proof.
  apply (proj2 (avg_is_the_mean 3 [1; 1; 2]%Z)).
  - discriminate.
  - repeat constructor.
  - split; [lia|]. by vm_compute.
Defined.

Lemma column_to_meta (k : str) (f : document -> Z) (docs : list document) :
  (forall d, getitem (to_meta d) k = Ok (JInt (f d))) ->
  column k (to_meta <$> docs) = Ok (JInt <$> (f <$> docs)).
Proof.
  intros Hk. induction docs as [|d docs IH]; [done|].
  cbn [fmap list_fmap column]. by rewrite Hk, IH.
Qed.

Lemma numbers_ints (zs : list Z) : numbers (JInt <$> zs) = Ok zs.
Proof.
  induction zs as [|z zs IH]; [done|].
  cbn [fmap list_fmap numbers as_number]. by rewrite IH.
Qed.

Lemma median_fits (bound : Z) (lst : list Z) :
  Forall (fun z => - bound < z < bound)%Z lst ->
  (0 <= bound <= FLOAT_OVERFLOW)%Z ->
  exists v, median lst = Done v.
Proof.
  intros Hall Hbound. destruct lst as [|z lst]; [by eexists|].
  set (l := z :: lst) in *. unfold median. fold l. cbv zeta.
  destruct (_ =? 1); [by eexists|].
  assert (forall k, - bound < nth k (merge_sort Z.le l) 0 < bound)%Z as Hnth.
  { intros k. destruct (nth_in_or_default k (merge_sort Z.le l) 0%Z) as [Hin| ->].
    - apply list_elem_of_In in Hin.
      set (x := nth k _ _) in *. clearbody x.
      rewrite merge_sort_Permutation in Hin.
      by eapply Forall_forall in Hall.
    - apply Forall_inv in Hall. lia. }
  eexists. apply (true_div_fits _ _ bound); [lia| |done].
  pose proof (Hnth (length (merge_sort Z.le l) / 2 - 1)).
  pose proof (Hnth (length (merge_sort Z.le l) / 2)). lia.
Qed.

(** X19: the statistics of what the walker wrote.  On the records of a run,
    with sizes and word counts below 2^63 as file sizes are, [compute_stats]
    raises nothing: the count is the number of records, the totals are the
    sums of the three columns, and the averages and medians are those of the
    columns.  No record at all gives zeros. *)
Theorem compute_stats_of_walker_records (docs : list document) :
  Forall (fun d => Z.of_nat (doc_raw_size d) < 2 ^ 63
                   /\ Z.of_nat (doc_text_size d) < 2 ^ 63
                   /\ Z.of_nat (doc_words d) < 2 ^ 63)%Z docs ->
  let raw := (fun d => Z.of_nat (doc_raw_size d)) <$> docs in
  let text := (fun d => Z.of_nat (doc_text_size d)) <$> docs in
  let words := (fun d => Z.of_nat (doc_words d)) <$> docs in
  exists st : stats,
    compute_stats (to_meta <$> docs) = Done st
    /\ num_documents st = length docs
    /\ total_raw_bytes st = py_sum raw
    /\ total_text_bytes st = py_sum text
    /\ total_words st = py_sum words
    /\ avg raw = Done (avg_raw_bytes st)
    /\ avg text = Done (avg_text_bytes st)
    /\ avg words = Done (avg_words st)
    /\ median raw = Done (median_raw_bytes st)
    /\ median text = Done (median_text_bytes st)
    /\ median words = Done (median_words st).
Proof.
  intros Hsizes raw text words.
  assert (forall (f : document -> nat),
            (forall d, d ∈ docs -> Z.of_nat (f d) < 2 ^ 63)%Z ->
            let col := (fun d => Z.of_nat (f d)) <$> docs in
            (exists a, avg col = Done a) /\ exists m, median col = Done m)
    as Hcol.
  { intros f Hf col.
    assert (Forall (fun z => - 2 ^ 63 < z < 2 ^ 63)%Z col) as Hall.
    { apply Forall_fmap, Forall_forall. intros d Hd. unfold compose.
      specialize (Hf d Hd). lia. }
    pose proof float_overflow_above_sizes.
    split; [|apply (median_fits (2 ^ 63)); [done|lia]].
    destruct docs as [|d docs']; [by eexists|].
    eexists. apply (avg_fits (2 ^ 63)); [done|done|lia]. }
  destruct (Hcol doc_raw_size) as [[ar Har] [mr Hmr]].
  { intros d Hd. by eapply Forall_forall in Hsizes as (? & ? & ?). }
  destruct (Hcol doc_text_size) as [[at_ Hat] [mt Hmt]].
  { intros d Hd. by eapply Forall_forall in Hsizes as (? & ? & ?). }
  destruct (Hcol doc_words) as [[aw Haw] [mw Hmw]].
  { intros d Hd. by eapply Forall_forall in Hsizes as (? & ? & ?). }
  fold raw in Har, Hmr. fold text in Hat, Hmt. fold words in Haw, Hmw.
  unfold compute_stats.
  rewrite (column_to_meta _ (fun d => Z.of_nat (doc_raw_size d))) by done.
  rewrite (column_to_meta _ (fun d => Z.of_nat (doc_text_size d))) by done.
  rewrite (column_to_meta _ (fun d => Z.of_nat (doc_words d))) by done.
  cbn [of_result attempt_bind]. rewrite !numbers_ints.
  cbn [of_result attempt_bind]. fold raw text words.
  rewrite Har, Hat, Haw, Hmr, Hmt, Hmw. cbn [attempt_bind].
  eexists. split; [reflexivity|]. cbn. by rewrite length_fmap.
Qed.

Lemma compute_stats_of_walker_records_witness :
  exists st : stats,
    compute_stats (to_meta <$> Demo.two_documents) = Done st
    /\ num_documents st = 2
    /\ total_raw_bytes st = 2100%Z
    /\ total_text_bytes st = 95%Z
    /\ total_words st = 16%Z.
Proof.
  destruct (compute_stats_of_walker_records Demo.two_documents)
    as (st & H1 & H2 & H3 & H4 & H5 & _).
  - repeat constructor.
  - exists st. done.
Defined.

Lemma column_key_error (k : str) (all_meta : list json) :
  Forall (fun m => exists items, m = JDict items) all_meta ->
  (exists vs, column k all_meta = Ok vs
              /\ Forall (fun m => exists v, getitem m k = Ok v) all_meta)
  \/ (column k all_meta = Raise KeyError
      /\ Exists (fun m => getitem m k = Raise KeyError) all_meta).
Proof.
  induction 1 as [|m all_meta [items ->] _ IH]; [left; by eexists|].
  cbn [column].
  destruct (getitem (JDict items) k) as [v|e] eqn:Hv.
  - destruct IH as [(vs & -> & Hall)|[-> Hex]].
    + left. eexists. split; [done|]. constructor; [|done]. by exists v.
    + right. split; [done|]. by apply Exists_cons_tl.
  - assert (e = KeyError) as ->
      by (unfold getitem in Hv; destruct (_ k items); congruence).
    right. split; [done|]. by apply Exists_cons_hd.
Qed.

(** X20: a record that the ledger accepts can still break the statistics.
    Loading asks a line for its "id" only; [compute_stats] reads three other
    fields of each record, and on records that are all objects it raises
    KeyError as soon as one of them lacks "raw_size_bytes",
    "text_size_bytes" or "word_count". *)
Theorem compute_stats_needs_the_size_fields (all_meta : list json) :
  Forall (fun m => exists items, m = JDict items) all_meta ->
  Exists (fun m => getitem m (lit "raw_size_bytes") = Raise KeyError
                   \/ getitem m (lit "text_size_bytes") = Raise KeyError
                   \/ getitem m (lit "word_count") = Raise KeyError) all_meta ->
  compute_stats all_meta = Failed (Inner KeyError).
Proof.
  intros Hdicts Hlack. unfold compute_stats.
  destruct (column_key_error (lit "raw_size_bytes") all_meta Hdicts)
    as [(raw & -> & Hraw)|[-> _]]; [|done].
  destruct (column_key_error (lit "text_size_bytes") all_meta Hdicts)
    as [(text & -> & Htext)|[-> _]]; [|done].
  destruct (column_key_error (lit "word_count") all_meta Hdicts)
    as [(words & -> & Hwords)|[-> _]]; [|done].
  exfalso. apply Exists_exists in Hlack as (m & Hm & Hcase).
  rewrite Forall_forall in Hraw, Htext, Hwords.
  destruct (Hraw m Hm) as [? Hr].
  destruct (Htext m Hm) as [? Ht].
  destruct (Hwords m Hm) as [? Hw].
  destruct Hcase as [?|[?|?]]; congruence.
Qed.

Lemma compute_stats_needs_the_size_fields_witness :
  compute_stats [to_meta Cases.sample; JDict [(lit "id", JInt 5)]]
  = Failed (Inner KeyError).
Proof.
  apply compute_stats_needs_the_size_fields.
  - repeat constructor; by eexists.
  - apply Exists_cons_tl, Exists_cons_hd. by left.
Defined.

(** 4/3 is no float, and the average of 1, 1 and 2 is the float next to it;
    the average of the one value 2^53 + 1 is the float 2^53. *)
Example avg_rounds_to_a_float :
  avg [1; 1; 2]%Z = Done (NFloat (6004799503160661 # 4503599627370496))
  /\ avg [9007199254740993]%Z = Done (NFloat (9007199254740992 # 1))
  /\ avg [3; 4; 8]%Z = Done (NFloat (5 # 1))
  /\ median [1; 2]%Z = Done (NFloat (3 # 2)).
Proof. vm_compute. done. Qed.
